(** * Logistics clean-up, planning and reconciliation: a shallow embedding

    The development follows [main.py]: the key normaliser, the zone
    loader, the order normaliser, the de-duplicator, the assignment engine
    and the reconciliation engine, each translated function by function.

    Conventions of the embedding.
    - A Python object read from JSON is a [value]; a [dict] is an
      association list in insertion order with the update-in-place
      behaviour of Python dictionaries.
    - A Python exception is an explicit [Raise]; an operation on objects
      outside the modelled fragment (say, an order identifier that is a
      number used as a dictionary key) is [Unmodelled], never a made-up
      answer.
    - Text is ASCII: [str.lower], [str.upper] and [str.strip] act on the
      ASCII letters and the ASCII white space.
    - Python floats are reached through the interface [FloatOps]; the
      instance [binary64] is IEEE double precision as CPython computes it,
      the instance [exact] is rational arithmetic without rounding.  What
      is proved for every instance holds for both; the laws a proof needs
      of the comparisons or of the addition are stated as classes, and
      proved of both instances.
    - Reading and writing the files is outside: [load_zones_csv] starts
      from the rows of the CSV reader, and [run] is [main] from the parsed
      inputs to the three results. *)

From Stdlib Require Import ZArith QArith String Ascii List Bool Lia Lqa.
From Stdlib Require Import Floats DecimalString Sorted Permutation.
From stdpp Require Import gmap strings list.
Import ListNotations.
Local Open Scope string_scope.
Local Open Scope Z_scope.
Local Open Scope list_scope.

(** ** Outcomes of a Python computation *)

Inductive exn : Type :=
| KeyError | TypeError | AttributeError | ValueError | OverflowError | IndexError.

Inductive result (A : Type) : Type :=
| Ok (a : A)
| Raise (e : exn)
| Unmodelled.
Arguments Ok {A} a.
Arguments Raise {A} e.
Arguments Unmodelled {A}.

Definition bind {A B} (r : result A) (k : A -> result B) : result B :=
  match r with
  | Ok a => k a
  | Raise e => Raise e
  | Unmodelled => Unmodelled
  end.

Notation "x <- e ;; k" := (bind e (fun x => k))
  (at level 100, e at next level, right associativity, only parsing).

(** [for x in xs: acc = f(acc, x)], stopping at the first exception. *)
Fixpoint foldM {A S} (f : S -> A -> result S) (xs : list A) (s : S) : result S :=
  match xs with
  | [] => Ok s
  | x :: xs' => s' <- f s x ;; foldM f xs' s'
  end.

(** [[x for x in xs if p(x)]], stopping at the first exception. *)
Fixpoint filterM {A} (p : A -> result bool) (xs : list A) : result (list A) :=
  match xs with
  | [] => Ok []
  | x :: xs' =>
      b <- p x ;;
      r <- filterM p xs' ;;
      Ok (if b then x :: r else r)
  end.

(** [[f(x) for x in xs]], stopping at the first exception. *)
Fixpoint mapM {A B} (f : A -> result B) (xs : list A) : result (list B) :=
  match xs with
  | [] => Ok []
  | x :: xs' => y <- f x ;; r <- mapM f xs' ;; Ok (y :: r)
  end.

(** ** Text *)

Definition is_upper (c : ascii) : bool :=
  let n := N_of_ascii c in ((65 <=? n) && (n <=? 90))%N.
Definition is_lower (c : ascii) : bool :=
  let n := N_of_ascii c in ((97 <=? n) && (n <=? 122))%N.
Definition is_digit (c : ascii) : bool :=
  let n := N_of_ascii c in ((48 <=? n) && (n <=? 57))%N.

Definition lower_char (c : ascii) : ascii :=
  if is_upper c then ascii_of_N (N_of_ascii c + 32) else c.
Definition upper_char (c : ascii) : ascii :=
  if is_lower c then ascii_of_N (N_of_ascii c - 32) else c.

Fixpoint map_string (f : ascii -> ascii) (s : string) : string :=
  match s with
  | EmptyString => EmptyString
  | String c s' => String (f c) (map_string f s')
  end.

Fixpoint filter_string (p : ascii -> bool) (s : string) : string :=
  match s with
  | EmptyString => EmptyString
  | String c s' => if p c then String c (filter_string p s') else filter_string p s'
  end.

(** [s.lower()] and [s.upper()] *)
Definition lower (s : string) : string := map_string lower_char s.
Definition upper (s : string) : string := map_string upper_char s.

(** White space as [str.strip()] sees it: tab to carriage return, the four
    separators 28..31, and the space. *)
Definition is_space (c : ascii) : bool :=
  let n := N_of_ascii c in
  (((9 <=? n) && (n <=? 13)) || ((28 <=? n) && (n <=? 32)))%N.

Fixpoint lstrip (s : string) : string :=
  match s with
  | EmptyString => EmptyString
  | String c s' => if is_space c then lstrip s' else s
  end.

Fixpoint rstrip (s : string) : string :=
  match s with
  | EmptyString => EmptyString
  | String c s' =>
      match rstrip s' with
      | EmptyString => if is_space c then EmptyString else String c EmptyString
      | r => String c r
      end
  end.

(** [s.strip()] *)
Definition strip (s : string) : string := rstrip (lstrip s).

(** [re.sub(r"[^A-Za-z0-9-]", "", s)] *)
Definition keep_id_char (c : ascii) : bool :=
  is_upper c || is_lower c || is_digit c || Ascii.eqb c "-"%char.
Definition strip_non_id (s : string) : string := filter_string keep_id_char s.

(** [not s] for a string *)
Definition blank (s : string) : bool :=
  match s with EmptyString => true | _ => false end.

(** Every character of [s] passes [p]. *)
Fixpoint string_forall (p : ascii -> bool) (s : string) : bool :=
  match s with
  | EmptyString => true
  | String c s' => p c && string_forall p s'
  end.

(** The characters left in an identifier read from a scan: capitals,
    digits and the hyphen. *)
Definition scan_id_char (c : ascii) : bool :=
  is_upper c || is_digit c || Ascii.eqb c "-"%char.

(** ** Floats *)

(** What the program asks of Python's [float]: the constant [0.0],
    conversion from [int] and from [str], addition and comparisons. *)
Class FloatOps : Type := {
  pyfloat : Type;
  f_zero : pyfloat;
  f_of_Z : Z -> result pyfloat;
  f_of_str : string -> result pyfloat;
  f_add : pyfloat -> pyfloat -> pyfloat;
  f_eqb : pyfloat -> pyfloat -> bool;
  f_ltb : pyfloat -> pyfloat -> bool;
  f_leb : pyfloat -> pyfloat -> bool
}.

(** ** Python objects *)

#[warnings="-register-all"]
Inductive value {FO : FloatOps} : Type :=
| VNone
| VBool (b : bool)
| VInt (z : Z)
| VFloat (f : pyfloat)
| VStr (s : string)
| VList (l : list value)
| VDict (d : list (string * value)).

(** ** Dictionaries: association lists in insertion order *)

Fixpoint alist_get {V} (k : string) (d : list (string * V)) : option V :=
  match d with
  | [] => None
  | (k', v) :: d' => if String.eqb k' k then Some v else alist_get k d'
  end.

(** [d[k] = v]: an existing key keeps its place, a new key goes last. *)
Fixpoint alist_set {V} (k : string) (v : V) (d : list (string * V)) : list (string * V) :=
  match d with
  | [] => [(k, v)]
  | (k', v') :: d' =>
      if String.eqb k' k then (k', v) :: d' else (k', v') :: alist_set k v d'
  end.

(** [{k: v for (k, v) in items}] *)
Definition dict_of_items {V} (items : list (string * V)) : list (string * V) :=
  fold_left (fun d kv => alist_set (fst kv) (snd kv) d) items [].

Section Objects.
Context {FO : FloatOps}.

(** ** Python expressions on objects *)

(** [bool(v)] *)
Definition truthy (v : value) : bool :=
  match v with
  | VNone => false
  | VBool b => b
  | VInt z => negb (z =? 0)
  | VFloat f => negb (f_eqb f f_zero)
  | VStr s => negb (blank s)
  | VList l => match l with [] => false | _ => true end
  | VDict d => match d with [] => false | _ => true end
  end.

(** [a or b], both already evaluated *)
Definition py_or (a b : value) : value := if truthy a then a else b.

(** [d.get(k, dflt)] on the entries of a dictionary *)
Definition dict_get (d : list (string * value)) (k : string) (dflt : value) : value :=
  match alist_get k d with Some v => v | None => dflt end.

(** [o.get(k, dflt)] *)
Definition get (o : value) (k : string) (dflt : value) : result value :=
  match o with
  | VDict d => Ok (dict_get d k dflt)
  | _ => Raise AttributeError
  end.

(** [o[k]] for a string [k] *)
Definition subscript (o : value) (k : string) : result value :=
  match o with
  | VDict d => match alist_get k d with Some v => Ok v | None => Raise KeyError end
  | _ => Raise TypeError
  end.

(** [v.strip()], [v.lower()], [v.upper()] *)
Definition str_method (f : string -> string) (v : value) : result string :=
  match v with
  | VStr s => Ok (f s)
  | _ => Raise AttributeError
  end.

(** [v] used as a dictionary key or set element: strings are modelled,
    lists and dictionaries are unhashable. *)
Definition as_key (v : value) : result string :=
  match v with
  | VStr s => Ok s
  | VList _ | VDict _ => Raise TypeError
  | _ => Unmodelled
  end.

(** [v] used as a sort key next to integers *)
Definition as_int (v : value) : result Z :=
  match v with
  | VInt z => Ok z
  | VBool b => Ok (if b then 1 else 0)
  | _ => Unmodelled
  end.

(** [float(v)] *)
Definition py_float (v : value) : result pyfloat :=
  match v with
  | VInt z => f_of_Z z
  | VBool b => f_of_Z (if b then 1 else 0)
  | VFloat f => Ok f
  | VStr s => f_of_str s
  | VNone | VList _ | VDict _ => Raise TypeError
  end.

(** [str(v)], also [f"{v}"] *)
Definition py_str (v : value) : result string :=
  match v with
  | VStr s => Ok s
  | VNone => Ok "None"
  | VBool b => Ok (if b then "True" else "False")
  | VInt z => Ok (NilZero.string_of_int (Z.to_int z))
  | VList [] => Ok "[]"
  | VDict [] => Ok "{}"
  | _ => Unmodelled
  end.

(** [v == s] for a string [s]: a string equals no object of another type. *)
Definition value_eq_str (v : value) (s : string) : bool :=
  match v with
  | VStr t => String.eqb t s
  | _ => false
  end.

(** [a != b] *)
Definition py_ne (a b : value) : result bool :=
  match a, b with
  | VStr s, _ => Ok (negb (value_eq_str b s))
  | _, VStr s => Ok (negb (value_eq_str a s))
  | _, _ => Unmodelled
  end.

(** [s in t] for two strings *)
Fixpoint is_substring (s t : string) : bool :=
  String.prefix s t ||
  match t with
  | EmptyString => false
  | String _ t' => is_substring s t'
  end.

(** [x in container] *)
Definition py_in (x container : value) : result bool :=
  match container with
  | VNone | VBool _ | VInt _ | VFloat _ => Raise TypeError
  | VList l =>
      match x with
      | VStr s => Ok (existsb (fun e => value_eq_str e s) l)
      | _ => Unmodelled
      end
  | VDict d =>
      match x with
      | VStr s => Ok (match alist_get s d with Some _ => true | None => false end)
      | VList _ | VDict _ => Raise TypeError
      | _ => Unmodelled
      end
  | VStr t =>
      match x with
      | VStr s => Ok (is_substring s t)
      | _ => Raise TypeError
      end
  end.

(** [for e in v]: the elements of a list, the keys of a dictionary, the
    characters of a string. *)
Definition py_iter (v : value) : result (list value) :=
  match v with
  | VList l => Ok l
  | VDict d => Ok (map (fun kv => VStr (fst kv)) d)
  | VStr s => Ok (map (fun c => VStr (String c EmptyString)) (list_ascii_of_string s))
  | VNone | VBool _ | VInt _ | VFloat _ => Raise TypeError
  end.

(** ** [sorted]: stable, and comparing with [<] only *)

(** Python's sort is stable and calls [<] only.  On keys that [<] orders
    (integers, strings, floats other than [nan]) every stable sort returns
    the same list; it is written here as an insertion sort, each element
    going after the elements it is not below. *)

Fixpoint insert_by {A} (lt : A -> A -> bool) (x : A) (l : list A) : list A :=
  match l with
  | [] => [x]
  | y :: l' => if lt x y then x :: y :: l' else y :: insert_by lt x l'
  end.

Definition sorted_by {A} (lt : A -> A -> bool) (l : list A) : list A :=
  fold_left (fun acc x => insert_by lt x acc) l [].

(** [sorted(xs, key=key)] *)
Definition sorted_on {A K} (lt : K -> K -> bool) (keyed : list (K * A)) : list A :=
  map snd (sorted_by (fun a b => lt (fst a) (fst b)) keyed).

(** No element of [l] is below its first one. *)
Definition head_least {A} (lt : A -> A -> bool) (l : list A) : Prop :=
  match l with
  | [] => True
  | h :: _ => forall x, In x l -> lt x h = false
  end.

(** ** Helpers: [normalize_keys] *)

(** Keys of JSON objects are strings, on which [str(k)] is the identity. *)
Fixpoint normalize_keys (obj : value) : value :=
  match obj with
  | VDict d =>
      VDict (dict_of_items
               (map (fun kv => let '(k, v) := kv in (lower k, normalize_keys v)) d))
  | VList l => VList (map normalize_keys l)
  | _ => obj
  end.

(** The entry a dictionary comprehension of [normalize_keys] builds. *)
Definition normalize_entry (kv : string * value) : string * value :=
  let '(k, v) := kv in (lower k, normalize_keys v).

(** Every key of every dictionary inside [v] is in lower case. *)
Fixpoint keys_lower (v : value) : bool :=
  match v with
  | VDict d =>
      forallb (fun kv => String.eqb (lower (fst kv)) (fst kv) && keys_lower (snd kv)) d
  | VList l => forallb keys_lower l
  | _ => true
  end.

(** No text occurs twice in [l]. *)
Fixpoint distinct (l : list string) : bool :=
  match l with
  | [] => true
  | k :: l' => negb (existsb (String.eqb k) l') && distinct l'
  end.

(** The keys of every dictionary inside [v] are distinct, as they are in
    every Python object. *)
Fixpoint well_keyed (v : value) : bool :=
  match v with
  | VDict d => distinct (map fst d) && forallb (fun kv => well_keyed (snd kv)) d
  | VList l => forallb well_keyed l
  | _ => true
  end.

(** ** Helpers: [load_zones_csv] *)

(** A value stored as a name of the zone mapping. *)
Definition as_text (v : value) : result string :=
  match v with
  | VStr s => Ok s
  | _ => Unmodelled
  end.

(** The body of [for row in rdr]; [d] holds the cells of the row under the
    names of the header. *)
Definition load_zones_row (mapping : list (string * string)) (row : value)
  : result (list (string * string)) :=
  match row with
  | VDict d =>
      raw_text <- str_method strip (py_or (dict_get d "raw" VNone) (VStr "")) ;;
      let raw := lower raw_text in
      canonical <- str_method strip (py_or (dict_get d "canonical" VNone) (VStr "")) ;;
      if blank raw then Ok mapping
      else
        name <- as_text (py_or (VStr canonical) (dict_get d "raw" (VStr ""))) ;;
        Ok (alist_set raw name mapping)
  | _ => Raise AttributeError
  end.

(** [load_zones_csv] from the rows that [csv.DictReader] yields: opening
    and parsing the file are outside. *)
Definition load_zones_csv (rows : list value) : result (list (string * string)) :=
  foldM load_zones_row rows [].

(** ** [normalize_orders] *)

(** [(o.get(k) or "").strip()] *)
Definition stripped (d : list (string * value)) (k : string) : result string :=
  str_method strip (py_or (dict_get d k VNone) (VStr "")).

(** [(o.get("orderid") or o.get("order_id") or o.get("order") or "").strip()] *)
Definition order_id_of (d : list (string * value)) : result string :=
  str_method strip
    (py_or (py_or (py_or (dict_get d "orderid" VNone)
                         (dict_get d "order_id" VNone))
                  (dict_get d "order" VNone))
           (VStr "")).

(** The body of the loop of [normalize_orders]; [zones_map] maps a
    lower-cased raw zone to its canonical name. *)
Definition normalize_order (zones_map : list (string * string)) (o : value)
  : result value :=
  match o with
  | VDict d =>
      order_id <- order_id_of d ;;
      city_raw <- stripped d "city" ;;
      let city := match alist_get (lower city_raw) zones_map with
                  | Some canonical => canonical
                  | None => city_raw
                  end in
      payment_type <- (p <- stripped d "paymenttype" ;;
                       if blank p then stripped d "payment" else Ok p) ;;
      product_type <- stripped d "producttype" ;;
      let weight := dict_get d "weight" (VInt 0) in
      deadline <- stripped d "deadline" ;;
      address <- stripped d "address" ;;
      Ok (VDict [("orderid", VStr order_id);
                 ("city", VStr city);
                 ("paymenttype", VStr payment_type);
                 ("producttype", VStr product_type);
                 ("weight", weight);
                 ("deadline", VStr deadline);
                 ("address", VStr address)])
  | _ => Raise AttributeError
  end.

Definition normalize_orders (orders : list value) (zones_map : list (string * string))
  : result (list value) :=
  mapM (normalize_order zones_map) (map normalize_keys orders).

(** ** [dedup] *)

(** The loop state: [seen] (first order per identifier, in insertion
    order) and [warnings]. *)
Definition dedup_state : Type := list (string * value) * list string.

Definition dedup_step (st : dedup_state) (o : value) : result dedup_state :=
  let (seen, warnings) := st in
  oid_v <- subscript o "orderid" ;;
  oid <- as_key oid_v ;;
  match alist_get oid seen with
  | None => Ok (alist_set oid o seen, warnings)
  | Some first =>
      a <- get o "address" VNone ;;
      if truthy a then
        b <- get first "address" VNone ;;
        if truthy b then
          differ <- py_ne a b ;;
          if differ
          then Ok (seen, (warnings ++ [String.append "Conflicting address for order " oid])%list)
          else Ok (seen, warnings)
        else Ok (seen, warnings)
      else Ok (seen, warnings)
  end.

Definition dedup (orders : list value) : result (list value * list string) :=
  st <- foldM dedup_step orders ([], []) ;;
  Ok (map snd (fst st), snd st).

(** ** The words of the specification, for comparison with the code *)

(** A field "holds a non-blank value" when it holds a text that is not
    empty once trimmed: the reading under which the payment type is "the
    first non-blank of [paymenttype], [payment]". *)
Definition non_blank_text (d : list (string * value)) (k : string) : option string :=
  match alist_get k d with
  | Some (VStr s) => if blank (strip s) then None else Some s
  | _ => None
  end.

(** "The first non-blank value among the keys", blank when there is none. *)
Fixpoint first_non_blank (d : list (string * value)) (keys : list string) : string :=
  match keys with
  | [] => ""
  | k :: keys' =>
      match non_blank_text d k with
      | Some s => s
      | None => first_non_blank d keys'
      end
  end.

Definition id_keys : list string := ["orderid"; "order_id"; "order"].

(** "An order whose identifier is [s]" *)
Definition has_id (s : string) (o : value) : bool :=
  match subscript o "orderid" with
  | Ok (VStr t) => String.eqb t s
  | _ => false
  end.

(** The entries of [seen] are filed under their own identifier. *)
Definition filed (seen : list (string * value)) : Prop :=
  NoDup (map fst seen) /\ forall k o, In (k, o) seen -> has_id k o = true.

(** A later order "conflicts" with the first of its identifier: both
    addresses are non-empty and they differ. *)
Definition conflicting (first later : value) : bool :=
  match get later "address" VNone, get first "address" VNone with
  | Ok a, Ok b =>
      truthy a && truthy b && match py_ne a b with Ok true => true | _ => false end
  | _, _ => false
  end.

(** The warning [dedup] words for an identifier. *)
Definition conflict_warning (oid : string) : string :=
  String.append "Conflicting address for order " oid.

(** The first order of an identifier, among those filed and then those of
    a list. *)
Definition first_of (seen : list (string * value)) (pre : list value) (s : string) : option value :=
  match alist_get s seen with
  | Some o => Some o
  | None => List.find (has_id s) pre
  end.

(** ** Planning: [plan_assignments] *)

(** The four results of [plan_assignments], also its loop state.
    [capacity_usage] starts at Python's integer [0], which adds and compares
    as the float [0.0] does; it is held as [f_zero]. *)
Record plan_state : Type := {
  assignments : list value;
  unassigned : list value;
  capacity_usage : list (string * pyfloat);
  unassigned_reasons : list (string * string)
}.

(** The locals read from an order at the top of the loop body. *)
Record order_view : Type := {
  oid : value;
  city : value;
  payment : string;
  product : string;
  weight : pyfloat
}.

Definition read_order (o : value) : result order_view :=
  oid <- subscript o "orderid" ;;
  city <- get o "city" (VStr "") ;;
  payment <- (v <- get o "paymenttype" VNone ;; str_method lower (py_or v (VStr ""))) ;;
  product <- (v <- get o "producttype" VNone ;; str_method lower (py_or v (VStr ""))) ;;
  weight <- (v <- get o "weight" VNone ;; py_float (py_or v (VInt 0))) ;;
  Ok {| oid := oid; city := city; payment := payment; product := product;
        weight := weight |}.

(** [c.get("priority", 10**9)], as an integer sort key *)
Definition priority_key (c : value) : result Z :=
  v <- get c "priority" (VInt (10 ^ 9)) ;; as_int v.

(** [{c["courierid"]: 0 for c in couriers}] *)
Definition initial_usage (couriers : list value) : result (list (string * pyfloat)) :=
  foldM (fun d c =>
           cid_v <- subscript c "courierid" ;;
           cid <- as_key cid_v ;;
           Ok (alist_set cid f_zero d))
        couriers [].

(** [sorted(couriers, key=lambda c: c.get("priority", 10**9))] *)
Definition sort_by_priority (couriers : list value) : result (list value) :=
  keyed <- mapM (fun c => p <- priority_key c ;; Ok (p, c)) couriers ;;
  Ok (sorted_on Z.ltb keyed).

(** [[c for c in couriers_sorted if city in c.get("zonescovered", [])]] *)
Definition in_zone_of (couriers_sorted : list value) (city : value)
  : result (list value) :=
  filterM (fun c => zones <- get c "zonescovered" (VList []) ;; py_in city zones)
          couriers_sorted.

(** [[c for c in in_zone if (payment != "cod") or c.get("acceptscod", False)]] *)
Definition cod_ok_of (in_zone : list value) (payment : string) : result (list value) :=
  filterM (fun c =>
             if negb (String.eqb payment "cod") then Ok true
             else (a <- get c "acceptscod" (VBool false) ;; Ok (truthy a)))
          in_zone.

(** [[str(e).lower() for e in c.get("exclusions", [])]] *)
Definition excluded_names (c : value) : result (list string) :=
  ex <- get c "exclusions" (VList []) ;;
  items <- py_iter ex ;;
  mapM (fun e => s <- py_str e ;; Ok (lower s)) items.

(** [[c for c in cod_ok if product not in excluded_names(c)]] *)
Definition excl_ok_of (cod_ok : list value) (product : string) : result (list value) :=
  filterM (fun c =>
             names <- excluded_names c ;;
             Ok (negb (existsb (String.eqb product) names)))
          cod_ok.

(** [capacity_usage[c["courierid"]]] *)
Definition usage_of (usage : list (string * pyfloat)) (c : value) : result pyfloat :=
  cid_v <- subscript c "courierid" ;;
  cid <- as_key cid_v ;;
  match alist_get cid usage with
  | Some u => Ok u
  | None => Raise KeyError
  end.

(** [float(c.get("dailycapacity") or 0)] *)
Definition daily_capacity (c : value) : result pyfloat :=
  v <- get c "dailycapacity" VNone ;; py_float (py_or v (VInt 0)).

(** [[c for c in excl_ok
      if capacity_usage[c["courierid"]] + weight <= float(c.get("dailycapacity") or 0)]] *)
Definition cap_ok_of (usage : list (string * pyfloat)) (excl_ok : list value)
  (weight : pyfloat) : result (list value) :=
  filterM (fun c =>
             u <- usage_of usage c ;;
             cap <- daily_capacity c ;;
             Ok (f_leb (f_add u weight) cap))
          excl_ok.

(** [(u1, p1) < (u2, p2)] on tuples: the first components decide unless
    they are equal. *)
Definition lt_key (a b : pyfloat * Z) : bool :=
  if f_eqb (fst a) (fst b) then snd a <? snd b else f_ltb (fst a) (fst b).

(** [(capacity_usage[c["courierid"]], c.get("priority", 10**9))] *)
Definition selection_key (usage : list (string * pyfloat)) (c : value)
  : result (pyfloat * Z) :=
  u <- usage_of usage c ;; p <- priority_key c ;; Ok (u, p).

(** [sorted(cap_ok, key=...)[0]] *)
Definition choose (usage : list (string * pyfloat)) (cap_ok : list value)
  : result value :=
  keyed <- mapM (fun c => k <- selection_key usage c ;; Ok (k, c)) cap_ok ;;
  match sorted_on lt_key keyed with
  | chosen :: _ => Ok chosen
  | [] => Raise IndexError
  end.

(** [unassigned.append(oid); unassigned_reasons[oid] = reason; continue] *)
Definition reject (st : plan_state) (oid : value) (reason : string) : result plan_state :=
  k <- as_key oid ;;
  Ok {| assignments := assignments st;
        unassigned := (unassigned st ++ [oid])%list;
        capacity_usage := capacity_usage st;
        unassigned_reasons := alist_set k reason (unassigned_reasons st) |}.

(** [assignments.append({...}); capacity_usage[chosen["courierid"]] += weight] *)
Definition assign (st : plan_state) (oid : value) (chosen : value) (weight : pyfloat)
  : result plan_state :=
  cid_v <- subscript chosen "courierid" ;;
  u <- usage_of (capacity_usage st) chosen ;;
  cid <- as_key cid_v ;;
  Ok {| assignments :=
          (assignments st ++ [VDict [("orderId", oid); ("courierId", cid_v)]])%list;
        unassigned := unassigned st;
        capacity_usage := alist_set cid (f_add u weight) (capacity_usage st);
        unassigned_reasons := unassigned_reasons st |}.

(** The body of [for o in orders]. *)
Definition plan_step (couriers_sorted : list value) (st : plan_state) (o : value)
  : result plan_state :=
  v <- read_order o ;;
  in_zone <- in_zone_of couriers_sorted (city v) ;;
  match in_zone with
  | [] => reject st (oid v) "Zone not covered"
  | _ :: _ =>
  cod_ok <- cod_ok_of in_zone (payment v) ;;
  match String.eqb (payment v) "cod", cod_ok with
  | true, [] => reject st (oid v) "COD not accepted"
  | _, _ =>
  excl_ok <- excl_ok_of cod_ok (product v) ;;
  match excl_ok with
  | [] =>
      pt <- get o "producttype" (VStr "") ;;
      shown <- py_str pt ;;
      reject st (oid v) (String.append "Excluded product type: " shown)
  | _ :: _ =>
  cap_ok <- cap_ok_of (capacity_usage st) excl_ok (weight v) ;;
  match cap_ok with
  | [] => reject st (oid v) "Capacity exceeded"
  | _ :: _ =>
  chosen <- choose (capacity_usage st) cap_ok ;;
  assign st (oid v) chosen (weight v)
  end end end end.

(** The loop over the orders, from a given state. *)
Definition plan_loop (couriers_sorted : list value) (orders : list value)
  (st : plan_state) : result plan_state :=
  foldM (plan_step couriers_sorted) orders st.

Definition plan_assignments (orders couriers : list value) : result plan_state :=
  let orders := map normalize_keys orders in
  let couriers := map normalize_keys couriers in
  usage <- initial_usage couriers ;;
  couriers_sorted <- sort_by_priority couriers ;;
  plan_loop couriers_sorted orders
            {| assignments := []; unassigned := []; capacity_usage := usage;
               unassigned_reasons := [] |}.

(** The couriers that pass the four filters, in the order of the chain. *)
Definition survivors_of (couriers_sorted : list value)
  (usage : list (string * pyfloat)) (v : order_view) : result (list value) :=
  in_zone <- in_zone_of couriers_sorted (city v) ;;
  cod_ok <- cod_ok_of in_zone (payment v) ;;
  excl_ok <- excl_ok_of cod_ok (product v) ;;
  cap_ok_of usage excl_ok (weight v).

(** The four filters of the loop body, in its order, and the reason the
    body records when it stops at each. *)
Inductive stage : Type := Zone | Cod | Exclusion | Capacity.

Definition reason_of (s : stage) (o : value) : result string :=
  match s with
  | Zone => Ok "Zone not covered"
  | Cod => Ok "COD not accepted"
  | Exclusion =>
      pt <- get o "producttype" (VStr "") ;;
      shown <- py_str pt ;;
      Ok (String.append "Excluded product type: " shown)
  | Capacity => Ok "Capacity exceeded"
  end.

(** The control flow of the loop body: [first_empty cs usage v s] when, on
    the order [v], [s] is the first of its four list comprehensions that
    comes out empty. *)
Inductive first_empty (couriers_sorted : list value)
  (usage : list (string * pyfloat)) (v : order_view) : stage -> Prop :=
| empty_zone :
    in_zone_of couriers_sorted (city v) = Ok [] ->
    first_empty couriers_sorted usage v Zone
| empty_cod in_zone :
    in_zone_of couriers_sorted (city v) = Ok in_zone -> in_zone <> [] ->
    cod_ok_of in_zone (payment v) = Ok [] ->
    first_empty couriers_sorted usage v Cod
| empty_exclusion in_zone cod_ok :
    in_zone_of couriers_sorted (city v) = Ok in_zone -> in_zone <> [] ->
    cod_ok_of in_zone (payment v) = Ok cod_ok -> cod_ok <> [] ->
    excl_ok_of cod_ok (product v) = Ok [] ->
    first_empty couriers_sorted usage v Exclusion
| empty_capacity in_zone cod_ok excl_ok :
    in_zone_of couriers_sorted (city v) = Ok in_zone -> in_zone <> [] ->
    cod_ok_of in_zone (payment v) = Ok cod_ok -> cod_ok <> [] ->
    excl_ok_of cod_ok (product v) = Ok excl_ok -> excl_ok <> [] ->
    cap_ok_of usage excl_ok (weight v) = Ok [] ->
    first_empty couriers_sorted usage v Capacity.

(** The state [reject] leaves. *)
Definition rejected (st : plan_state) (oid : value) (k reason : string) : plan_state :=
  {| assignments := assignments st;
     unassigned := unassigned st ++ [oid];
     capacity_usage := capacity_usage st;
     unassigned_reasons := alist_set k reason (unassigned_reasons st) |}.

(** The state [assign] leaves. *)
Definition assigned (st : plan_state) (oid cid_v : value) (cid : string)
  (u : pyfloat) : plan_state :=
  {| assignments := assignments st ++ [VDict [("orderId", oid); ("courierId", cid_v)]];
     unassigned := unassigned st;
     capacity_usage := alist_set cid u (capacity_usage st);
     unassigned_reasons := unassigned_reasons st |}.

(** [{"orderId": oid, "courierId": cid}], an entry of the plan *)
Definition assignment_of (p : value * value) : value :=
  VDict [("orderId", fst p); ("courierId", snd p)].

(** The weights of the decided orders [(oid, cid, weight)] that went to
    the courier [k], in the order of the decisions. *)
Definition weights_to (k : string) (decided : list (value * string * pyfloat))
  : list pyfloat :=
  map snd (List.filter (fun t => String.eqb (snd (fst t)) k) decided).

(** ** The eligibility chain in the words of the specification *)

(** The value a record holds under a key. *)
Definition field_of (c : value) (k : string) : option value :=
  match c with
  | VDict d => alist_get k d
  | _ => None
  end.

(** The text a record holds under a key; a missing key counts as the
    empty text. *)
Definition text_field (d : list (string * value)) (k : string) : option string :=
  match alist_get k d with
  | None => Some ""
  | Some (VStr s) => Some s
  | Some _ => None
  end.

(** The number a field holds: [float] of its value, and 0 for a field that
    is missing or holds nothing. *)
Definition number (v : option value) : option pyfloat :=
  match py_float (py_or (match v with Some x => x | None => VNone end) (VInt 0)) with
  | Ok x => Some x
  | _ => None
  end.

(** The order [o] has the identifier [k], the city [cty], the payment type
    [p], the product type [t] and the weight [w]. *)
Definition order_reads (o : value) (k cty p t : string) (w : pyfloat) : Prop :=
  exists d, normalize_keys o = VDict d /\
            alist_get "orderid" d = Some (VStr k) /\
            text_field d "city" = Some cty /\
            text_field d "paymenttype" = Some p /\
            text_field d "producttype" = Some t /\
            number (alist_get "weight" d) = Some w.

(** "Zone coverage: the courier's covered-zone set must contain the
    order's city exactly." *)
Definition covers (c : value) (cty : string) : Prop :=
  exists zones, field_of c "zonescovered" = Some (VList zones) /\ In (VStr cty) zones.

(** "COD acceptance: only enforced when the payment type
    case-insensitively equals "cod"; the courier must have accepts-COD =
    true." *)
Definition accepts (c : value) (p : string) : Prop :=
  lower p = "cod" -> field_of c "acceptscod" = Some (VBool true).

(** "Product exclusion: the courier's exclusion set (case-insensitively)
    must not contain the order's product type." *)
Definition allows (c : value) (t : string) : Prop :=
  forall names e, field_of c "exclusions" = Some (VList names) -> In (VStr e) names ->
                  lower e <> lower t.

(** "Capacity: the courier's current cumulative usage plus the order's
    weight must not exceed its daily capacity." *)
Definition fits (usage : list (string * pyfloat)) (c : value) (w : pyfloat) : Prop :=
  exists cid u cap,
    field_of c "courierid" = Some (VStr cid) /\ alist_get cid usage = Some u /\
    number (field_of c "dailycapacity") = Some cap /\
    f_leb (f_add u w) cap = true.

(** "The first predicate that eliminates all candidates": no courier of
    the roster passes the predicates up to [s], and, for a predicate after
    the first, some courier passes the ones before [s]. *)
Definition eliminated_at (roster : list value) (usage : list (string * pyfloat))
  (cty p t : string) (w : pyfloat) (s : stage) : Prop :=
  match s with
  | Zone => forall c, In c roster -> ~ covers c cty
  | Cod =>
      (exists c, In c roster /\ covers c cty) /\
      forall c, In c roster -> covers c cty -> ~ accepts c p
  | Exclusion =>
      (exists c, In c roster /\ covers c cty /\ accepts c p) /\
      forall c, In c roster -> covers c cty -> accepts c p -> ~ allows c t
  | Capacity =>
      (exists c, In c roster /\ covers c cty /\ accepts c p /\ allows c t) /\
      forall c, In c roster -> covers c cty -> accepts c p -> allows c t ->
                ~ fits usage c w
  end.

(** The reason recorded for each predicate; [t] is the order's product
    type as given. *)
Definition reason_text (s : stage) (t : string) : string :=
  match s with
  | Zone => "Zone not covered"
  | Cod => "COD not accepted"
  | Exclusion => String.append "Excluded product type: " t
  | Capacity => "Capacity exceeded"
  end.

(** The fields of a courier that the predicates up to [s] read have the
    declared types: the covered zones are a list, the flag accepts-COD is a
    boolean, the exclusions are a list of texts; a missing field is an
    empty list or the flag [false].  The capacity test reads numbers only,
    which [number] covers. *)
Definition zones_declared (c : value) : Prop :=
  field_of c "zonescovered" = None \/ exists zones, field_of c "zonescovered" = Some (VList zones).

Definition cod_declared (c : value) : Prop :=
  field_of c "acceptscod" = None \/ exists b, field_of c "acceptscod" = Some (VBool b).

Definition exclusions_declared (c : value) : Prop :=
  field_of c "exclusions" = None \/
  exists names, field_of c "exclusions" = Some (VList (map VStr names)).

Definition declared (s : stage) (c : value) : Prop :=
  zones_declared c /\
  match s with
  | Zone => True
  | Cod => cod_declared c
  | Exclusion | Capacity => cod_declared c /\ exclusions_declared c
  end.

(** ** Reconciliation: [reconcile] *)

(** [datetime.strptime(s, "%Y-%m-%d %H:%M")] is a parameter: [None] is its
    [ValueError], and a parsed date is the number of minutes it stands for. *)
Variable strptime : string -> option Z.

(** The locals of [reconcile] that the loop over the scan rows updates. *)
Record scan_state : Type := {
  delivered_orders : gset string;
  unexpected : list string;
  misassigned : list string;
  late : list string;
  duplicate : list string;
  seen_scan : gset string
}.

(** The five lists of the report. *)
Record report : Type := {
  rep_unexpected : list string;
  rep_misassigned : list string;
  rep_late : list string;
  rep_duplicate : list string;
  rep_notDelivered : list string
}.

(** [{o["orderid"] for o in orders_l if o.get("orderid")}] *)
Definition order_ids_of (orders_l : list value) : result (gset string) :=
  foldM (fun (ids : gset string) o =>
           v <- get o "orderid" VNone ;;
           if truthy v then
             (w <- subscript o "orderid" ;; k <- as_key w ;; Ok (ids ∪ {[ k ]}))
           else Ok ids)
        orders_l ∅.

(** [{a["orderid"]: a["courierid"] for a in assignments_l}] *)
Definition planned_by_order_of (assignments_l : list value)
  : result (list (string * value)) :=
  foldM (fun d a =>
           k_v <- subscript a "orderid" ;;
           c <- subscript a "courierid" ;;
           k <- as_key k_v ;;
           Ok (alist_set k c d))
        assignments_l [].

(** [re.sub(r"[^A-Za-z0-9-]", "", (row.get("orderid") or "").upper().strip())] *)
Definition scan_oid (row : value) : result string :=
  v <- get row "orderid" VNone ;;
  s <- str_method upper (py_or v (VStr "")) ;;
  Ok (strip_non_id (strip s)).

(** [(row.get(k) or "").strip()] *)
Definition scan_field (row : value) (k : string) : result string :=
  v <- get row k VNone ;; str_method strip (py_or v (VStr "")).

(** [next((o for o in orders_l if o["orderid"] == oid), None)] *)
Fixpoint find_order (orders_l : list value) (oid : string) : result (option value) :=
  match orders_l with
  | [] => Ok None
  | o :: rest =>
      v <- subscript o "orderid" ;;
      if value_eq_str v oid then Ok (Some o) else find_order rest oid
  end.

(** The lateness test of one scan against its order; only a [ValueError]
    of [strptime] is caught. *)
Definition is_late (order : option value) (ts : string) : result bool :=
  match order with
  | None => Ok false
  | Some o =>
      if truthy o then
        dl <- get o "deadline" VNone ;;
        if truthy dl && negb (blank ts) then
          match dl with
          | VStr d =>
              Ok (match strptime d with
                  | None => false
                  | Some d_deadline =>
                      match strptime ts with
                      | None => false
                      | Some d_delivered => d_deadline <? d_delivered
                      end
                  end)
          | _ => Raise TypeError
          end
        else Ok false
      else Ok false
  end.

(** [planned_cid and planned_cid != cid] *)
Definition is_misassigned (planned_by_order : list (string * value))
  (oid cid : string) : bool :=
  let planned_cid := dict_get planned_by_order oid VNone in
  truthy planned_cid && negb (value_eq_str planned_cid cid).

(** The body of [for row in log_l]. *)
Definition reconcile_row (order_ids : gset string)
  (planned_by_order : list (string * value)) (orders_l : list value)
  (st : scan_state) (row : value) : result scan_state :=
  oid <- scan_oid row ;;
  cid <- scan_field row "courierid" ;;
  ts <- scan_field row "deliveredat" ;;
  if blank oid then Ok st else
  let unexpected' :=
    if decide (oid ∈ order_ids) then unexpected st else (unexpected st ++ [oid])%list in
  let duplicate' :=
    if decide (oid ∈ seen_scan st) then (duplicate st ++ [oid])%list else duplicate st in
  let seen_scan' :=
    if decide (oid ∈ seen_scan st) then seen_scan st else seen_scan st ∪ {[ oid ]} in
  let misassigned' :=
    if is_misassigned planned_by_order oid cid
    then (misassigned st ++ [oid])%list else misassigned st in
  order <- find_order orders_l oid ;;
  is_l <- is_late order ts ;;
  Ok {| delivered_orders := delivered_orders st ∪ {[ oid ]};
        unexpected := unexpected';
        misassigned := misassigned';
        late := if is_l then (late st ++ [oid])%list else late st;
        duplicate := duplicate';
        seen_scan := seen_scan' |}.

(** [sorted(set(xs))] *)
Definition sorted_set (xs : list string) : list string :=
  sorted_by String.ltb (elements (list_to_set xs : gset string)).

(** [sorted(oid for oid in order_ids if oid not in delivered_orders)] *)
Definition not_delivered_of (order_ids delivered : gset string) : list string :=
  sorted_by String.ltb
    (List.filter (fun oid => negb (bool_decide (oid ∈ delivered))) (elements order_ids)).

Definition scan_start : scan_state :=
  {| delivered_orders := ∅; unexpected := []; misassigned := []; late := [];
     duplicate := []; seen_scan := ∅ |}.

(** [couriers] is part of the interface and is not read. *)
Definition reconcile (assignments orders log_rows couriers : list value)
  : result report :=
  let orders_l := map normalize_keys orders in
  let log_l := map normalize_keys log_rows in
  let assignments_l := map normalize_keys assignments in
  order_ids <- order_ids_of orders_l ;;
  planned_by_order <- planned_by_order_of assignments_l ;;
  st <- foldM (reconcile_row order_ids planned_by_order orders_l) log_l scan_start ;;
  Ok {| rep_unexpected := sorted_set (unexpected st);
        rep_misassigned := sorted_set (misassigned st);
        rep_late := sorted_set (late st);
        rep_duplicate := sorted_set (duplicate st);
        rep_notDelivered := not_delivered_of order_ids (delivered_orders st) |}.

(** "A known order identifier": the non-blank identifier of one of the
    given orders. *)
Definition known_id (orders_l : list value) (x : string) : Prop :=
  exists o, In o orders_l /\ subscript o "orderid" = Ok (VStr x) /\ x <> "".

(** "An identifier appearing in a scan row": the normalised, non-blank
    order identifier of one of the rows. *)
Definition scanned_id (log_l : list value) (x : string) : Prop :=
  exists row, In row log_l /\ scan_oid row = Ok x /\ x <> "".

(** "A planned assignment exists for the identifier and its courier
    differs from the courier of the scan", for a plan whose courier is not
    blank. *)
Definition plan_differs (planned_by_order : list (string * value))
  (oid cid : string) : Prop :=
  exists p, alist_get oid planned_by_order = Some p /\ truthy p = true /\ p <> VStr cid.

(** ** The run: [main] between reading the inputs and writing the outputs *)

Record outputs : Type := {
  clean_orders : list value * list string;
  plan : plan_state;
  reconciliation : report
}.

Definition run (orders_raw couriers_raw : list value)
  (zones_map : list (string * string)) (log_rows : list value) : result outputs :=
  orders_norm <- normalize_orders orders_raw zones_map ;;
  cleaned <- dedup orders_norm ;;
  planned <- plan_assignments (fst cleaned) couriers_raw ;;
  rec <- reconcile (assignments planned) (fst cleaned) log_rows couriers_raw ;;
  Ok {| clean_orders := cleaned; plan := planned; reconciliation := rec |}.

End Objects.

Arguments plan_state {FO}.
Arguments order_view {FO}.
Arguments outputs {FO}.

(** ** Two arithmetics *)

(** Reading [[sign] digits [. digits]], the plain decimal literals among
    the strings [float] accepts: sign, digits as one integer, and the number
    of digits after the point. *)
Fixpoint read_digits (s : string) (acc : Z) (n : nat) : Z * nat * string :=
  match s with
  | String c s' =>
      if is_digit c
      then read_digits s' (10 * acc + Z.of_N (N_of_ascii c - 48)) (S n)
      else (acc, n, s)
  | EmptyString => (acc, n, s)
  end.

Definition plain_decimal (s : string) : option (bool * Z * nat) :=
  let '(neg, body) :=
    match s with
    | String "-" r => (true, r)
    | String "+" r => (false, r)
    | _ => (false, s)
    end in
  let '(m, n, rest) := read_digits body 0 0 in
  match n, rest with
  | O, _ => None
  | _, EmptyString => Some (neg, m, O)
  | _, String "." frac =>
      let '(m', k, rest') := read_digits frac m 0 in
      match rest' with
      | EmptyString => Some (neg, m', k)
      | _ => None
      end
  | _, _ => None
  end.

Fixpoint string_exists (p : ascii -> bool) (s : string) : bool :=
  match s with
  | EmptyString => false
  | String c s' => p c || string_exists p s'
  end.

(** [float(s)] up to the rounding: a plain decimal literal is read; a
    string without any digit, without the letter n (of [inf], [infinity],
    [nan]) and without a byte outside ASCII is a [ValueError]; the other
    strings are left unmodelled. *)
Definition float_literal (s : string) : result (bool * Z * nat) :=
  match plain_decimal s with
  | Some d => Ok d
  | None =>
      if string_exists
           (fun c => is_digit c || Ascii.eqb c "n" || Ascii.eqb c "N"
                     || (128 <=? N_of_ascii c)%N) s
      then Unmodelled
      else Raise ValueError
  end.

(** Rational arithmetic: no rounding, no overflow. *)
Definition exact_of_decimal (d : bool * Z * nat) : Q :=
  let '(neg, m, k) := d in
  Qmake (if neg then - m else m) (Z.to_pos (10 ^ Z.of_nat k)).

Definition exact : FloatOps := {|
  pyfloat := Q;
  f_zero := 0%Q;
  f_of_Z := fun z => Ok (inject_Z z);
  f_of_str := fun s => d <- float_literal s ;; Ok (exact_of_decimal d);
  f_add := Qplus;
  f_eqb := Qeq_bool;
  f_ltb := fun x y => negb (Qle_bool y x);
  f_leb := Qle_bool
|}.

(** IEEE 754 double precision, rounding to nearest even: CPython's [float]. *)
Definition b64_of_decimal (d : bool * Z * nat) : float :=
  let '(neg, m, k) := d in
  SF2Prim
    match m with
    | Zpos p =>
        let '(q, e, l) :=
          SFdiv_core_binary prec emax (Zpos p) 0 (10 ^ Z.of_nat k) 0 in
        binary_round_aux prec emax neg q e l
    | _ => S754_zero neg
    end.

Definition b64_of_Z (z : Z) : result float :=
  match binary_normalize prec emax z 0 false with
  | S754_infinity _ => Raise OverflowError
  | sf => Ok (SF2Prim sf)
  end.

Definition binary64 : FloatOps := {|
  pyfloat := float;
  f_zero := 0%float;
  f_of_Z := b64_of_Z;
  f_of_str := fun s => d <- float_literal s ;; Ok (b64_of_decimal d);
  f_add := PrimFloat.add;
  f_eqb := PrimFloat.eqb;
  f_ltb := PrimFloat.ltb;
  f_leb := PrimFloat.leb
|}.

(** What [binary_round] returns, from the mantissa and the exponent that
    its second normalisation leaves. *)
Definition round_result (s : bool) (mrs : shr_record) (e : Z) : spec_float :=
  match shr_m mrs with
  | Z0 => S754_zero s
  | Z.pos m => if e <=? emax - prec then S754_finite s m e else S754_infinity s
  | Z.neg _ => S754_nan
  end.

(** A stand-in for [strptime] on the strict shape [YYYY-MM-DD HH:MM]; the
    number it returns grows with the date. *)
Definition two_digits (a b : ascii) : option Z :=
  if is_digit a && is_digit b
  then Some (10 * Z.of_N (N_of_ascii a - 48) + Z.of_N (N_of_ascii b - 48))
  else None.

Definition strptime_strict (s : string) : option Z :=
  match list_ascii_of_string s with
  | [y1; y2; y3; y4; d1; m1; m2; d2; a1; a2; sp; h1; h2; col; n1; n2] =>
      if Ascii.eqb d1 "-" && Ascii.eqb d2 "-" && Ascii.eqb sp " " && Ascii.eqb col ":"
      then
        match two_digits y1 y2, two_digits y3 y4, two_digits m1 m2,
              two_digits a1 a2, two_digits h1 h2, two_digits n1 n2 with
        | Some yh, Some yl, Some mo, Some da, Some ho, Some mi =>
            if (1 <=? mo) && (mo <=? 12) && (1 <=? da) && (da <=? 31)
               && (ho <=? 23) && (mi <=? 59)
            then Some (((((100 * yh + yl) * 12 + (mo - 1)) * 31 + (da - 1)) * 24 + ho) * 60 + mi)
            else None
        | _, _, _, _, _, _ => None
        end
      else None
  | _ => None
  end.

(** ** Inputs for the examples *)

Section Inputs.
Context {FO : FloatOps}.

Definition texts (l : list string) : value := VList (map VStr l).

(** A courier as [couriers.json] gives it. *)
Definition courier (id : string) (zones : list string) (cod : bool)
  (capacity priority : Z) (exclusions : list string) : value :=
  VDict [("courierId", VStr id); ("zonesCovered", texts zones);
         ("acceptsCOD", VBool cod); ("dailyCapacity", VInt capacity);
         ("priority", VInt priority); ("exclusions", texts exclusions)].

(** The same without the optional [priority]. *)
Definition courier_without_priority (id : string) (zones : list string) (cod : bool)
  (capacity : Z) (exclusions : list string) : value :=
  VDict [("courierId", VStr id); ("zonesCovered", texts zones);
         ("acceptsCOD", VBool cod); ("dailyCapacity", VInt capacity);
         ("exclusions", texts exclusions)].

(** An order as [orders.json] gives it. *)
Definition raw_order (id city payment product : string) (weight : value) : value :=
  VDict [("orderId", VStr id); ("city", VStr city); ("paymentType", VStr payment);
         ("productType", VStr product); ("weight", weight)].

(** The same with a [deadline]. *)
Definition raw_order_due (id city payment product : string) (weight : value)
  (deadline : string) : value :=
  VDict [("orderId", VStr id); ("city", VStr city); ("paymentType", VStr payment);
         ("productType", VStr product); ("weight", weight);
         ("deadline", VStr deadline)].

(** An order as [normalize_orders] leaves it. *)
Definition clean_order (id city payment product : string) (weight : value)
  (deadline address : string) : value :=
  VDict [("orderid", VStr id); ("city", VStr city); ("paymenttype", VStr payment);
         ("producttype", VStr product); ("weight", weight);
         ("deadline", VStr deadline); ("address", VStr address)].

(** A row of [log.csv]. *)
Definition scan (id courier_id delivered_at : string) : value :=
  VDict [("orderId", VStr id); ("courierId", VStr courier_id);
         ("deliveredAt", VStr delivered_at)].

(** An entry of the plan. *)
Definition planned (id courier_id : string) : value :=
  VDict [("orderId", VStr id); ("courierId", VStr courier_id)].

End Inputs.

(** ** Shapes of the inputs *)

Section Shapes.
Context {FO : FloatOps}.

(** The field [k] of a record holds a text, holds [null], or is missing. *)
Definition text_or_null (d : list (string * value)) (k : string) : bool :=
  match alist_get k d with
  | None | Some VNone | Some (VStr _) => true
  | Some _ => false
  end.

(** A row of [zones.csv] as [csv.DictReader] gives it: the cells are
    texts, or [None] where the line is short. *)
Definition zone_row (row : value) : bool :=
  match row with
  | VDict d => text_or_null d "raw" && text_or_null d "canonical"
  | _ => false
  end.

(** The fields of an order that [normalize_orders] reads as texts. *)
Definition order_text_keys : list string :=
  ["orderid"; "order_id"; "order"; "city"; "paymenttype"; "payment";
   "producttype"; "deadline"; "address"].

(** An order record of [orders.json], its keys in any letter case: each of
    its text fields is a text, [null] or missing. *)
Definition order_record (o : value) : bool :=
  match normalize_keys o with
  | VDict d => forallb (text_or_null d) order_text_keys
  | _ => false
  end.

(** [float(v or 0)] returns: [v] is a number, a text [float] reads, or
    counts as absent. *)
Definition converts (v : value) : bool :=
  match py_float (py_or v (VInt 0)) with
  | Ok _ => true
  | _ => false
  end.

(** An order record that can be planned: its text fields are texts, [null]
    or missing, and [float] reads its weight. *)
Definition plannable_order (o : value) : bool :=
  match normalize_keys o with
  | VDict d =>
      forallb (text_or_null d) order_text_keys && converts (dict_get d "weight" VNone)
  | _ => false
  end.

(** The fields of a courier record, its keys in lower case: a text as
    identifier; no priority or an integer; no zones or a list; no
    exclusions or a list of texts; a capacity [float] reads. *)
Definition courier_fields (d : list (string * value)) : bool :=
  match alist_get "courierid" d with Some (VStr _) => true | _ => false end &&
  match alist_get "priority" d with
  | None | Some (VInt _) | Some (VBool _) => true
  | _ => false
  end &&
  match alist_get "zonescovered" d with None | Some (VList _) => true | _ => false end &&
  match alist_get "exclusions" d with
  | None => true
  | Some (VList l) => forallb (fun e => match e with VStr _ => true | _ => false end) l
  | _ => false
  end &&
  converts (dict_get d "dailycapacity" VNone).

(** A courier record of [couriers.json], its keys in any letter case. *)
Definition courier_record (c : value) : bool :=
  match normalize_keys c with
  | VDict d => courier_fields d
  | _ => false
  end.

(** A row of [log.csv], its header in any letter case: the three cells
    read are texts or missing. *)
Definition scan_row (row : value) : bool :=
  match normalize_keys row with
  | VDict d =>
      text_or_null d "orderid" && text_or_null d "courierid" &&
      text_or_null d "deliveredat"
  | _ => false
  end.

(** An order as [normalize_orders] returns it, with a weight [float]
    reads. *)
Definition normalized_order (o : value) : Prop :=
  exists id city payment product w deadline address,
    o = clean_order id city payment product w deadline address /\ converts w = true.

End Shapes.

(** ** Laws of the comparisons and of the addition *)

(** [==] and [<] on floats: what a sort relies on.  The laws hold with
    [nan] too, which is equal to nothing and below nothing. *)
Class FloatOrder (FO : FloatOps) : Prop := {
  f_eqb_sym : forall x y, f_eqb x y = true -> f_eqb y x = true;
  f_eqb_trans : forall x y z, f_eqb x y = true -> f_eqb y z = true -> f_eqb x z = true;
  f_ltb_irrefl : forall x, f_ltb x x = false;
  f_ltb_trans : forall x y z, f_ltb x y = true -> f_ltb y z = true -> f_ltb x z = true;
  f_ltb_not_eqb : forall x y, f_ltb x y = true -> f_eqb x y = false;
  f_ltb_eqb_l : forall x y z, f_eqb x y = true -> f_ltb y z = true -> f_ltb x z = true;
  f_ltb_eqb_r : forall x y z, f_ltb x y = true -> f_eqb y z = true -> f_ltb x z = true
}.

(** Adding a number that is not negative does not lower a sum: in double
    precision the sum is rounded, and rounding does not pass the operand. *)
Class NonNegativeAdd (FO : FloatOps) : Prop :=
  f_add_nonneg : forall u w, f_leb f_zero w = true -> f_ltb (f_add u w) u = false.

(** * Properties *)

(** ** The outcome monad and the three loops *)

Lemma bind_Ok {A B} (r : result A) (k : A -> result B) (b : B) :
  bind r k = Ok b -> exists a, r = Ok a /\ k a = Ok b.
Proof. destruct r; simpl; intros H; try discriminate. eauto. Qed.

(** Splits a hypothesis [x <- e ;; k = Ok b] into its two halves. *)
Ltac bind_inv H :=
  let a := fresh "a" in
  let Ha := fresh "E" in
  apply bind_Ok in H; destruct H as (a & Ha & H).

Lemma foldM_app {A S} (f : S -> A -> result S) (xs ys : list A) (s : S) :
  foldM f (xs ++ ys) s = (s' <- foldM f xs s ;; foldM f ys s').
Proof.
  revert s. induction xs as [|x xs IH]; intros s; simpl; [reflexivity|].
  destruct (f s x); simpl; auto.
Qed.

(** An invariant of the loop state holds at the end when every iteration
    that returns keeps it. *)
Lemma foldM_invariant {A S} (f : S -> A -> result S) (I : S -> Prop) (xs : list A) :
  (forall s x s', In x xs -> I s -> f s x = Ok s' -> I s') ->
  forall s s', I s -> foldM f xs s = Ok s' -> I s'.
Proof.
  induction xs as [|x xs IH]; intros Hstep s s' Hs H; simpl in H.
  - congruence.
  - bind_inv H. eapply IH; [ | | exact H].
    + intros; eapply Hstep; eauto. now right.
    + eapply Hstep; eauto. now left.
Qed.

Lemma filterM_In {A} (p : A -> result bool) (xs r : list A) (x : A) :
  filterM p xs = Ok r -> In x r -> In x xs /\ p x = Ok true.
Proof.
  revert r. induction xs as [|y xs IH]; intros r H Hin; simpl in H.
  - inversion H; subst. destruct Hin.
  - bind_inv H. bind_inv H. inversion H; subst; clear H.
    destruct a.
    + destruct Hin as [->|Hin]; [split; [now left|assumption]|].
      destruct (IH _ E0 Hin); split; [now right|assumption].
    + destruct (IH _ E0 Hin); split; [now right|assumption].
Qed.

Lemma filterM_all {A} (p : A -> result bool) (xs : list A) :
  (forall x, In x xs -> p x = Ok true) -> filterM p xs = Ok xs.
Proof.
  induction xs as [|y xs IH]; intros H; simpl; [reflexivity|].
  rewrite (H y) by now left. simpl. rewrite IH; [reflexivity|].
  intros; apply H; now right.
Qed.

Lemma mapM_total {A B} (f : A -> result B) (xs : list A) :
  (forall x, In x xs -> exists y, f x = Ok y) -> exists ys, mapM f xs = Ok ys.
Proof.
  induction xs as [|x xs IH]; intros H; simpl; [eauto|].
  destruct (H x) as [y Hy]; [now left|]. rewrite Hy; simpl.
  destruct IH as [ys Hys]; [intros; apply H; now right|].
  rewrite Hys; simpl; eauto.
Qed.

(** ** Text *)

Lemma lower_char_idempotent (c : ascii) : lower_char (lower_char c) = lower_char c.
Proof. destruct c as [[] [] [] [] [] [] [] []]; reflexivity. Qed.

Lemma lower_idempotent (s : string) : lower (lower s) = lower s.
Proof.
  induction s as [|c s IH]; simpl; [reflexivity|].
  unfold lower in *; simpl. now rewrite lower_char_idempotent, IH.
Qed.

Lemma blank_true (s : string) : blank s = true <-> s = "".
Proof. destruct s; simpl; split; congruence. Qed.

(** [strip] and [lower] on ASCII text *)

Lemma is_space_lower_char (c : ascii) : is_space (lower_char c) = is_space c.
Proof. destruct c as [[] [] [] [] [] [] [] []]; reflexivity. Qed.

Lemma lstrip_head (s : string) :
  match lstrip s with
  | EmptyString => True
  | String c _ => is_space c = false
  end.
Proof.
  induction s as [|c s IH]; simpl; [exact I|].
  destruct (is_space c) eqn:E; [exact IH|exact E].
Qed.

Lemma rstrip_head (c : ascii) (s : string) :
  is_space c = false -> exists r, rstrip (String c s) = String c r.
Proof.
  intros E. simpl. destruct (rstrip s); [rewrite E|]; eauto.
Qed.

Lemma rstrip_idempotent (s : string) : rstrip (rstrip s) = rstrip s.
Proof.
  induction s as [|c s IH]; simpl; [reflexivity|].
  destruct (rstrip s) as [|c' r] eqn:R.
  - destruct (is_space c) eqn:E; simpl; [reflexivity|now rewrite E].
  - change (rstrip (String c (String c' r))) with
      (match rstrip (String c' r) with
       | EmptyString => if is_space c then EmptyString else String c EmptyString
       | r' => String c r'
       end).
    now rewrite IH.
Qed.

(** Trimming a trimmed text changes nothing. *)
Lemma strip_idempotent (s : string) : strip (strip s) = strip s.
Proof.
  unfold strip. pose proof (lstrip_head s) as H.
  destruct (lstrip s) as [|c t]; [reflexivity|].
  destruct (rstrip_head c t H) as [r R]. rewrite R.
  change (lstrip (String c r)) with (if is_space c then lstrip r else String c r).
  rewrite H, <- R. apply rstrip_idempotent.
Qed.

Lemma lstrip_lower (s : string) : lstrip (lower s) = lower (lstrip s).
Proof.
  induction s as [|c s IH]; [reflexivity|].
  change (lower (String c s)) with (String (lower_char c) (lower s)).
  simpl. rewrite is_space_lower_char. destruct (is_space c); [exact IH|reflexivity].
Qed.

Lemma rstrip_lower (s : string) : rstrip (lower s) = lower (rstrip s).
Proof.
  induction s as [|c s IH]; [reflexivity|].
  change (lower (String c s)) with (String (lower_char c) (lower s)).
  simpl. rewrite IH, is_space_lower_char.
  destruct (rstrip s); simpl; [now destruct (is_space c)|reflexivity].
Qed.

(** Trimming and lower-casing commute. *)
Lemma strip_lower (s : string) : strip (lower s) = lower (strip s).
Proof. unfold strip. now rewrite lstrip_lower, rstrip_lower. Qed.

Lemma lower_blank (s : string) : blank (lower s) = blank s.
Proof. now destruct s. Qed.

(** Characters of a text that is filtered, trimmed or put in capitals *)

Lemma string_forall_filter (p q : ascii -> bool) (s : string) :
  string_forall p s = true -> string_forall p (filter_string q s) = true.
Proof.
  induction s as [|c s IH]; simpl; [reflexivity|].
  intros [Hc Hs]%andb_prop. destruct (q c); simpl; [rewrite Hc|]; auto.
Qed.

Lemma filter_string_forall (q : ascii -> bool) (s : string) :
  string_forall q (filter_string q s) = true.
Proof.
  induction s as [|c s IH]; simpl; [reflexivity|].
  destruct (q c) eqn:E; simpl; [rewrite E|]; auto.
Qed.

Lemma filter_string_fixed (q : ascii -> bool) (s : string) :
  string_forall q s = true -> filter_string q s = s.
Proof.
  induction s as [|c s IH]; simpl; [reflexivity|].
  intros [Hc Hs]%andb_prop. rewrite Hc. now rewrite IH.
Qed.

Lemma string_forall_lstrip (p : ascii -> bool) (s : string) :
  string_forall p s = true -> string_forall p (lstrip s) = true.
Proof.
  induction s as [|c s IH]; simpl; [reflexivity|].
  intros H. destruct (is_space c); [|exact H].
  apply andb_prop in H as [_ H]. auto.
Qed.

Lemma string_forall_rstrip (p : ascii -> bool) (s : string) :
  string_forall p s = true -> string_forall p (rstrip s) = true.
Proof.
  induction s as [|c s IH]; simpl; [reflexivity|].
  intros [Hc Hs]%andb_prop. specialize (IH Hs).
  destruct (rstrip s) as [|c' r]; simpl.
  - destruct (is_space c); simpl; [reflexivity|now rewrite Hc].
  - rewrite Hc. exact IH.
Qed.

Lemma string_forall_strip (p : ascii -> bool) (s : string) :
  string_forall p s = true -> string_forall p (strip s) = true.
Proof. intros H. now apply string_forall_rstrip, string_forall_lstrip. Qed.

Lemma string_forall_and (p q r : ascii -> bool) (s : string) :
  (forall c, p c = true -> q c = true -> r c = true) ->
  string_forall p s = true -> string_forall q s = true -> string_forall r s = true.
Proof.
  intros Hr. induction s as [|c s IH]; simpl; [reflexivity|].
  intros [Hp Hps]%andb_prop [Hq Hqs]%andb_prop.
  rewrite (Hr c Hp Hq). auto.
Qed.

Lemma upper_char_not_lower (c : ascii) : is_lower (upper_char c) = false.
Proof. destruct c as [[] [] [] [] [] [] [] []]; reflexivity. Qed.

Lemma upper_not_lower (s : string) :
  string_forall (fun c => negb (is_lower c)) (upper s) = true.
Proof.
  induction s as [|c s IH]; [reflexivity|].
  change (upper (String c s)) with (String (upper_char c) (upper s)).
  simpl. now rewrite upper_char_not_lower.
Qed.

(** What is left of a text after [upper], [strip] and the removal of the
    characters outside [A-Za-z0-9-] has capitals, digits and hyphens only. *)
Lemma scan_id_chars (s : string) :
  string_forall scan_id_char (strip_non_id (strip (upper s))) = true.
Proof.
  apply string_forall_and with (p := keep_id_char) (q := fun c => negb (is_lower c)).
  - intros c. unfold keep_id_char, scan_id_char.
    destruct (is_upper c), (is_lower c), (is_digit c); simpl; auto; discriminate.
  - apply filter_string_forall.
  - apply string_forall_filter, string_forall_strip, upper_not_lower.
Qed.

(** A text of capitals, digits and hyphens is left as it is. *)
Lemma scan_id_fixed (s : string) :
  string_forall scan_id_char s = true -> strip_non_id (strip (upper s)) = s.
Proof.
  intros H.
  assert (U : upper s = s).
  { induction s as [|c s IH]; [reflexivity|]. simpl in H.
    apply andb_prop in H as [Hc Hs].
    change (upper (String c s)) with (String (upper_char c) (upper s)).
    rewrite IH by assumption. f_equal. revert Hc.
    destruct c as [[] [] [] [] [] [] [] []]; try reflexivity; discriminate. }
  assert (T : strip s = s).
  { unfold strip.
    assert (L : lstrip s = s).
    { destruct s as [|c s]; [reflexivity|]. simpl in *.
      apply andb_prop in H as [Hc _]. revert Hc.
      destruct c as [[] [] [] [] [] [] [] []]; try reflexivity; discriminate. }
    rewrite L. clear U L.
    induction s as [|c s IH]; [reflexivity|]. simpl in *.
    apply andb_prop in H as [Hc Hs]. rewrite IH by assumption.
    destruct s; [|reflexivity]. revert Hc.
    destruct c as [[] [] [] [] [] [] [] []]; try reflexivity; discriminate. }
  rewrite U, T. apply filter_string_fixed.
  revert H. apply string_forall_and with (p := fun _ => true).
  - intros c _. unfold scan_id_char, keep_id_char.
    destruct (is_upper c), (is_lower c), (is_digit c); simpl; auto.
  - clear. induction s; simpl; auto.
Qed.

(** ** Dictionaries *)

Section Alist.
Context {V : Type}.
Implicit Types (d : list (string * V)) (k : string) (v : V).

Lemma alist_get_set_eq d k v : alist_get k (alist_set k v d) = Some v.
Proof.
  induction d as [|[k' v'] d IH]; simpl.
  - now rewrite String.eqb_refl.
  - destruct (String.eqb k' k) eqn:E; simpl; rewrite E; auto.
Qed.

Lemma alist_get_set_ne d k k' v :
  k <> k' -> alist_get k' (alist_set k v d) = alist_get k' d.
Proof.
  intros Hne. induction d as [|[k0 v0] d IH]; simpl.
  - destruct (String.eqb_spec k k'); congruence.
  - destruct (String.eqb_spec k0 k); simpl.
    + subst. destruct (String.eqb_spec k k'); congruence.
    + now rewrite IH.
Qed.

Lemma alist_get_set d k k' v :
  alist_get k' (alist_set k v d) = if String.eqb k k' then Some v else alist_get k' d.
Proof.
  destruct (String.eqb_spec k k').
  - subst. apply alist_get_set_eq.
  - now apply alist_get_set_ne.
Qed.

Lemma alist_get_In d k v : alist_get k d = Some v -> In (k, v) d.
Proof.
  induction d as [|[k' v'] d IH]; simpl; [discriminate|].
  destruct (String.eqb_spec k' k).
  - intros [= ->]. subst. now left.
  - intros H. right. auto.
Qed.

Lemma alist_get_None d k : alist_get k d = None <-> ~ In k (map fst d).
Proof.
  induction d as [|[k' v'] d IH]; simpl; [tauto|].
  destruct (String.eqb_spec k' k); split; intros H; try discriminate.
  - exfalso. apply H. now left.
  - intros [?|?]; [congruence|]. now apply IH.
  - apply IH. tauto.
Qed.

(** Setting a key that is absent appends the entry. *)
Lemma alist_set_fresh d k v : alist_get k d = None -> alist_set k v d = d ++ [(k, v)].
Proof.
  induction d as [|[k' v'] d IH]; simpl; [reflexivity|].
  destruct (String.eqb k' k); [discriminate|]. intros H. now rewrite IH.
Qed.

Lemma alist_set_keys d k v :
  map fst (alist_set k v d) =
  match alist_get k d with
  | Some _ => map fst d
  | None => map fst d ++ [k]
  end.
Proof.
  induction d as [|[k' v'] d IH]; simpl; [reflexivity|].
  destruct (String.eqb k' k); simpl; [reflexivity|].
  rewrite IH. now destruct (alist_get k d).
Qed.

Lemma alist_set_In d k v k' v' :
  In (k', v') (alist_set k v d) -> (k' = k /\ v' = v) \/ In (k', v') d.
Proof.
  induction d as [|[k0 v0] d IH]; simpl.
  - intros [[= <- <-]|[]]. now left.
  - destruct (String.eqb_spec k0 k); simpl.
    + intros [[= <- <-]|H]; [left; auto|right; now right].
    + intros [H|H]; [right; now left|].
      destruct (IH H); [now left|right; now right].
Qed.

Lemma alist_set_NoDup d k v : NoDup (map fst d) -> NoDup (map fst (alist_set k v d)).
Proof.
  intros H. rewrite alist_set_keys. destruct (alist_get k d) eqn:E; [assumption|].
  apply alist_get_None in E.
  apply NoDup_app; repeat split; auto.
  - intros x Hx [->|[]]%list_elem_of_In. apply E. now apply list_elem_of_In.
  - apply NoDup_singleton.
Qed.

Lemma dict_of_items_acc (items acc : list (string * V)) :
  NoDup (map fst (acc ++ items)) ->
  fold_left (fun d kv => alist_set (fst kv) (snd kv) d) items acc = acc ++ items.
Proof.
  revert acc. induction items as [|[k v] items IH]; intros acc H; simpl.
  - now rewrite app_nil_r.
  - rewrite alist_set_fresh.
    + rewrite IH; rewrite <- app_assoc; [reflexivity|exact H].
    + apply alist_get_None. rewrite map_app in H; simpl in H.
      apply NoDup_app in H as (_ & H & _). intros Hin.
      apply (H k); [now apply list_elem_of_In|]. now left.
Qed.

(** A comprehension over entries whose keys are already distinct changes
    nothing. *)
Lemma dict_of_items_id (items : list (string * V)) :
  NoDup (map fst items) -> dict_of_items items = items.
Proof. intros H. unfold dict_of_items. now rewrite dict_of_items_acc. Qed.

Lemma dict_of_items_spec (items : list (string * V)) :
  NoDup (map fst (dict_of_items items)) /\
  forall kv, In kv (dict_of_items items) -> In kv items.
Proof.
  unfold dict_of_items.
  assert (G : forall acc : list (string * V),
             NoDup (map fst acc) ->
             NoDup (map fst (fold_left (fun d kv => alist_set (fst kv) (snd kv) d) items acc)) /\
             forall kv, In kv (fold_left (fun d kv => alist_set (fst kv) (snd kv) d) items acc) ->
                        In kv acc \/ In kv items).
  { induction items as [|[k v] items IH]; intros acc Hacc; simpl.
    - split; auto.
    - destruct (IH (alist_set k v acc)) as [H1 H2]; [now apply alist_set_NoDup|].
      split; [assumption|]. intros [k' v'] Hin.
      destruct (H2 _ Hin) as [H|H]; [|right; now right].
      apply alist_set_In in H as [[-> ->]|H]; [right; now left|now left]. }
  destruct (G []) as [H1 H2]; [constructor|]. split; [assumption|].
  intros kv H. destruct (H2 _ H) as [[]|]; assumption.
Qed.

End Alist.

(** ** [normalize_keys] *)

Section NormalizeKeys.
Context {FO : FloatOps}.

(** Induction over objects, through the lists and the dictionaries. *)
Lemma value_nested_ind (P : value -> Prop) :
  P VNone ->
  (forall b, P (VBool b)) ->
  (forall z, P (VInt z)) ->
  (forall f, P (VFloat f)) ->
  (forall s, P (VStr s)) ->
  (forall l, Forall P l -> P (VList l)) ->
  (forall d, Forall (fun kv => P (snd kv)) d -> P (VDict d)) ->
  forall v, P v.
Proof.
  intros HN HB HI HF HS HL HD.
  fix IH 1. intros [ | b | z | f | s | l | d ].
  - exact HN.
  - apply HB.
  - apply HI.
  - apply HF.
  - apply HS.
  - apply HL. induction l as [|x l IHl]; constructor; [apply IH|exact IHl].
  - apply HD. induction d as [|[k x] d IHd]; constructor; [apply IH|exact IHd].
Qed.

Lemma normalize_keys_dict (d : list (string * value)) :
  normalize_keys (VDict d) = VDict (dict_of_items (map normalize_entry d)).
Proof. reflexivity. Qed.

(** C9. Lower-casing the keys of an arbitrarily nested object a second
    time changes nothing: [normalize_keys (normalize_keys obj)] is
    [normalize_keys obj], for every object [obj] made of dictionaries,
    lists and scalars. *)
Theorem normalize_keys_idempotent (obj : value) :
  normalize_keys (normalize_keys obj) = normalize_keys obj.
Proof.
  induction obj as [ | b | z | f | s | l IH | d IH ] using value_nested_ind;
    try reflexivity.
  - simpl. f_equal. rewrite map_map. apply map_ext_in.
    intros x Hx. rewrite Forall_forall in IH. apply IH. now apply list_elem_of_In.
  - rewrite !normalize_keys_dict.
    set (items := map normalize_entry d).
    destruct (dict_of_items_spec items) as [Hnodup Hsub].
    f_equal.
    assert (Hfix : map normalize_entry (dict_of_items items) = dict_of_items items).
    { rewrite <- (map_id (dict_of_items items)) at 2.
      apply map_ext_in. intros kv Hkv. apply Hsub in Hkv.
      apply in_map_iff in Hkv as ([k v] & <- & Hin). simpl.
      rewrite lower_idempotent. f_equal.
      rewrite Forall_forall in IH. apply (IH (k, v)). now apply list_elem_of_In. }
    rewrite Hfix. now apply dict_of_items_id.
Qed.

End NormalizeKeys.

(** ** [normalize_keys]: what it returns, what it leaves alone *)

Lemma distinct_NoDup (l : list string) : distinct l = true <-> NoDup l.
Proof.
  induction l as [|k l IH]; simpl.
  - split; [constructor|reflexivity].
  - rewrite andb_true_iff, negb_true_iff, IH, NoDup_cons. 
    assert (E : existsb (String.eqb k) l = false <-> k ∉ l).
    { rewrite <- not_true_iff_false, existsb_exists, list_elem_of_In. split.
      - intros H Hin. apply H. exists k. split; [assumption|apply String.eqb_refl].
      - intros H (x & Hx & ->%String.eqb_eq). contradiction. }
    now rewrite E.
Qed.

(** The value found under a key after a run of assignments [d[k] = v]: the
    one assigned last. *)
Lemma alist_get_fold_set {V} (items acc : list (string * V)) (k : string) :
  alist_get k (fold_left (fun d kv => alist_set (fst kv) (snd kv) d) items acc) =
  match alist_get k (rev items) with
  | Some v => Some v
  | None => alist_get k acc
  end.
Proof.
  revert acc. induction items as [|[k' v'] items IH]; intros acc; simpl; [reflexivity|].
  rewrite IH. clear IH.
  assert (G : alist_get k (rev items ++ [(k', v')]) =
              match alist_get k (rev items) with
              | Some v => Some v
              | None => if String.eqb k' k then Some v' else None
              end).
  { induction (rev items) as [|[k0 v0] r IHr]; simpl; [reflexivity|].
    destruct (String.eqb k0 k); [reflexivity|exact IHr]. }
  rewrite G. destruct (alist_get k (rev items)); [reflexivity|].
  rewrite alist_get_set. now destruct (String.eqb k' k).
Qed.

Section NormalizeKeysMore.
Context {FO : FloatOps}.

(** X1. Whatever the object, [normalize_keys] returns an object in which
    every key of every dictionary, at every depth, is in lower case, and in
    which no dictionary has the same key twice. *)
Theorem normalize_keys_lowercase (obj : value) :
  keys_lower (normalize_keys obj) = true /\ well_keyed (normalize_keys obj) = true.
Proof.
  induction obj as [ | b | z | f | s | l IH | d IH ] using value_nested_ind;
    try (split; reflexivity).
  - rewrite Forall_forall in IH. simpl. split; apply forallb_forall;
      intros x (y & <- & Hy)%in_map_iff; apply IH; now apply list_elem_of_In.
  - rewrite Forall_forall in IH. rewrite normalize_keys_dict.
    destruct (dict_of_items_spec (map normalize_entry d)) as [Hnodup Hsub].
    assert (Hentry : forall kv, In kv (dict_of_items (map normalize_entry d)) ->
                       lower (fst kv) = fst kv /\
                       keys_lower (snd kv) = true /\ well_keyed (snd kv) = true).
    { intros kv Hkv. apply Hsub in Hkv. apply in_map_iff in Hkv as ([k v] & <- & Hin).
      simpl. split; [apply lower_idempotent|].
      apply (IH (k, v)). now apply list_elem_of_In. }
    simpl. split.
    + apply forallb_forall. intros kv Hkv. destruct (Hentry kv Hkv) as (E & L & _).
      rewrite E, String.eqb_refl, L. reflexivity.
    + apply andb_true_iff. split; [now apply distinct_NoDup|].
      apply forallb_forall. intros kv Hkv. now destruct (Hentry kv Hkv) as (_ & _ & W).
Qed.

(** X2. An object whose keys are all in lower case already (and distinct
    within each dictionary, as in every Python object) is returned
    unchanged. *)
Theorem normalize_keys_fixed (obj : value) :
  well_keyed obj = true -> keys_lower obj = true -> normalize_keys obj = obj.
Proof.
  induction obj as [ | b | z | f | s | l IH | d IH ] using value_nested_ind;
    try reflexivity.
  - rewrite Forall_forall in IH. simpl. intros W L.
    rewrite forallb_forall in W, L. f_equal.
    rewrite <- (map_id l) at 2. apply map_ext_in. intros x Hx.
    apply IH; auto. now apply list_elem_of_In.
  - rewrite Forall_forall in IH. rewrite normalize_keys_dict. simpl.
    intros [D W]%andb_prop L. rewrite forallb_forall in W, L.
    assert (E : map normalize_entry d = d).
    { rewrite <- (map_id d) at 2. apply map_ext_in. intros [k v] Hkv. simpl.
      destruct (andb_prop _ _ (L _ Hkv)) as [Hk Hv]. simpl in Hk, Hv.
      apply String.eqb_eq in Hk. rewrite Hk. f_equal.
      apply (IH (k, v)); [now apply list_elem_of_In| |assumption].
      exact (W _ Hkv). }
    rewrite E. f_equal. apply dict_of_items_id. now apply distinct_NoDup.
Qed.

(** X3. When several keys of a dictionary become the same key in lower
    case, the value kept under it is the one of the last of them. *)
Theorem normalize_keys_last_wins (pre post : list (string * value)) (k : string)
  (v : value) :
  (forall kv, In kv post -> lower (fst kv) <> lower k) ->
  get (normalize_keys (VDict (pre ++ (k, v) :: post))) (lower k) VNone =
  Ok (normalize_keys v).
Proof.
  intros Hpost. rewrite normalize_keys_dict. simpl. f_equal.
  unfold dict_get, dict_of_items. rewrite alist_get_fold_set.
  rewrite map_app, rev_app_distr. simpl. rewrite <- app_assoc. simpl.
  assert (G : forall (r tail : list (string * value)),
             (forall kv, In kv r -> fst kv <> lower k) ->
             alist_get (lower k) (r ++ tail) = alist_get (lower k) tail).
  { induction r as [|[k0 v0] r IHr]; intros tail Hr; simpl; [reflexivity|].
    destruct (String.eqb_spec k0 (lower k)) as [->|_].
    - exfalso. apply (Hr (lower k, v0)); [now left|reflexivity].
    - apply IHr. intros; apply Hr; now right. }
  rewrite G.
  - simpl. now rewrite String.eqb_refl.
  - intros kv Hkv. apply in_rev in Hkv.
    apply in_map_iff in Hkv as ([k0 v0] & <- & Hin). simpl.
    apply (Hpost (k0, v0) Hin).
Qed.

End NormalizeKeysMore.

(** ** [normalize_orders]: the identifier *)

Section Identifier.
Context {FO : FloatOps}.

Lemma strip_blank (s : string) : blank (strip s) = false -> blank s = false.
Proof. now destruct s. Qed.

(** [o.get(k) or rest] takes the field when it holds a non-blank value,
    as long as the field holds no text of white space only and no other
    object that counts as true. *)
Lemma py_or_field (d : list (string * value)) (k : string) (rest : value) :
  (forall v, alist_get k d = Some v -> truthy v = true ->
             exists s, v = VStr s /\ blank (strip s) = false) ->
  py_or (dict_get d k VNone) rest =
  match non_blank_text d k with
  | Some s => VStr s
  | None => rest
  end.
Proof.
  intros Htext. unfold py_or, dict_get, non_blank_text.
  destruct (alist_get k d) as [v|] eqn:E; [|reflexivity].
  destruct (truthy v) eqn:T.
  - destruct (Htext v eq_refl T) as (s & -> & B). now rewrite B.
  - destruct v; try reflexivity. simpl in T. now destruct s.
Qed.

Lemma non_blank_text_Some (d : list (string * value)) (k s : string) :
  non_blank_text d k = Some s -> blank s = false.
Proof.
  unfold non_blank_text. destruct (alist_get k d) as [[]|]; try discriminate.
  destruct (blank (strip s0)) eqn:B; [discriminate|].
  intros [= <-]. now apply strip_blank.
Qed.

Lemma py_or_text (s : string) (rest : value) :
  blank s = false -> py_or (VStr s) rest = VStr s.
Proof. intros B. unfold py_or; simpl. now rewrite B. Qed.

(** Where the code and the specification agree on the identifier: on the
    records whose three fields hold texts that are empty or not blank, or
    objects that count as absent ([null], [0], an empty list). *)
Lemma identifier_without_white_space (d : list (string * value)) :
  (forall k v, In k id_keys -> alist_get k d = Some v -> truthy v = true ->
               exists s, v = VStr s /\ blank (strip s) = false) ->
  order_id_of d = Ok (strip (first_non_blank d id_keys)).
Proof.
  intros T. unfold order_id_of.
  rewrite (py_or_field d "orderid") by (intros v; apply T; cbn; tauto).
  unfold id_keys, first_non_blank.
  destruct (non_blank_text d "orderid") as [s|] eqn:E1.
  { apply non_blank_text_Some in E1. now rewrite !py_or_text. }
  cbv beta iota.
  rewrite (py_or_field d "order_id") by (intros v; apply T; cbn; tauto).
  destruct (non_blank_text d "order_id") as [s|] eqn:E2.
  { apply non_blank_text_Some in E2. now rewrite !py_or_text. }
  cbv beta iota.
  rewrite (py_or_field d "order") by (intros v; apply T; cbn; tauto).
  now destruct (non_blank_text d "order").
Qed.

End Identifier.

(** ** [load_zones_csv] and the city of an order *)

Lemma foldM_total {A S} (f : S -> A -> result S) (xs : list A) :
  (forall s x, In x xs -> exists s', f s x = Ok s') ->
  forall s, exists s', foldM f xs s = Ok s'.
Proof.
  induction xs as [|x xs IH]; intros H s; simpl; [eauto|].
  destruct (H s x) as [s1 E]; [now left|]. rewrite E. simpl.
  apply IH. intros; apply H; now right.
Qed.

Lemma mapM_Forall2 {A B} (f : A -> result B) (xs : list A) (ys : list B) :
  mapM f xs = Ok ys -> Forall2 (fun x y => f x = Ok y) xs ys.
Proof.
  revert ys. induction xs as [|x xs IH]; intros ys H; simpl in H.
  - injection H as <-. constructor.
  - bind_inv H. bind_inv H. injection H as <-. constructor; auto.
Qed.

Section Zones.
Context {FO : FloatOps}.
Implicit Types (d : list (string * value)) (m : list (string * string)).

(** [(d.get(k) or "").strip()] returns a trimmed text. *)
Lemma stripped_Ok d (k s : string) : stripped d k = Ok s -> strip s = s.
Proof.
  unfold stripped. destruct (py_or _ _); simpl; try discriminate.
  intros [= <-]. apply strip_idempotent.
Qed.

(** It returns for a field that holds a text or [null], or is missing. *)
Lemma stripped_total d (k : string) :
  text_or_null d k = true -> exists s, stripped d k = Ok s.
Proof.
  unfold text_or_null, stripped, dict_get, py_or.
  destruct (alist_get k d) as [[]|]; try discriminate; intros _; simpl; eauto.
  destruct (negb (blank s)); simpl; eauto.
Qed.

(** When the trimmed text is not blank, the field holds that text
    untrimmed. *)
Lemma stripped_text d (k s : string) :
  stripped d k = Ok s -> s <> "" ->
  exists t, alist_get k d = Some (VStr t) /\ strip t = s /\ t <> "".
Proof.
  unfold stripped, dict_get, py_or. intros H Hs.
  destruct (alist_get k d) as [v|]; [|cbv in H; congruence].
  destruct (truthy v) eqn:T; [|cbv in H; congruence].
  destruct v; try discriminate. simpl in H. injection H as <-.
  exists s0. repeat split. intros ->. now apply Hs.
Qed.

(** What one row does to the mapping. *)
Lemma load_zones_row_Ok m (row : value) m' :
  load_zones_row m row = Ok m' ->
  exists d s c,
    row = VDict d /\ stripped d "raw" = Ok s /\ stripped d "canonical" = Ok c /\
    ((lower s = "" /\ m' = m) \/
     (lower s <> "" /\
      exists t, alist_get "raw" d = Some (VStr t) /\ strip t = s /\ t <> "" /\
                m' = alist_set (lower s) (if blank c then t else c) m)).
Proof.
  destruct row as [ | | | | | |d]; try discriminate. simpl. intros H.
  apply bind_Ok in H as (s & Hs & H). apply bind_Ok in H as (c & Hc & H).
  exists d, s, c. split; [reflexivity|]. split; [exact Hs|]. split; [exact Hc|].
  destruct (blank (lower s)) eqn:B.
  - left. apply blank_true in B. injection H as <-. auto.
  - right. assert (N : lower s <> "") by (intros E; rewrite E in B; discriminate).
    split; [exact N|].
    assert (Ns : s <> "") by (intros ->; now apply N).
    destruct (stripped_text d "raw" s Hs Ns) as (t & Ht & Hst & Nt).
    exists t. split; [exact Ht|]. split; [exact Hst|]. split; [exact Nt|].
    unfold dict_get in H. rewrite Ht in H. unfold py_or in H. simpl in H.
    destruct (blank c); simpl in H; now injection H as <-.
Qed.

(** X4. In the mapping [load_zones_csv] returns, every key is a non-blank
    text in the form in which [normalize_orders] looks a city up (trimmed
    and in lower case), no key occurs twice, and no zone is given a blank
    name. *)
Theorem zones_map_entries (rows : list value) m :
  load_zones_csv rows = Ok m ->
  NoDup (map fst m) /\
  forall k name, In (k, name) m -> k <> "" /\ lower (strip k) = k /\ name <> "".
Proof.
  unfold load_zones_csv.
  apply (foldM_invariant load_zones_row
           (fun m => NoDup (map fst m) /\
                     forall k name, In (k, name) m ->
                                    k <> "" /\ lower (strip k) = k /\ name <> "")).
  - intros m0 row m1 _ [Hnd Hall] Hrow.
    destruct (load_zones_row_Ok _ _ _ Hrow) as (d & s & c & _ & Hs & Hc & Hcase).
    destruct Hcase as [[_ ->]|(N & t & _ & Hst & Nt & ->)]; [now split|].
    split; [now apply alist_set_NoDup|].
    intros k name [[-> ->]|Hin]%alist_set_In; [|now apply Hall].
    split; [exact N|]. split.
    + rewrite strip_lower, lower_idempotent. f_equal.
      rewrite <- Hst. apply strip_idempotent.
    + destruct (blank c) eqn:B; [exact Nt|]. intros ->. discriminate.
  - split; [constructor|]. intros k name [].
Qed.

(** X6. [load_zones_csv] raises nothing on the rows of a CSV file, whose
    cells are texts or missing. *)
Theorem load_zones_csv_total (rows : list value) :
  Forall (fun row => zone_row row = true) rows ->
  exists m, load_zones_csv rows = Ok m.
Proof.
  intros H. rewrite Forall_forall in H. unfold load_zones_csv.
  apply foldM_total. intros m row Hrow%list_elem_of_In. specialize (H row Hrow).
  destruct row as [ | | | | | |d]; try discriminate. simpl in H.
  apply andb_prop in H as [Hr Hc].
  destruct (stripped_total d "raw" Hr) as [s Hs].
  destruct (stripped_total d "canonical" Hc) as [c Hc'].
  unfold stripped in Hs, Hc'. simpl. rewrite Hs, Hc'. simpl.
  destruct (blank (lower s)) eqn:B; [eauto|].
  assert (Ns : s <> "") by (intros ->; discriminate).
  destruct (stripped_text d "raw" s Hs Ns) as (t & Ht & _ & _).
  unfold dict_get. rewrite Ht. unfold py_or. simpl.
  destruct (blank c); simpl; eauto.
Qed.

(** The rows after the last row for a zone leave its entry alone. *)
Lemma load_zones_later (post : list value) (k : string) :
  (forall d' s', In (VDict d') post -> stripped d' "raw" = Ok s' -> lower s' <> k) ->
  forall m m', foldM load_zones_row post m = Ok m' -> alist_get k m' = alist_get k m.
Proof.
  induction post as [|row post IH]; intros Hk m m' H; simpl in H.
  - now injection H as <-.
  - bind_inv H. rewrite (IH (fun d' s' Hin => Hk d' s' (or_intror Hin)) _ _ H).
    destruct (load_zones_row_Ok _ _ _ E) as (d & s & c & -> & Hs & _ & Hcase).
    destruct Hcase as [[_ ->]|(_ & t & _ & _ & _ & ->)]; [reflexivity|].
    apply alist_get_set_ne. apply (Hk d s); [now left|exact Hs].
Qed.

(** X5. The city of an order is looked up without regard to letter case
    and surrounding white space, and the last row of [zones.csv] for a zone
    decides: an order whose city is the raw name [r] of that row up to case
    and white space gets the row's canonical name, trimmed; when the
    canonical cell is blank it gets the raw name as written in the row. *)
Theorem city_canonicalised (pre post : list value) d (r c : string) m
  (o : list (string * value)) (city : string) (out : value) :
  load_zones_csv (pre ++ VDict d :: post) = Ok m ->
  alist_get "raw" d = Some (VStr r) ->
  stripped d "canonical" = Ok c ->
  lower (strip r) <> "" ->
  (forall d' s', In (VDict d') post -> stripped d' "raw" = Ok s' ->
                 lower s' <> lower (strip r)) ->
  alist_get "city" o = Some (VStr city) ->
  lower (strip city) = lower (strip r) ->
  normalize_order m (VDict o) = Ok out ->
  subscript out "city" = Ok (VStr (if blank c then r else c)).
Proof.
  intros Hm Hr Hc Nr Hpost Hcity Hsame Hout.
  assert (Hget : alist_get (lower (strip r)) m = Some (if blank c then r else c)).
  { unfold load_zones_csv in Hm. rewrite foldM_app in Hm.
    apply bind_Ok in Hm as (m0 & _ & Hm). cbn [foldM] in Hm.
    apply bind_Ok in Hm as (m1 & Hrow & Hm).
    rewrite (load_zones_later post _ Hpost _ _ Hm).
    destruct (load_zones_row_Ok _ _ _ Hrow) as (d0 & s & c0 & [= <-] & Hs & Hc0 & Hcase).
    rewrite Hc in Hc0. injection Hc0 as <-.
    assert (Es : s = strip r).
    { unfold stripped, dict_get in Hs. rewrite Hr in Hs. unfold py_or in Hs.
      simpl in Hs. destruct (blank r) eqn:B; simpl in Hs; injection Hs as <-;
        [apply blank_true in B; now subst|reflexivity]. }
    subst s. destruct Hcase as [[E _]|(_ & t & Ht & _ & _ & ->)]; [contradiction|].
    rewrite Hr in Ht. injection Ht as <-. apply alist_get_set_eq. }
  simpl in Hout.
  apply bind_Ok in Hout as (id & _ & Hout).
  apply bind_Ok in Hout as (city_raw & Hcr & Hout).
  assert (Ecr : city_raw = strip city).
  { unfold stripped, dict_get in Hcr. rewrite Hcity in Hcr. unfold py_or in Hcr.
    simpl in Hcr. destruct (blank city) eqn:B; simpl in Hcr; injection Hcr as <-;
      [apply blank_true in B; now subst|reflexivity]. }
  subst city_raw. rewrite Hsame, Hget in Hout.
  repeat (let x := fresh in let E := fresh in apply bind_Ok in Hout as (x & E & Hout)).
  injection Hout as <-. reflexivity.
Qed.

End Zones.

(** ** [normalize_orders]: the records it returns *)

Section NormalizedOrders.
Context {FO : FloatOps}.

(** What [normalize_orders] makes of one record. *)
Lemma normalize_order_Ok (zones_map : list (string * string)) (o r : value) :
  normalize_order zones_map o = Ok r ->
  exists d id city payment product deadline address,
    o = VDict d /\
    r = clean_order id city payment product (dict_get d "weight" (VInt 0))
                    deadline address /\
    strip id = id /\ strip payment = payment /\ strip product = product /\
    strip deadline = deadline /\ strip address = address.
Proof.
  destruct o as [ | | | | | |d]; try discriminate. simpl. intros H.
  apply bind_Ok in H as (id & Hid & H).
  apply bind_Ok in H as (city_raw & Hcity & H).
  apply bind_Ok in H as (payment & Hpay & H).
  apply bind_Ok in H as (product & Hprod & H).
  apply bind_Ok in H as (deadline & Hdl & H).
  apply bind_Ok in H as (address & Haddr & H).
  injection H as <-.
  exists d, id, (match alist_get (lower city_raw) zones_map with
                 | Some canonical => canonical
                 | None => city_raw
                 end), payment, product, deadline, address.
  split; [reflexivity|]. split; [reflexivity|].
  assert (Hp : strip payment = payment).
  { apply bind_Ok in Hpay as (p & Hp & Hpay).
    destruct (blank p); [now apply stripped_Ok in Hpay|].
    injection Hpay as <-. now apply stripped_Ok in Hp. }
  repeat split; try (eapply stripped_Ok; eassumption); try exact Hp.
  unfold order_id_of in Hid. destruct (py_or _ _); try discriminate.
  simpl in Hid. injection Hid as <-. apply strip_idempotent.
Qed.

(** X7. [normalize_orders] returns one record per order, in the order of
    the input; each has the seven keys [orderid], [city], [paymenttype],
    [producttype], [weight], [deadline], [address] and no other; the weight
    is the order's weight as given (0 when the order has none), and the
    identifier, payment type, product type, deadline and address are texts
    without surrounding white space. *)
Theorem normalize_orders_shape (orders : list value)
  (zones_map : list (string * string)) (out : list value) :
  normalize_orders orders zones_map = Ok out ->
  Forall2 (fun o r =>
             exists d id city payment product deadline address,
               normalize_keys o = VDict d /\
               r = clean_order id city payment product
                               (dict_get d "weight" (VInt 0)) deadline address /\
               strip id = id /\ strip payment = payment /\ strip product = product /\
               strip deadline = deadline /\ strip address = address)
          orders out.
Proof.
  unfold normalize_orders. intros H. apply mapM_Forall2 in H.
  remember (map normalize_keys orders) as l eqn:E. revert orders E.
  induction H as [|x r l out Hx _ IH]; intros orders E.
  - destruct orders; [constructor|discriminate].
  - destruct orders as [|o orders]; [discriminate|]. injection E as -> ->.
    constructor; [|now apply IH].
    destruct (normalize_order_Ok _ _ _ Hx)
      as (d & id & city & payment & product & deadline & address & Hd & Hr & Hrest).
    exists d, id, city, payment, product, deadline, address. auto.
Qed.

Lemma order_id_of_total (d : list (string * value)) :
  text_or_null d "orderid" = true -> text_or_null d "order_id" = true ->
  text_or_null d "order" = true -> exists id, order_id_of d = Ok id.
Proof.
  unfold text_or_null, order_id_of, dict_get, py_or. intros H1 H2 H3.
  destruct (alist_get "orderid" d) as [[]|]; try discriminate; simpl;
    try (destruct (negb (blank s)); simpl; [eauto|]);
    destruct (alist_get "order_id" d) as [[]|]; try discriminate; simpl;
    try (match goal with |- context [negb (blank ?t)] =>
           destruct (negb (blank t)); simpl; [eauto|] end);
    destruct (alist_get "order" d) as [[]|]; try discriminate; simpl;
    try (match goal with |- context [negb (blank ?t)] =>
           destruct (negb (blank t)); simpl; [eauto|] end); eauto.
Qed.

(** One record whose text fields are texts, [null] or missing is
    normalised without error. *)
Lemma normalize_order_total (zones_map : list (string * string))
  (d : list (string * value)) :
  forallb (text_or_null d) order_text_keys = true ->
  exists r, normalize_order zones_map (VDict d) = Ok r.
Proof.
  intros H. rewrite forallb_forall in H.
  assert (T : forall k, In k order_text_keys -> exists s, stripped d k = Ok s)
    by (intros k Hk; apply stripped_total; now apply H).
  destruct (order_id_of_total d) as [id Hid]; try (apply H; cbn; tauto).
  destruct (T "city") as [city Hcity]; [cbn; tauto|].
  destruct (T "paymenttype") as [p Hp]; [cbn; tauto|].
  destruct (T "payment") as [p' Hp']; [cbn; tauto|].
  destruct (T "producttype") as [product Hprod]; [cbn; tauto|].
  destruct (T "deadline") as [deadline Hdl]; [cbn; tauto|].
  destruct (T "address") as [address Haddr]; [cbn; tauto|].
  simpl. rewrite Hid. cbn [bind]. rewrite Hcity. cbn [bind]. rewrite Hp. cbn [bind].
  destruct (blank p); [rewrite Hp'|]; cbn [bind];
    rewrite Hprod; cbn [bind]; rewrite Hdl; cbn [bind]; rewrite Haddr; cbn [bind];
    eauto.
Qed.

(** X8. [normalize_orders] raises nothing on a batch of order records
    whose text fields (identifier under any of its three keys, city,
    payment type under either key, product type, deadline, address) are
    texts, [null] or missing, whatever their weight and other fields. *)
Theorem normalize_orders_total (orders : list value)
  (zones_map : list (string * string)) :
  Forall (fun o => order_record o = true) orders ->
  exists out, normalize_orders orders zones_map = Ok out.
Proof.
  intros H. rewrite Forall_forall in H. unfold normalize_orders.
  apply mapM_total. intros x (o & <- & Ho)%in_map_iff.
  specialize (H o (proj2 (list_elem_of_In _ _) Ho)).
  unfold order_record in H. destruct (normalize_keys o) as [ | | | | | |d]; try discriminate.
  now apply normalize_order_total.
Qed.

End NormalizedOrders.

(** ** [dedup] *)

Section Dedup.
Context {FO : FloatOps}.

Lemma as_key_Ok (v : value) (k : string) : as_key v = Ok k -> v = VStr k.
Proof. destruct v; simpl; congruence. Qed.

Lemma has_id_iff (s : string) (o : value) :
  has_id s o = true <-> subscript o "orderid" = Ok (VStr s).
Proof.
  unfold has_id. destruct (subscript o "orderid") as [[]| |]; split; try congruence.
  - intros ->%String.eqb_eq. reflexivity.
  - intros [= ->]. apply String.eqb_refl.
Qed.

(** One iteration: the identifier is a text; a new identifier is entered
    last, a known one changes nothing in [seen]; warnings are only added. *)
Lemma dedup_step_Ok (seen seen' : list (string * value)) (w w' : list string)
  (o : value) :
  dedup_step (seen, w) o = Ok (seen', w') ->
  exists k, has_id k o = true /\
    seen' = match alist_get k seen with
            | None => alist_set k o seen
            | Some _ => seen
            end /\
    exists extra, w' = w ++ extra.
Proof.
  unfold dedup_step. intros H. bind_inv H. bind_inv H.
  apply as_key_Ok in E0; subst a. exists a0. split; [now apply has_id_iff|].
  destruct (alist_get a0 seen) as [first|].
  - bind_inv H. destruct (truthy a).
    + bind_inv H. destruct (truthy a1).
      * bind_inv H. destruct a2; injection H as <- <-; split; eauto.
        exists []. now rewrite app_nil_r.
      * injection H as <- <-. split; [reflexivity|]. exists []. now rewrite app_nil_r.
    + injection H as <- <-. split; [reflexivity|]. exists []. now rewrite app_nil_r.
  - injection H as <- <-. split; [reflexivity|]. exists []. now rewrite app_nil_r.
Qed.

Lemma dedup_loop (orders : list value) :
  forall seen w seen' w',
    filed seen ->
    foldM dedup_step orders (seen, w) = Ok (seen', w') ->
    filed seen' /\
    (forall s, alist_get s seen' =
               match alist_get s seen with
               | Some o => Some o
               | None => List.find (has_id s) orders
               end) /\
    exists extra, w' = w ++ extra.
Proof.
  induction orders as [|o orders IH]; intros seen w seen' w' Hf H; simpl in H.
  - injection H as <- <-. split; [assumption|]. split.
    + intros s. now destruct (alist_get s seen).
    + exists []. now rewrite app_nil_r.
  - bind_inv H. destruct a as [seen1 w1].
    destruct (dedup_step_Ok _ _ _ _ _ E) as (k & Hk & Hseen & extra & ->).
    assert (Hf1 : filed seen1).
    { destruct Hf as [Hnd Hin]. subst seen1.
      destruct (alist_get k seen) eqn:G; [now split|]. split.
      - now apply alist_set_NoDup.
      - intros k' o' [[-> ->]|]%alist_set_In; auto. }
    destruct (IH _ _ _ _ Hf1 H) as (Hf' & Hget & extra' & ->).
    split; [assumption|]. split.
    + intros s. rewrite Hget. subst seen1. simpl.
      destruct (alist_get k seen) as [first|] eqn:G.
      * destruct (alist_get s seen) eqn:G'; [reflexivity|].
        destruct (has_id s o) eqn:Hs; [|reflexivity].
        apply has_id_iff in Hs, Hk. rewrite Hs in Hk. injection Hk as ->. congruence.
      * rewrite alist_get_set. destruct (String.eqb_spec k s).
        -- subst. now rewrite G, Hk.
        -- destruct (alist_get s seen); [reflexivity|].
           destruct (has_id s o) eqn:Hs; [|reflexivity].
           apply has_id_iff in Hs, Hk. rewrite Hs in Hk. injection Hk as ->. congruence.
    + exists (extra ++ extra'). now rewrite app_assoc.
Qed.

(** Among the values of a filed dictionary, the orders with identifier
    [s] are the entry under [s], if there is one. *)
Lemma filed_filter (seen : list (string * value)) (s : string) :
  filed seen ->
  List.filter (has_id s) (map snd seen) =
  match alist_get s seen with
  | Some o => [o]
  | None => []
  end.
Proof.
  intros [Hnd Hin]. induction seen as [|[k o] seen IH]; simpl; [reflexivity|].
  inversion Hnd as [|? ? Hk Hnd']; subst.
  assert (Hko : has_id k o = true) by (apply Hin; now left).
  rewrite IH by (auto; intros; apply Hin; now right).
  destruct (String.eqb_spec k s).
  - subst. rewrite Hko. destruct (alist_get s seen) eqn:G; [|reflexivity].
    exfalso. apply Hk. apply alist_get_In in G.
    apply list_elem_of_In. change s with (fst (s, v)). now apply in_map.
  - destruct (has_id s o) eqn:Hs; [|reflexivity].
    apply has_id_iff in Hs, Hko. rewrite Hs in Hko. injection Hko as ->. congruence.
Qed.

(** A duplicate with a conflicting address is warned about. *)
Lemma dedup_step_conflict (seen : list (string * value)) (w : list string)
  (first later : value) (s a1 a2 : string) :
  alist_get s seen = Some first ->
  has_id s later = true ->
  subscript first "address" = Ok (VStr a1) ->
  subscript later "address" = Ok (VStr a2) ->
  a1 <> "" -> a2 <> "" -> a1 <> a2 ->
  dedup_step (seen, w) later =
  Ok (seen, w ++ [String.append "Conflicting address for order " s]).
Proof.
  intros Hseen Hid H1 H2 N1 N2 Hne. apply has_id_iff in Hid.
  unfold dedup_step. rewrite Hid. simpl. rewrite Hseen.
  destruct later as [ | | | | | |d2]; try discriminate.
  destruct first as [ | | | | | |d1]; try discriminate.
  simpl in *. unfold dict_get.
  destruct (alist_get "address" d2) as [v2|]; [|discriminate]. injection H2 as ->.
  destruct (alist_get "address" d1) as [v1|]; [|discriminate]. injection H1 as ->.
  destruct a2 as [|c2 a2]; [congruence|]. destruct a1 as [|c1 a1]; [congruence|].
  cbn -[String.eqb].
  destruct (String.eqb_spec (String c1 a1) (String c2 a2)); [congruence|reflexivity].
Qed.

(** C10. The blank string is an identifier like any other: when the input
    of [dedup] has orders whose identifier is blank, the first of them is
    the only one retained, every later one is dropped, and a later one whose
    non-blank address differs from the non-blank address of the first is
    reported by "Conflicting address for order " (the blank identifier
    follows the message). *)
Theorem dedup_blank_identifier (orders clean : list value) (warnings : list string)
  (first : value) :
  dedup orders = Ok (clean, warnings) ->
  List.find (has_id "") orders = Some first ->
  List.filter (has_id "") clean = [first] /\
  forall pre later post a1 a2,
    orders = pre ++ later :: post ->
    List.find (has_id "") pre = Some first ->
    has_id "" later = true ->
    subscript first "address" = Ok (VStr a1) ->
    subscript later "address" = Ok (VStr a2) ->
    a1 <> "" -> a2 <> "" -> a1 <> a2 ->
    In "Conflicting address for order " warnings.
Proof.
  intros H Hfirst. unfold dedup in H. bind_inv H. destruct a as [seen w].
  injection H as <- <-. simpl.
  assert (F0 : filed ([] : list (string * value))) by (split; [constructor|intros ? ? []]).
  destruct (dedup_loop _ _ _ _ _ F0 E) as (Hf & Hget & _).
  split.
  - rewrite filed_filter by assumption. rewrite Hget. simpl. now rewrite Hfirst.
  - intros pre later post a1 a2 -> Hpre Hlater A1 A2 N1 N2 Hne.
    rewrite foldM_app in E. bind_inv E. destruct a as [seen1 w1].
    destruct (dedup_loop _ _ _ _ _ F0 E0) as (Hf1 & Hget1 & _).
    cbn [foldM] in E.
    assert (G : alist_get "" seen1 = Some first) by (rewrite Hget1; simpl; exact Hpre).
    rewrite (dedup_step_conflict _ _ _ _ _ _ _ G Hlater A1 A2 N1 N2 Hne) in E.
    cbn [bind] in E. destruct (dedup_loop _ _ _ _ _ Hf1 E) as (_ & _ & extra & ->).
    apply in_or_app. left. apply in_or_app. right. now left.
Qed.

End Dedup.

(** ** [dedup]: what is kept, what is warned about, what raises *)

Lemma foldM_total_invariant {A S} (f : S -> A -> result S) (I : S -> Prop)
  (xs : list A) :
  (forall s x, In x xs -> I s -> exists s', f s x = Ok s' /\ I s') ->
  forall s, I s -> exists s', foldM f xs s = Ok s' /\ I s'.
Proof.
  induction xs as [|x xs IH]; intros H s Hs; simpl; [eauto|].
  destruct (H s x) as (s1 & E & H1); [now left|assumption|]. rewrite E. simpl.
  apply IH; [|assumption]. intros; apply H; auto. now right.
Qed.

Section DedupMore.
Context {FO : FloatOps}.
Implicit Types (seen : list (string * value)) (w : list string).

Lemma conflict_warning_inj (s s' : string) :
  conflict_warning s = conflict_warning s' -> s = s'.
Proof. unfold conflict_warning. intros H. cbn in H. now inversion H. Qed.

Lemma filed_nil : filed ([] : list (string * value)).
Proof. split; [constructor|intros ? ? []]. Qed.

(** Two identifiers of one order are the same. *)
Lemma has_id_same (s k : string) (o : value) :
  has_id s o = true -> has_id k o = true -> s = k.
Proof. intros Hs%has_id_iff Hk%has_id_iff. congruence. Qed.

Lemma dedup_step_filed seen seen' w w' (o : value) :
  filed seen -> dedup_step (seen, w) o = Ok (seen', w') -> filed seen'.
Proof.
  intros [Hnd Hin] H.
  destruct (dedup_step_Ok _ _ _ _ _ H) as (k & Hk & -> & _).
  destruct (alist_get k seen); [now split|]. split.
  - now apply alist_set_NoDup.
  - intros k' o' [[-> ->]|]%alist_set_In; auto.
Qed.

(** One iteration and the warnings: one is added exactly for a conflict
    with the order already filed under the identifier. *)
Lemma dedup_step_warning seen seen' w w' (o : value) (k : string) :
  dedup_step (seen, w) o = Ok (seen', w') -> has_id k o = true ->
  match alist_get k seen with
  | Some first =>
      if conflicting first o then w' = w ++ [conflict_warning k] else w' = w
  | None => w' = w
  end.
Proof.
  intros H Hk. apply has_id_iff in Hk. unfold dedup_step in H. rewrite Hk in H.
  cbn [bind as_key] in H. unfold conflicting.
  destruct (alist_get k seen) as [first|]; [|now injection H as _ <-].
  destruct (get o "address" VNone) as [a| |]; try discriminate. cbn [bind] in H.
  destruct (truthy a).
  2: { injection H as _ <-. now destruct (get first "address" VNone). }
  destruct (get first "address" VNone) as [b| |]; try discriminate. cbn [bind] in H.
  destruct (truthy b); [|now injection H as _ <-].
  destruct (py_ne a b) as [[]| |]; try discriminate; cbn in H |- *;
    now injection H as _ <-.
Qed.

Lemma first_of_step seen seen' w w' (o : value) (pre : list value) (s : string) :
  dedup_step (seen, w) o = Ok (seen', w') ->
  first_of seen' pre s = first_of seen (o :: pre) s.
Proof.
  intros H. destruct (dedup_step_Ok _ _ _ _ _ H) as (k & Hk & -> & _).
  unfold first_of. simpl.
  destruct (alist_get k seen) as [f|] eqn:G.
  - destruct (alist_get s seen) eqn:G'; [reflexivity|].
    destruct (has_id s o) eqn:Hs; [|reflexivity].
    rewrite (has_id_same _ _ _ Hs Hk) in G'. congruence.
  - rewrite alist_get_set. destruct (String.eqb_spec k s) as [->|Hne].
    + now rewrite G, Hk.
    + destruct (alist_get s seen); [reflexivity|].
      destruct (has_id s o) eqn:Hs; [|reflexivity].
      now rewrite (has_id_same _ _ _ Hs Hk) in Hne.
Qed.

Lemma dedup_warnings_loop (orders : list value) (s : string) :
  forall seen w seen' w',
    foldM dedup_step orders (seen, w) = Ok (seen', w') ->
    (In (conflict_warning s) w' <->
     In (conflict_warning s) w \/
     exists first pre later post,
       orders = pre ++ later :: post /\ first_of seen pre s = Some first /\
       has_id s later = true /\ conflicting first later = true) /\
    (forall msg, In msg w' -> In msg w \/ exists k, msg = conflict_warning k).
Proof.
  induction orders as [|o orders IH]; intros seen w seen' w' H; simpl in H.
  - injection H as <- <-. split; [|auto]. split; [auto|].
    intros [?|(? & [|] & ? & ? & ? & _)]; [assumption|discriminate..].
  - bind_inv H. destruct a as [seen1 w1]. destruct (IH _ _ _ _ H) as [IH1 IH2].
    clear IH H.
    destruct (dedup_step_Ok _ _ _ _ _ E) as (k & Hk & _ & _).
    pose proof (dedup_step_warning _ _ _ _ _ _ E Hk) as Hw.
    split.
    + rewrite IH1. split.
      * intros [Hin|(first & pre & later & post & -> & Hf & Hl & Hc)].
        -- destruct (alist_get k seen) as [f|] eqn:G; [|subst w1; now left].
           destruct (conflicting f o) eqn:C; [|subst w1; now left]. subst w1.
           apply in_app_iff in Hin as [?|[Hs|[]]]; [now left|].
           apply conflict_warning_inj in Hs. subst k. right.
           exists f, [], o, orders. unfold first_of. rewrite G. auto.
        -- right. exists first, (o :: pre), later, post.
           rewrite <- (first_of_step _ _ _ _ _ _ _ E). auto.
      * intros [Hin|(first & pre & later & post & Heq & Hf & Hl & Hc)].
        -- left. destruct (alist_get k seen) as [f|]; [|now subst w1].
           destruct (conflicting f o); subst w1; [|assumption].
           apply in_app_iff. now left.
        -- destruct pre as [|o' pre]; simpl in Heq; injection Heq as <- ->.
           ++ left. unfold first_of in Hf. simpl in Hf.
              rewrite (has_id_same _ _ _ Hl Hk) in Hf.
              destruct (alist_get k seen) as [f|]; [|discriminate].
              injection Hf as ->. rewrite Hc in Hw. subst w1.
              rewrite (has_id_same _ _ _ Hl Hk). apply in_app_iff. right. now left.
           ++ right. exists first, pre, later, post.
              rewrite (first_of_step _ _ _ _ _ _ _ E). auto.
    + intros msg Hmsg. destruct (IH2 msg Hmsg) as [Hin|?]; [|now right].
      destruct (alist_get k seen) as [f|]; [|subst w1; now left].
      destruct (conflicting f o); subst w1; [|now left].
      apply in_app_iff in Hin as [?|[<-|[]]]; [now left|right; eauto].
Qed.

(** The entries added by the loop are orders of the input, in its order. *)
Lemma dedup_sublist (orders : list value) :
  forall seen w seen' w',
    foldM dedup_step orders (seen, w) = Ok (seen', w') ->
    exists added, seen' = seen ++ added /\ sublist (map snd added) orders.
Proof.
  induction orders as [|o orders IH]; intros seen w seen' w' H; simpl in H.
  - injection H as <- <-. exists []. split; [now rewrite app_nil_r|constructor].
  - bind_inv H. destruct a as [seen1 w1].
    destruct (IH _ _ _ _ H) as (added & -> & Hsub).
    destruct (dedup_step_Ok _ _ _ _ _ E) as (k & _ & -> & _).
    destruct (alist_get k seen) eqn:G.
    + exists added. split; [reflexivity|]. now apply sublist_cons.
    + rewrite (alist_set_fresh _ _ _ G), <- app_assoc.
      exists ((k, o) :: added). split; [reflexivity|]. simpl. now apply sublist_skip.
Qed.

Lemma filed_find seen (s : string) :
  filed seen -> List.find (has_id s) (map snd seen) = alist_get s seen.
Proof.
  intros [Hnd Hin]. induction seen as [|[k o] seen IH]; simpl; [reflexivity|].
  assert (Hko : has_id k o = true) by (apply Hin; now left).
  inversion Hnd; subst.
  destruct (String.eqb_spec k s) as [->|Hne]; [now rewrite Hko|].
  destruct (has_id s o) eqn:Hs.
  - now rewrite (has_id_same _ _ _ Hs Hko) in Hne.
  - apply IH; [assumption|]. intros; apply Hin; now right.
Qed.

(** X9. [dedup] keeps the first order of every identifier and nothing
    else: the orders it returns are orders of the input in the order of the
    input, the first returned order with a given identifier is the first
    order of the input with it, and their identifiers differ from one
    another. *)
Theorem dedup_keeps_first (orders clean : list value) (warnings : list string) :
  dedup orders = Ok (clean, warnings) ->
  sublist clean orders /\
  (forall s, List.find (has_id s) clean = List.find (has_id s) orders) /\
  exists ids, NoDup ids /\
              Forall2 (fun k o => subscript o "orderid" = Ok (VStr k)) ids clean.
Proof.
  unfold dedup. intros H. bind_inv H. destruct a as [seen w]. injection H as <- <-.
  destruct (dedup_loop _ _ _ _ _ filed_nil E) as (Hf & Hget & _).
  destruct (dedup_sublist _ _ _ _ _ E) as (added & -> & Hsub). simpl in *.
  split; [exact Hsub|]. split.
  - intros s. rewrite (filed_find _ _ Hf). apply Hget.
  - destruct Hf as [Hnd Hin]. exists (map fst added). split; [exact Hnd|].
    clear - Hin. induction added as [|[k o] added IH]; simpl; constructor.
    + apply has_id_iff. apply Hin. now left.
    + apply IH. intros; apply Hin; now right.
Qed.

(** Orders filed under distinct identifiers pass through the loop
    unchanged and without warning. *)
Lemma dedup_filed_loop (l : list (string * value)) :
  forall seen w,
    filed (seen ++ l) -> foldM dedup_step (map snd l) (seen, w) = Ok (seen ++ l, w).
Proof.
  induction l as [|[k o] l IH]; intros seen w Hf; simpl.
  - now rewrite app_nil_r.
  - destruct Hf as [Hnd Hin].
    assert (Hk : has_id k o = true) by (apply Hin, in_or_app; right; now left).
    apply has_id_iff in Hk. rewrite Hk. cbn [bind as_key].
    assert (G : alist_get k seen = None).
    { apply alist_get_None. rewrite map_app in Hnd. simpl in Hnd.
      apply NoDup_app in Hnd as (_ & Hd & _). intros Hs.
      apply (Hd k); [now apply list_elem_of_In|]. now left. }
    rewrite G, (alist_set_fresh _ _ _ G). cbn [bind].
    rewrite (IH (seen ++ [(k, o)]) w); rewrite <- app_assoc; [reflexivity|].
    now split.
Qed.

(** X10. [dedup] applied to its own result returns it unchanged, with no
    warning. *)
Theorem dedup_idempotent (orders clean : list value) (warnings : list string) :
  dedup orders = Ok (clean, warnings) -> dedup clean = Ok (clean, []).
Proof.
  unfold dedup. intros H. bind_inv H. destruct a as [seen w]. injection H as <- _.
  destruct (dedup_loop _ _ _ _ _ filed_nil E) as (Hf & _ & _). simpl.
  now rewrite (dedup_filed_loop seen [] []).
Qed.

(** [dedup] returns on records of the shape [normalize_orders] gives. *)
Lemma dedup_total_on_records (l : list value) :
  (forall r, In r l ->
     exists id city payment product wt deadline address,
       r = clean_order id city payment product wt deadline address) ->
  exists clean warnings, dedup l = Ok (clean, warnings).
Proof.
  intros Hshape. unfold dedup.
  destruct (foldM_total_invariant dedup_step
              (fun st => forall k o, In (k, o) (fst st) -> exists d, o = VDict d)
              l) with (s := ([] : list (string * value), [] : list string))
    as ([seen w] & E & _).
  - intros [seen w] r Hr Hseen. simpl in Hseen.
    destruct (Hshape r Hr) as (id & city & payment & product & wt & deadline & address & ->).
    unfold dedup_step. cbn [subscript clean_order alist_get String.eqb Ascii.eqb
                              Bool.eqb bind as_key].
    destruct (alist_get id seen) as [first|] eqn:G.
    + destruct (Hseen id first (alist_get_In _ _ _ G)) as [d ->].
      cbn. destruct (negb (blank address)); [|eauto].
      destruct (truthy (dict_get d "address" VNone)); [|eauto].
      destruct (negb (value_eq_str (dict_get d "address" VNone) address)); eauto.
    + eexists. split; [reflexivity|]. simpl.
      intros k o [[-> ->]|Hin]%alist_set_In; eauto.
  - intros k o [].
  - rewrite E. simpl. eauto.
Qed.

(** X11. [dedup] raises nothing on the records [normalize_orders]
    returns. *)
Theorem dedup_after_normalize (orders : list value)
  (zones_map : list (string * string)) (normalized : list value) :
  normalize_orders orders zones_map = Ok normalized ->
  exists clean warnings, dedup normalized = Ok (clean, warnings).
Proof.
  unfold normalize_orders. intros H. apply mapM_Forall2 in H.
  apply dedup_total_on_records.
  intros r Hr. apply list_elem_of_In in Hr.
  destruct (proj1 (list_elem_of_lookup _ _) Hr) as [i Hi].
  destruct (Forall2_lookup_r _ _ _ _ _ H Hi) as (o & _ & Ho).
  destruct (normalize_order_Ok _ _ _ Ho)
    as (d & id & city & payment & product & deadline & address & _ & -> & _).
  eauto 8.
Qed.

(** X12. [dedup] does not lower-case keys: an order record without the
    key [orderid] (one that still has [orderId], say) raises [KeyError],
    whatever comes after it. *)
Theorem dedup_needs_identifier (pre post : list value) (d : list (string * value))
  (clean : list value) (warnings : list string) :
  dedup pre = Ok (clean, warnings) ->
  alist_get "orderid" d = None ->
  dedup (pre ++ VDict d :: post) = Raise KeyError.
Proof.
  unfold dedup. intros H Hd. bind_inv H. rewrite foldM_app, E. cbn [bind foldM].
  destruct a as [seen w]. unfold dedup_step. simpl. now rewrite Hd.
Qed.

(** X13. The warnings of [dedup]: there is a warning "Conflicting address
    for order " followed by an identifier exactly when an order with that
    identifier, not the first one, has a non-empty address that differs from
    the non-empty address of the first one; and there is no warning of
    another kind. *)
Theorem conflict_warning_rule (orders clean : list value) (warnings : list string) :
  dedup orders = Ok (clean, warnings) ->
  (forall s, In (conflict_warning s) warnings <->
             exists first pre later post,
               orders = pre ++ later :: post /\
               List.find (has_id s) pre = Some first /\
               has_id s later = true /\ conflicting first later = true) /\
  (forall msg, In msg warnings -> exists s, msg = conflict_warning s).
Proof.
  unfold dedup. intros H. bind_inv H. destruct a as [seen w]. injection H as <- <-.
  simpl. split.
  - intros s. destruct (dedup_warnings_loop orders s _ _ _ _ E) as [H _].
    rewrite H. simpl. split; [intros [[]|?]|]; auto.
  - intros msg Hmsg. destruct (dedup_warnings_loop orders "" _ _ _ _ E) as [_ H].
    destruct (H msg Hmsg) as [[]|?]; assumption.
Qed.

End DedupMore.

(** ** [sorted] *)

Section Sorting.
Context {A : Type} (lt : A -> A -> bool).

Lemma insert_by_perm (x : A) (l : list A) : Permutation (insert_by lt x l) (x :: l).
Proof.
  induction l as [|y l IH]; simpl; [reflexivity|].
  destruct (lt x y); [reflexivity|].
  rewrite IH. apply perm_swap.
Qed.

Lemma sorted_by_acc_perm (l acc : list A) :
  Permutation (fold_left (fun acc x => insert_by lt x acc) l acc) (acc ++ l).
Proof.
  revert acc. induction l as [|x l IH]; intros acc; simpl.
  - now rewrite app_nil_r.
  - rewrite IH, insert_by_perm. simpl.
    rewrite Permutation_middle. reflexivity.
Qed.

(** [sorted] rearranges, and neither adds nor loses an element. *)
Lemma sorted_by_perm (l : list A) : Permutation (sorted_by lt l) l.
Proof. unfold sorted_by. now rewrite sorted_by_acc_perm. Qed.

Lemma sorted_by_In (l : list A) (x : A) : In x (sorted_by lt l) <-> In x l.
Proof.
  split; apply Permutation_in; [|symmetry]; apply sorted_by_perm.
Qed.

Lemma sorted_by_nil (l : list A) : sorted_by lt l = [] -> l = [].
Proof.
  intros H. apply Permutation_nil. rewrite <- H. apply sorted_by_perm.
Qed.

Hypothesis lt_irrefl : forall x, lt x x = false.
Hypothesis lt_trans : forall x y z, lt x y = true -> lt y z = true -> lt x z = true.

Lemma lt_asym (x y : A) : lt x y = true -> lt y x = false.
Proof.
  intros H. destruct (lt y x) eqn:E; [|reflexivity].
  rewrite <- (lt_irrefl x). symmetry. now apply lt_trans with y.
Qed.

Lemma insert_by_head_least (x : A) (l : list A) :
  head_least lt l -> head_least lt (insert_by lt x l).
Proof.
  destruct l as [|h l]; simpl.
  - intros _ y [->|[]]. apply lt_irrefl.
  - intros Hh. destruct (lt x h) eqn:E.
    + intros y [->|Hy]; [apply lt_irrefl|].
      destruct (lt y x) eqn:F; [|reflexivity].
      rewrite <- (Hh y Hy). symmetry. now apply lt_trans with x.
    + intros y Hy. change (In y (h :: insert_by lt x l)) in Hy.
      assert (Hy' : In y (x :: h :: l)).
      { destruct Hy as [->|Hy]; [right; now left|].
        apply (Permutation_in _ (insert_by_perm x l)) in Hy.
        destruct Hy as [->|Hy]; [now left|right; now right]. }
      destruct Hy' as [->|Hy']; [exact E|now apply Hh].
Qed.

Lemma sorted_by_head_least (l : list A) : head_least lt (sorted_by lt l).
Proof.
  unfold sorted_by.
  assert (G : forall acc, head_least lt acc ->
                head_least lt (fold_left (fun acc x => insert_by lt x acc) l acc)).
  { induction l as [|x l IH]; intros acc Hacc; simpl; [assumption|].
    apply IH. now apply insert_by_head_least. }
  apply G. exact I.
Qed.

(** Each element is not above the next one. *)
Lemma insert_by_Sorted (x : A) (l : list A) :
  Sorted (fun a b => lt b a = false) l ->
  Sorted (fun a b => lt b a = false) (insert_by lt x l).
Proof.
  induction l as [|y l IH]; simpl; intros Hs.
  - repeat constructor.
  - destruct (lt x y) eqn:E.
    + constructor; [assumption|]. constructor. now apply lt_asym.
    + inversion Hs as [|? ? Hs' Hhd]; subst. constructor; [now apply IH|].
      destruct l as [|z l]; simpl.
      * now constructor.
      * destruct (lt x z); constructor; [assumption|].
        now inversion Hhd.
Qed.

Lemma sorted_by_Sorted (l : list A) :
  Sorted (fun a b => lt b a = false) (sorted_by lt l).
Proof.
  unfold sorted_by.
  assert (G : forall acc, Sorted (fun a b => lt b a = false) acc ->
                Sorted (fun a b => lt b a = false)
                       (fold_left (fun acc x => insert_by lt x acc) l acc)).
  { induction l as [|x l IH]; intros acc Hacc; simpl; [assumption|].
    apply IH. now apply insert_by_Sorted. }
  apply G. constructor.
Qed.

End Sorting.

Lemma string_ltb_irrefl (s : string) : String.ltb s s = false.
Proof.
  unfold String.ltb.
  replace (String.compare s s) with Eq; [reflexivity|].
  symmetry. induction s as [|c s IH]; simpl; [reflexivity|].
  unfold Ascii.compare. now rewrite N.compare_refl.
Qed.

Lemma string_compare_Lt_trans (a b c : string) :
  String.compare a b = Lt -> String.compare b c = Lt -> String.compare a c = Lt.
Proof.
  revert b c. induction a as [|x a IH]; intros [|y b] [|z c]; simpl; try congruence.
  unfold Ascii.compare.
  destruct (N.compare_spec (N_of_ascii x) (N_of_ascii y)) as [E1|E1|E1]; try discriminate;
  destruct (N.compare_spec (N_of_ascii y) (N_of_ascii z)) as [E2|E2|E2]; try discriminate;
  intros H1 H2.
  - rewrite E1, E2, N.compare_refl. eauto.
  - rewrite E1. now apply N.compare_lt_iff in E2 as ->.
  - rewrite <- E2. now apply N.compare_lt_iff in E1 as ->.
  - assert (E : (N_of_ascii x < N_of_ascii z)%N) by lia.
    now apply N.compare_lt_iff in E as ->.
Qed.

Lemma string_ltb_trans (a b c : string) :
  String.ltb a b = true -> String.ltb b c = true -> String.ltb a c = true.
Proof.
  unfold String.ltb.
  destruct (String.compare a b) eqn:E1; try discriminate.
  destruct (String.compare b c) eqn:E2; try discriminate.
  now rewrite (string_compare_Lt_trans _ _ _ E1 E2).
Qed.

(** ** [plan_assignments]: one order *)

Section PlanStep.
Context {FO : FloatOps}.
Implicit Types (st : plan_state) (cs : list value) (usage : list (string * pyfloat)).

Lemma bind_ret {A} (r : result A) : (x <- r ;; Ok x) = r.
Proof. now destruct r. Qed.

Lemma reject_eq st (o : value) (reason : string) :
  reject st o reason = (k <- as_key o ;; Ok (rejected st o k reason)).
Proof. reflexivity. Qed.

Lemma usage_of_Ok usage (c : value) (u : pyfloat) :
  usage_of usage c = Ok u <->
  exists cid, subscript c "courierid" = Ok (VStr cid) /\ alist_get cid usage = Some u.
Proof.
  unfold usage_of. split.
  - intros H. bind_inv H. bind_inv H. apply as_key_Ok in E0. subst.
    exists a0. split; [assumption|]. destruct (alist_get a0 usage); congruence.
  - intros (cid & -> & H). simpl. now rewrite H.
Qed.

Lemma assign_Ok st (o chosen : value) (w : pyfloat) (cid : string) (u : pyfloat) :
  subscript chosen "courierid" = Ok (VStr cid) ->
  alist_get cid (capacity_usage st) = Some u ->
  assign st o chosen w = Ok (assigned st o (VStr cid) cid (f_add u w)).
Proof.
  intros H1 H2. unfold assign, usage_of. rewrite H1. simpl. now rewrite H2.
Qed.

(** With another payment than "cod" the second filter keeps everyone, and
    does not look at the couriers. *)
Lemma cod_ok_of_other (in_zone : list value) (payment : string) :
  String.eqb payment "cod" = false -> cod_ok_of in_zone payment = Ok in_zone.
Proof.
  intros H. unfold cod_ok_of. apply filterM_all. intros c _. now rewrite H.
Qed.

(** What the loop body does once the order is read: the chain stops at the
    first filter that leaves nobody. *)
Lemma first_empty_step cs st (o : value) (v : order_view) (s : stage) :
  read_order o = Ok v ->
  first_empty cs (capacity_usage st) v s ->
  plan_step cs st o = (reason <- reason_of s o ;; reject st (oid v) reason).
Proof.
  intros Hv Hs. unfold plan_step. rewrite Hv. cbn [bind].
  destruct Hs as [Hz | z Hz Nz Hc | z y Hz Nz Hc Ny He | z y x Hz Nz Hc Ny He Nx Hcap].
  - rewrite Hz. reflexivity.
  - rewrite Hz. cbn [bind]. destruct z as [|c z]; [congruence|].
    rewrite Hc. cbn [bind].
    destruct (String.eqb (payment v) "cod") eqn:P; [reflexivity|].
    rewrite cod_ok_of_other in Hc by assumption. discriminate.
  - rewrite Hz. cbn [bind]. destruct z as [|c z]; [congruence|].
    rewrite Hc. cbn [bind]. destruct y as [|c' y]; [congruence|].
    rewrite He. cbn [bind reason_of].
    destruct (String.eqb (payment v) "cod");
      destruct (get o "producttype" (VStr "")) as [pt| |]; try reflexivity;
      cbn [bind]; destruct (py_str pt); reflexivity.
  - rewrite Hz. cbn [bind]. destruct z as [|c z]; [congruence|].
    rewrite Hc. cbn [bind]. destruct y as [|c' y]; [congruence|].
    rewrite He. cbn [bind]. destruct x as [|c'' x]; [congruence|].
    rewrite Hcap. cbn [bind reason_of].
    destruct (String.eqb (payment v) "cod"); reflexivity.
Qed.

(** With a survivor of the four filters the loop body chooses and assigns. *)
Lemma survivors_step cs st (o : value) (v : order_view) (survivors : list value) :
  read_order o = Ok v ->
  survivors_of cs (capacity_usage st) v = Ok survivors ->
  survivors <> [] ->
  plan_step cs st o =
  (chosen <- choose (capacity_usage st) survivors ;; assign st (oid v) chosen (weight v)).
Proof.
  intros Hv Hs Hne. unfold survivors_of in Hs.
  bind_inv Hs. bind_inv Hs. bind_inv Hs.
  unfold plan_step. rewrite Hv. cbn [bind]. rewrite E. cbn [bind].
  destruct a as [|c z].
  { unfold cod_ok_of in E0. simpl in E0. injection E0 as <-.
    unfold excl_ok_of in E1. simpl in E1. injection E1 as <-.
    unfold cap_ok_of in Hs. simpl in Hs. congruence. }
  rewrite E0. cbn [bind].
  destruct a0 as [|c' y].
  { unfold excl_ok_of in E1. simpl in E1. injection E1 as <-.
    unfold cap_ok_of in Hs. simpl in Hs. congruence. }
  rewrite E1. cbn [bind].
  destruct a1 as [|c'' x].
  { unfold cap_ok_of in Hs. simpl in Hs. congruence. }
  rewrite Hs. cbn [bind].
  destruct survivors as [|c3 survivors]; [congruence|].
  destruct (String.eqb (payment v) "cod"); reflexivity.
Qed.

(** An order that is read either stops the chain at a first empty filter
    or has survivors. *)
Lemma chain_cases cs usage (v : order_view) (survivors : list value) :
  survivors_of cs usage v = Ok survivors ->
  (survivors = [] /\ exists s, first_empty cs usage v s) \/ survivors <> [].
Proof.
  intros Hs. destruct survivors as [|c r]; [left; split; [reflexivity|]|right; congruence].
  unfold survivors_of in Hs. bind_inv Hs. bind_inv Hs. bind_inv Hs.
  destruct a as [|c z]; [exists Zone; now constructor|].
  destruct a0 as [|c' y]; [exists Cod; econstructor; eauto; congruence|].
  destruct a1 as [|c'' x]; [exists Exclusion; econstructor; eauto; congruence|].
  exists Capacity. econstructor; eauto; congruence.
Qed.

(** The two ways the loop body returns. *)
Lemma plan_step_Ok cs st (o : value) (st' : plan_state) :
  plan_step cs st o = Ok st' ->
  exists v, read_order o = Ok v /\
    ((exists s reason k,
         first_empty cs (capacity_usage st) v s /\
         reason_of s o = Ok reason /\
         as_key (oid v) = Ok k /\
         st' = rejected st (oid v) k reason)
     \/
     (exists survivors chosen,
         survivors_of cs (capacity_usage st) v = Ok survivors /\
         survivors <> [] /\
         choose (capacity_usage st) survivors = Ok chosen /\
         assign st (oid v) chosen (weight v) = Ok st')).
Proof.
  intros H. destruct (read_order o) as [v| |] eqn:Hv;
    try (unfold plan_step in H; rewrite Hv in H; discriminate).
  exists v. split; [reflexivity|].
  destruct (survivors_of cs (capacity_usage st) v) as [survivors| |] eqn:Hs.
  - destruct (chain_cases _ _ _ _ Hs) as [[-> [s Hfe]]|Hne].
    + left. rewrite (first_empty_step _ _ _ _ _ Hv Hfe) in H.
      bind_inv H. rewrite reject_eq in H. bind_inv H. injection H as <-.
      exists s, a, a0. auto.
    + right. rewrite (survivors_step _ _ _ _ _ Hv Hs Hne) in H.
      bind_inv H. exists survivors, a. auto.
  - exfalso. unfold plan_step in H. rewrite Hv in H. cbn [bind] in H.
    unfold survivors_of in Hs.
    destruct (in_zone_of cs (city v)) as [[|c z]| |]; try discriminate.
    cbn [bind] in *.
    destruct (cod_ok_of (c :: z) (payment v)) as [y| |]; try discriminate.
    cbn [bind] in *.
    destruct (String.eqb (payment v) "cod"), y as [|c' y]; try discriminate;
      cbn [bind] in *;
      destruct (excl_ok_of _ (product v)) as [[|c'' x]| |]; try discriminate;
      cbn [bind] in *;
      destruct (cap_ok_of (capacity_usage st) _ (weight v)); discriminate.
  - exfalso. unfold plan_step in H. rewrite Hv in H. cbn [bind] in H.
    unfold survivors_of in Hs.
    destruct (in_zone_of cs (city v)) as [[|c z]| |]; try discriminate.
    cbn [bind] in *.
    destruct (cod_ok_of (c :: z) (payment v)) as [y| |]; try discriminate.
    cbn [bind] in *.
    destruct (String.eqb (payment v) "cod"), y as [|c' y]; try discriminate;
      cbn [bind] in *;
      destruct (excl_ok_of _ (product v)) as [[|c'' x]| |]; try discriminate;
      cbn [bind] in *;
      destruct (cap_ok_of (capacity_usage st) _ (weight v)); discriminate.
Qed.

End PlanStep.

(** ** [plan_assignments]: the choice among the survivors *)

Section Choice.
Context {FO : FloatOps}.
Implicit Types (usage : list (string * pyfloat)).

Lemma keyed_In {A K} (f : A -> result K) (xs : list A) (keyed : list (K * A)) :
  mapM (fun c => k <- f c ;; Ok (k, c)) xs = Ok keyed ->
  forall k c, In (k, c) keyed <-> In c xs /\ f c = Ok k.
Proof.
  revert keyed. induction xs as [|x xs IH]; intros keyed H k c; simpl in H.
  - injection H as <-. simpl. tauto.
  - bind_inv H. bind_inv E. injection E as <-. bind_inv H. injection H as <-.
    simpl. rewrite (IH _ E k c). split.
    + intros [[= <- <-]|[? ?]]; auto.
    + intros [[->|?] ?]; [left; congruence|right; auto].
Qed.

Lemma keyed_total {A K} (f : A -> result K) (xs : list A) :
  (forall c, In c xs -> exists k, f c = Ok k) ->
  exists keyed, mapM (fun c => k <- f c ;; Ok (k, c)) xs = Ok keyed.
Proof.
  intros H. apply mapM_total. intros c Hc. destruct (H c Hc) as [k ->]. simpl. eauto.
Qed.

(** The courier chosen is one of the candidates. *)
Lemma choose_In usage (xs : list value) (chosen : value) :
  choose usage xs = Ok chosen ->
  In chosen xs /\ exists k, selection_key usage chosen = Ok k.
Proof.
  unfold choose, sorted_on. intros H. bind_inv H.
  destruct (sorted_by _ a) as [|[k c] rest] eqn:S; simpl in H; [discriminate|].
  injection H as <-.
  assert (Hin : In (k, c) a).
  { eapply sorted_by_In. rewrite S. now left. }
  apply (keyed_In _ _ _ E) in Hin as [? ?]. eauto.
Qed.

(** [choose] returns as soon as every candidate has a key and there is a
    candidate. *)
Lemma choose_total usage (xs : list value) :
  xs <> [] ->
  (forall c, In c xs -> exists k, selection_key usage c = Ok k) ->
  exists chosen, choose usage xs = Ok chosen.
Proof.
  intros Hne Hk. destruct (keyed_total _ xs Hk) as [keyed E].
  unfold choose. rewrite E. cbn [bind]. unfold sorted_on.
  destruct (sorted_by _ keyed) as [|[k c] rest] eqn:S; simpl; [|eauto].
  apply sorted_by_nil in S. subst keyed.
  destruct xs as [|x xs]; [congruence|]. simpl in E.
  destruct (selection_key usage x); simpl in E; try discriminate.
  destruct (mapM _ xs); discriminate.
Qed.

Context {FL : FloatOrder FO}.

Lemma lt_key_irrefl (a : pyfloat * Z) : lt_key a a = false.
Proof.
  unfold lt_key. destruct (f_eqb (fst a) (fst a)).
  - apply Z.ltb_irrefl.
  - apply f_ltb_irrefl.
Qed.

Lemma lt_key_trans (a b c : pyfloat * Z) :
  lt_key a b = true -> lt_key b c = true -> lt_key a c = true.
Proof.
  unfold lt_key. destruct a as [ua pa], b as [ub pb], c as [uc pc]; simpl.
  destruct (f_eqb ua ub) eqn:Eab, (f_eqb ub uc) eqn:Ebc; intros H1 H2.
  - rewrite (f_eqb_trans _ _ _ Eab Ebc). lia.
  - rewrite (f_ltb_not_eqb _ _ (f_ltb_eqb_l _ _ _ Eab H2)).
    now apply f_ltb_eqb_l with ub.
  - rewrite (f_ltb_not_eqb _ _ (f_ltb_eqb_r _ _ _ H1 Ebc)).
    now apply f_ltb_eqb_r with ub.
  - rewrite (f_ltb_not_eqb _ _ (f_ltb_trans _ _ _ H1 H2)).
    now apply f_ltb_trans with ub.
Qed.

(** A key that is not below another: its usage is not smaller, and with
    equal usage its priority number is not smaller. *)
Lemma lt_key_false (u' u : pyfloat) (p' p : Z) :
  lt_key (u', p') (u, p) = false ->
  f_ltb u' u = false /\ (f_eqb u' u = true -> p <= p').
Proof.
  unfold lt_key; simpl. destruct (f_eqb u' u) eqn:E; intros H.
  - split; [|intros _; lia].
    destruct (f_ltb u' u) eqn:L; [|reflexivity].
    apply f_ltb_not_eqb in L. congruence.
  - split; [assumption|discriminate].
Qed.

(** No candidate has a key below the key of the chosen courier. *)
Lemma choose_least usage (xs : list value) (chosen : value) (k : pyfloat * Z) :
  choose usage xs = Ok chosen ->
  selection_key usage chosen = Ok k ->
  forall c k', In c xs -> selection_key usage c = Ok k' -> lt_key k' k = false.
Proof.
  unfold choose, sorted_on. intros H Hk c k' Hc Hk'. bind_inv H.
  pose proof (sorted_by_head_least
                (fun x y : (pyfloat * Z) * value => lt_key (fst x) (fst y))
                (fun x => lt_key_irrefl (fst x))
                (fun x y z => lt_key_trans (fst x) (fst y) (fst z)) a) as Hleast.
  destruct (sorted_by _ a) as [|[k0 c0] rest] eqn:S; simpl in H; [discriminate|].
  injection H as <-.
  assert (Hin0 : In (k0, c0) a).
  { eapply sorted_by_In. rewrite S. now left. }
  apply (keyed_In _ _ _ E) in Hin0 as [_ Hk0]. rewrite Hk in Hk0. injection Hk0 as <-.
  assert (Hin : In (k', c) a) by (apply (keyed_In _ _ _ E); auto).
  unfold head_least in Hleast. apply (Hleast (k', c)).
  rewrite <- S. now apply sorted_by_In.
Qed.

End Choice.

(** ** [plan_assignments]: the run *)

Section PlanRun.
Context {FO : FloatOps}.
Implicit Types (st : plan_state) (cs couriers orders : list value).

(** The state in which an order is processed is the result of planning the
    orders before it. *)
Lemma plan_assignments_app (pre post couriers : list value) :
  plan_assignments (pre ++ post) couriers =
  (st <- plan_assignments pre couriers ;;
   cs <- sort_by_priority (map normalize_keys couriers) ;;
   plan_loop cs (map normalize_keys post) st).
Proof.
  unfold plan_assignments, plan_loop.
  destruct (initial_usage (map normalize_keys couriers)) as [usage| |]; try reflexivity.
  cbn [bind].
  destruct (sort_by_priority (map normalize_keys couriers)) as [cs| |]; try reflexivity.
  cbn [bind]. rewrite map_app, foldM_app.
  destruct (foldM (plan_step cs) (map normalize_keys pre) _); reflexivity.
Qed.

Lemma plan_assignments_snoc (pre couriers : list value) (o : value) st cs :
  plan_assignments pre couriers = Ok st ->
  sort_by_priority (map normalize_keys couriers) = Ok cs ->
  plan_assignments (pre ++ [o]) couriers = plan_step cs st (normalize_keys o).
Proof.
  intros H1 H2. rewrite plan_assignments_app, H1. cbn [bind]. rewrite H2. cbn [bind].
  unfold plan_loop. simpl. apply bind_ret.
Qed.

Lemma plan_assignments_cons (pre post couriers : list value) (o : value) st cs :
  plan_assignments pre couriers = Ok st ->
  sort_by_priority (map normalize_keys couriers) = Ok cs ->
  plan_assignments (pre ++ o :: post) couriers =
  (st' <- plan_step cs st (normalize_keys o) ;; plan_loop cs (map normalize_keys post) st').
Proof.
  intros H1 H2. rewrite plan_assignments_app, H1. cbn [bind]. rewrite H2. reflexivity.
Qed.

(** The sorted roster has the couriers of the roster, each with an integer
    sort key. *)
Lemma sort_by_priority_Ok couriers cs :
  sort_by_priority couriers = Ok cs ->
  forall c, In c cs -> In c couriers /\ exists p, priority_key c = Ok p.
Proof.
  unfold sort_by_priority, sorted_on. intros H c Hc. bind_inv H. injection H as <-.
  apply in_map_iff in Hc as ([p c'] & <- & Hin). simpl.
  apply sorted_by_In in Hin. apply (keyed_In _ _ _ E) in Hin as [? ?]. eauto.
Qed.

(** Usage starts at zero, with an entry for every courier. *)
Lemma initial_usage_Ok couriers (usage : list (string * pyfloat)) :
  initial_usage couriers = Ok usage ->
  (forall k u, alist_get k usage = Some u -> u = f_zero) /\
  (forall c, In c couriers -> usage_of usage c = Ok f_zero).
Proof.
  unfold initial_usage.
  assert (G : forall acc : list (string * pyfloat),
             (forall k u, alist_get k acc = Some u -> u = f_zero) ->
             foldM (fun d c =>
                      cid_v <- subscript c "courierid" ;;
                      cid <- as_key cid_v ;; Ok (alist_set cid f_zero d))
                   couriers acc = Ok usage ->
             (forall k u, alist_get k usage = Some u -> u = f_zero) /\
             (forall k, alist_get k acc <> None -> alist_get k usage <> None) /\
             (forall c, In c couriers -> usage_of usage c = Ok f_zero)).
  { induction couriers as [|c couriers IH]; intros acc Hz H; simpl in H.
    - injection H as <-. repeat split; auto. intros c [].
    - bind_inv H. bind_inv E. bind_inv E. injection E as <-.
      apply as_key_Ok in E1. subst a0.
      destruct (IH (alist_set a1 f_zero acc)) as (Z1 & Z2 & Z3); [|exact H|].
      { intros k u. rewrite alist_get_set.
        destruct (String.eqb a1 k); intros G; [congruence|eauto]. }
      split; [assumption|]. split.
      + intros k Hk. apply Z2. rewrite alist_get_set.
        destruct (String.eqb a1 k); congruence.
      + intros c' [<-|Hc']; [|auto].
        apply usage_of_Ok. exists a1. split; [assumption|].
        destruct (alist_get a1 usage) as [u|] eqn:G.
        * f_equal. eauto.
        * exfalso. apply (Z2 a1); [|assumption].
          rewrite alist_get_set_eq. discriminate. }
  intros H. destruct (G [] (fun k u (E : alist_get k [] = Some u) =>
                           ltac:(discriminate)) H) as (Z1 & _ & Z3).
  auto.
Qed.

Lemma plan_assignments_nil couriers st :
  plan_assignments [] couriers = Ok st ->
  initial_usage (map normalize_keys couriers) = Ok (capacity_usage st) /\
  assignments st = [] /\ unassigned st = [] /\ unassigned_reasons st = [].
Proof.
  unfold plan_assignments, plan_loop. intros H. bind_inv H. bind_inv H.
  simpl in H. injection H as <-. auto.
Qed.

(** Who survives the four filters: a courier of the sorted roster whose
    usage with the order's weight is within its capacity. *)
Lemma survivors_In cs (usage : list (string * pyfloat)) (v : order_view)
  (survivors : list value) (c : value) :
  survivors_of cs usage v = Ok survivors -> In c survivors ->
  In c cs /\
  exists u cap, usage_of usage c = Ok u /\ daily_capacity c = Ok cap /\
                f_leb (f_add u (weight v)) cap = true.
Proof.
  unfold survivors_of. intros H Hc. bind_inv H. bind_inv H. bind_inv H.
  destruct (filterM_In _ _ _ _ H Hc) as [Hx Hp].
  destruct (filterM_In _ _ _ _ E1 Hx) as [Hy _].
  destruct (filterM_In _ _ _ _ E0 Hy) as [Hz _].
  destruct (filterM_In _ _ _ _ E Hz) as [Hcs _].
  split; [assumption|].
  bind_inv Hp. bind_inv Hp. injection Hp as Hp. eauto.
Qed.

Lemma selection_key_Ok (usage : list (string * pyfloat)) (c : value) (u : pyfloat) (p : Z) :
  selection_key usage c = Ok (u, p) <-> usage_of usage c = Ok u /\ priority_key c = Ok p.
Proof.
  unfold selection_key. split.
  - intros H. bind_inv H. bind_inv H. injection H as <- <-. auto.
  - intros [-> ->]. reflexivity.
Qed.

End PlanRun.

(** ** [plan_assignments]: rejection, choice, capacity *)

Section PlanClaims.
Context {FO : FloatOps}.
Implicit Types (st : plan_state) (cs couriers orders : list value).

Lemma assigned_not_same st (o cid_v : value) (cid : string) (u : pyfloat) :
  assignments (assigned st o cid_v cid u) <> assignments st.
Proof.
  simpl. intros H. apply (f_equal (@List.length _)) in H.
  rewrite length_app in H. simpl in H. lia.
Qed.

Lemma read_order_oid (o : value) (v : order_view) :
  read_order o = Ok v -> subscript o "orderid" = Ok (oid v).
Proof.
  unfold read_order. intros H.
  apply bind_Ok in H as (i & Hi & H). rewrite Hi. f_equal.
  repeat (let x := fresh in let E := fresh in apply bind_Ok in H as (x & E & H)).
  now injection H as <-.
Qed.

(** C2, amended. After [plan_assignments] returns, the final usage recorded
    under the identifier of a courier is at most its declared daily
    capacity, for every courier of the roster whose declared capacity is
    not negative and whose identifier is shared only with couriers of the
    same declared capacity. *)
Theorem capacity_respected (orders couriers : list value) (final : plan_state)
  (c : value) (cap : pyfloat) :
  plan_assignments orders couriers = Ok final ->
  In c (map normalize_keys couriers) ->
  daily_capacity c = Ok cap ->
  f_leb f_zero cap = true ->
  (forall c', In c' (map normalize_keys couriers) ->
              subscript c' "courierid" = subscript c "courierid" ->
              daily_capacity c' = Ok cap) ->
  exists u, usage_of (capacity_usage final) c = Ok u /\ f_leb u cap = true.
Proof.
  intros H Hc Hcap Hpos Hshare.
  unfold plan_assignments, plan_loop in H. bind_inv H. bind_inv H.
  destruct (initial_usage_Ok _ _ E) as [_ Hinit].
  pose proof (sort_by_priority_Ok _ _ E0) as Hsorted.
  revert H.
  apply (foldM_invariant (plan_step a0)
           (fun st => exists u, usage_of (capacity_usage st) c = Ok u /\ f_leb u cap = true)).
  - intros st o st' _ (u & Hu & Hle) Hstep.
    destruct (plan_step_Ok _ _ _ _ Hstep) as (v & _ & [Hrej|Hass]).
    + destruct Hrej as (s & reason & k & _ & _ & _ & ->). simpl. eauto.
    + destruct Hass as (survivors & chosen & Hs & _ & Hch & Ha).
      destruct (choose_In _ _ _ Hch) as [Hin _].
      destruct (survivors_In _ _ _ _ _ Hs Hin) as (Hcs & u0 & cap0 & Hu0 & Hcap0 & Hle0).
      apply usage_of_Ok in Hu0 as (cid0 & Hid0 & Hget0).
      rewrite (assign_Ok _ _ _ _ _ _ Hid0 Hget0) in Ha. injection Ha as <-. simpl.
      apply usage_of_Ok in Hu as (cid & Hid & Hget).
      destruct (String.eqb_spec cid0 cid) as [->|Hne].
      * exists (f_add u0 (weight v)). split.
        -- apply usage_of_Ok. exists cid. split; [assumption|apply alist_get_set_eq].
        -- assert (Hsame : daily_capacity chosen = Ok cap).
           { apply Hshare; [apply Hsorted; assumption|congruence]. }
           rewrite Hcap0 in Hsame. injection Hsame as <-. assumption.
      * exists u. split; [|assumption].
        apply usage_of_Ok. exists cid. split; [assumption|].
        now rewrite alist_get_set_ne.
  - simpl. exists f_zero. split; [now apply Hinit|assumption].
Qed.

Context {FL : FloatOrder FO}.

(** C4, amended. An order with at least one courier surviving the four
    filters is assigned to a survivor of smallest current usage; among the
    survivors of that usage, to one of smallest priority number, a courier
    without a declared priority counting as priority 10^9 (so it comes after
    the couriers whose declared priority is below 10^9).  The order's weight
    is added to the usage of the chosen courier before the next order is
    processed: the rest of the run starts from the updated state. *)
Theorem least_loaded_choice (couriers pre : list value) (o : value) st cs
  (v : order_view) (survivors : list value) :
  plan_assignments pre couriers = Ok st ->
  sort_by_priority (map normalize_keys couriers) = Ok cs ->
  read_order (normalize_keys o) = Ok v ->
  survivors_of cs (capacity_usage st) v = Ok survivors ->
  survivors <> [] ->
  exists chosen cid u p,
    In chosen survivors /\
    subscript chosen "courierid" = Ok (VStr cid) /\
    selection_key (capacity_usage st) chosen = Ok (u, p) /\
    (forall c u' p',
        In c survivors -> selection_key (capacity_usage st) c = Ok (u', p') ->
        f_ltb u' u = false /\ (f_eqb u' u = true -> p <= p')) /\
    (forall c d, In c survivors -> c = VDict d -> alist_get "priority" d = None ->
                 priority_key c = Ok (10 ^ 9)) /\
    forall post,
      plan_assignments (pre ++ o :: post) couriers =
      plan_loop cs (map normalize_keys post)
                (assigned st (oid v) (VStr cid) cid (f_add u (weight v))).
Proof.
  intros Hst Hcs Hv Hs Hne.
  destruct (choose_total (capacity_usage st) survivors Hne) as [chosen Hch].
  { intros c Hc. destruct (survivors_In _ _ _ _ _ Hs Hc) as (Hin & u & cap & Hu & _).
    destruct (sort_by_priority_Ok _ _ Hcs c Hin) as [_ [p Hp]].
    exists (u, p). now apply selection_key_Ok. }
  destruct (choose_In _ _ _ Hch) as [Hin [[u p] Hk]].
  pose proof Hk as Hk'. apply selection_key_Ok in Hk' as [Hu Hp].
  apply usage_of_Ok in Hu as (cid & Hid & Hget).
  exists chosen, cid, u, p. repeat split; auto.
  - eapply lt_key_false. eapply (choose_least _ _ _ _ Hch Hk); eauto.
  - eapply lt_key_false. eapply (choose_least _ _ _ _ Hch Hk); eauto.
  - intros c d _ -> Hd. unfold priority_key. simpl. unfold dict_get. now rewrite Hd.
  - intros post. rewrite (plan_assignments_cons _ _ _ _ _ _ Hst Hcs).
    rewrite (survivors_step _ _ _ _ _ Hv Hs Hne), Hch. cbn [bind].
    now rewrite (assign_Ok _ _ _ _ _ _ Hid Hget).
Qed.

Context {NA : NonNegativeAdd FO}.

(** C7, amended. Within a planning run the usage of every courier starts
    at zero, and from one processing step to the next it does not decrease
    when the weight of the order processed is not negative: after every
    prefix [pre] of the orders and the next order [o], no entry of the
    mapping is below what it was.  The two laws of the arithmetic hold in
    double precision and in the rationals. *)
Theorem usage_never_decreases (couriers : list value) :
  (forall st0, plan_assignments [] couriers = Ok st0 ->
     (forall k u, alist_get k (capacity_usage st0) = Some u -> u = f_zero) /\
     (forall c, In c (map normalize_keys couriers) ->
                usage_of (capacity_usage st0) c = Ok f_zero)) /\
  (forall pre o st st' v,
     plan_assignments pre couriers = Ok st ->
     plan_assignments (pre ++ [o]) couriers = Ok st' ->
     read_order (normalize_keys o) = Ok v ->
     f_leb f_zero (weight v) = true ->
     forall k u, alist_get k (capacity_usage st) = Some u ->
                 exists u', alist_get k (capacity_usage st') = Some u' /\
                            f_ltb u' u = false).
Proof.
  split.
  - intros st0 H. apply plan_assignments_nil in H as [H _].
    now apply initial_usage_Ok.
  - intros pre o st st' v Hst Hst' Hv Hw k u Hk.
    assert (Hcs : exists cs, sort_by_priority (map normalize_keys couriers) = Ok cs).
    { unfold plan_assignments in Hst. bind_inv Hst. bind_inv Hst. eauto. }
    destruct Hcs as [cs Hcs].
    rewrite (plan_assignments_snoc _ _ _ _ _ Hst Hcs) in Hst'.
    destruct (plan_step_Ok _ _ _ _ Hst') as (v' & Hv' & [Hrej|Hass]).
    + destruct Hrej as (s & reason & k0 & _ & _ & _ & ->). simpl.
      exists u. split; [assumption|apply f_ltb_irrefl].
    + rewrite Hv in Hv'. injection Hv' as <-.
      destruct Hass as (survivors & chosen & Hs & _ & Hch & Ha).
      destruct (choose_In _ _ _ Hch) as [Hin _].
      destruct (survivors_In _ _ _ _ _ Hs Hin) as (_ & u0 & _ & Hu0 & _).
      apply usage_of_Ok in Hu0 as (cid0 & Hid0 & Hget0).
      rewrite (assign_Ok _ _ _ _ _ _ Hid0 Hget0) in Ha. injection Ha as <-. simpl.
      rewrite alist_get_set. destruct (String.eqb_spec cid0 k) as [->|Hne].
      * exists (f_add u0 (weight v)). split; [reflexivity|].
        rewrite Hk in Hget0. injection Hget0 as <-. now apply f_add_nonneg.
      * exists u. split; [assumption|apply f_ltb_irrefl].
Qed.

End PlanClaims.

(** ** [plan_assignments]: the reason of a rejection *)

(** What a list comprehension keeps, when its test decides a property. *)
Lemma filterM_iff {A} (p : A -> result bool) (P : A -> Prop) (xs : list A) :
  forall r,
    filterM p xs = Ok r ->
    (forall x b, In x xs -> p x = Ok b -> (b = true <-> P x)) ->
    forall x, In x r <-> In x xs /\ P x.
Proof.
  induction xs as [|y xs IH]; intros r H Hp x; simpl in H.
  - injection H as <-. simpl. tauto.
  - apply bind_Ok in H as (b & Hb & H). apply bind_Ok in H as (r' & Hr & H).
    injection H as <-.
    specialize (IH r' Hr (fun x b Hin => Hp x b (or_intror Hin)) x).
    pose proof (Hp y b (or_introl eq_refl) Hb) as Hy.
    destruct b; simpl; rewrite IH.
    + split.
      * intros [<-|[? ?]]; [split; [now left|now apply Hy]|split; [now right|assumption]].
      * intros [[<-|?] ?]; [now left|right; now split].
    + split.
      * intros [? ?]. split; [now right|assumption].
      * intros [[<-|?] HP]; [|now split].
        apply Hy in HP. discriminate.
Qed.

Section PlanReasons.
Context {FO : FloatOps}.
Implicit Types (st : plan_state) (cs couriers orders : list value).
Implicit Types (usage : list (string * pyfloat)) (c : value).

Lemma value_is_text (e : value) (s : string) :
  value_eq_str e s = true <-> e = VStr s.
Proof.
  destruct e; simpl; split; try discriminate.
  - now intros ->%String.eqb_eq.
  - intros [= ->]. apply String.eqb_refl.
Qed.

(** The test of the first filter decides zone coverage. *)
Lemma zone_test c (cty : string) (b : bool) :
  zones_declared c ->
  (zones <- get c "zonescovered" (VList []) ;; py_in (VStr cty) zones) = Ok b ->
  (b = true <-> covers c cty).
Proof.
  intros Hz H. destruct c as [ | | | | | |d]; try discriminate.
  unfold covers. cbn [get bind field_of] in *. unfold dict_get in H.
  destruct Hz as [Hz|[zones Hz]]; cbn [field_of] in Hz; rewrite Hz in H |- *.
  - injection H as <-. split; [discriminate|]. intros (zones & [=] & _).
  - cbn [py_in] in H. injection H as <-. rewrite existsb_exists. split.
    + intros (e & Hin & ->%value_is_text). eauto.
    + intros (zones' & [= <-] & Hin). exists (VStr cty). split; [assumption|].
      now apply value_is_text.
Qed.

(** The test of the second filter decides the acceptance of cash on
    delivery. *)
Lemma cod_test c (p : string) (b : bool) :
  cod_declared c ->
  (if negb (String.eqb (lower p) "cod") then Ok true
   else (a <- get c "acceptscod" (VBool false) ;; Ok (truthy a))) = Ok b ->
  (b = true <-> accepts c p).
Proof.
  intros Hc H. unfold accepts.
  destruct (String.eqb_spec (lower p) "cod") as [E|E]; simpl in H.
  - destruct c as [ | | | | | |d]; try discriminate.
    cbn [get bind field_of] in *. unfold dict_get in H.
    destruct Hc as [Hc|[a Hc]]; cbn [field_of] in Hc; rewrite Hc in H |- *;
      injection H as <-.
    + split; [discriminate|]. intros G. now specialize (G E).
    + simpl. split; [now intros ->|]. intros G. specialize (G E). congruence.
  - injection H as <-. split; [|reflexivity]. intros _ G. contradiction.
Qed.

Lemma mapM_texts (names : list string) :
  mapM (fun e => s <- py_str e ;; Ok (lower s)) (map VStr names) = Ok (map lower names).
Proof.
  induction names as [|n names IH]; simpl; [reflexivity|]. now rewrite IH.
Qed.

(** The test of the third filter decides the exclusion of the product
    type. *)
Lemma exclusion_test c (t : string) (b : bool) :
  exclusions_declared c ->
  (names <- excluded_names c ;; Ok (negb (existsb (String.eqb (lower t)) names))) = Ok b ->
  (b = true <-> allows c t).
Proof.
  intros He H. unfold allows, excluded_names in *.
  destruct c as [ | | | | | |d]; try discriminate.
  cbn [get bind field_of] in *. unfold dict_get in H.
  destruct He as [He|[names He]]; cbn [field_of] in He; rewrite He in H |- *.
  - simpl in H. injection H as <-. split; [|reflexivity]. intros _ names e [=].
  - cbn [py_iter bind] in H. rewrite mapM_texts in H. cbn [bind] in H.
    injection H as <-. rewrite negb_true_iff, <- not_true_iff_false, existsb_exists.
    split.
    + intros N names' e [= <-] Hin E. apply N. exists (lower e). split.
      * apply in_map. apply in_map_iff in Hin as (n & [= ->] & Hn). exact Hn.
      * rewrite E. apply String.eqb_refl.
    + intros G (x & Hin & E). apply String.eqb_eq in E. subst x.
      apply in_map_iff in Hin as (n & En & Hn).
      apply (G (map VStr names) n eq_refl); [now apply in_map|assumption].
Qed.

Lemma daily_capacity_number c (cap : pyfloat) :
  daily_capacity c = Ok cap <->
  (exists d, c = VDict d) /\ number (field_of c "dailycapacity") = Some cap.
Proof.
  unfold daily_capacity, number. destruct c as [ | | | | | |d];
    try (split; [discriminate|intros [[d' [=]] _]]).
  cbn [get bind field_of]. unfold dict_get.
  destruct (alist_get "dailycapacity" d) as [v|];
    (destruct (py_float _) as [x| |]; split;
     [intros [= ->]; eauto|intros [_ [= ->]]; reflexivity
     |discriminate|intros [_ [=]]|discriminate|intros [_ [=]]]).
Qed.

(** The test of the fourth filter decides the capacity. *)
Lemma capacity_test usage c (w : pyfloat) (b : bool) :
  (u <- usage_of usage c ;; cap <- daily_capacity c ;; Ok (f_leb (f_add u w) cap)) = Ok b ->
  (b = true <-> fits usage c w).
Proof.
  intros H. apply bind_Ok in H as (u & Hu & H). apply bind_Ok in H as (cap & Hcap & H).
  injection H as <-.
  apply usage_of_Ok in Hu as (cid & Hid & Hget).
  apply daily_capacity_number in Hcap as [[d ->] Hcap].
  assert (Hf : field_of (VDict d) "courierid" = Some (VStr cid)).
  { cbn [subscript field_of] in *. destruct (alist_get "courierid" d); congruence. }
  unfold fits. split.
  - intros Hle. exists cid, u, cap. auto.
  - intros (cid' & u' & cap' & Hf' & Hget' & Hcap' & Hle). congruence.
Qed.

(** The locals the loop body reads from an order. *)
Lemma order_reads_read (o : value) (k cty p t : string) (w : pyfloat) :
  order_reads o k cty p t w ->
  read_order (normalize_keys o)
  = Ok {| oid := VStr k; city := VStr cty; payment := lower p; product := lower t;
          weight := w |} /\
  get (normalize_keys o) "producttype" (VStr "") = Ok (VStr t).
Proof.
  intros (d & -> & Hk & Hc & Hp & Ht & Hw).
  unfold read_order, text_field, number in *.
  cbn [subscript get bind]. unfold dict_get. rewrite Hk. cbn [bind].
  destruct (alist_get "city" d) as [[]|]; try discriminate; injection Hc as <-;
    destruct (alist_get "paymenttype" d) as [[]|]; try discriminate; injection Hp as <-;
    destruct (alist_get "producttype" d) as [[]|]; try discriminate; injection Ht as <-;
    (destruct (py_float _) as [x| |]; [|discriminate|discriminate]); injection Hw as <-;
    cbn [bind]; (split; [|reflexivity]);
    unfold py_or; simpl truthy;
    repeat match goal with
           | |- context [negb (blank ?s)] => destruct s; simpl
           end; reflexivity.
Qed.

(** What the four list comprehensions keep. *)
Lemma in_zone_spec cs (cty : string) (z : list value) :
  in_zone_of cs (VStr cty) = Ok z ->
  (forall c, In c cs -> zones_declared c) ->
  forall c, In c z <-> In c cs /\ covers c cty.
Proof.
  intros H Hd. apply (filterM_iff _ _ _ _ H).
  intros c b Hin. apply zone_test. now apply Hd.
Qed.

Lemma cod_ok_spec (z : list value) (p : string) (y : list value) :
  cod_ok_of z (lower p) = Ok y ->
  (forall c, In c z -> cod_declared c) ->
  forall c, In c y <-> In c z /\ accepts c p.
Proof.
  intros H Hd. apply (filterM_iff _ _ _ _ H).
  intros c b Hin. apply cod_test. now apply Hd.
Qed.

Lemma excl_ok_spec (y : list value) (t : string) (x : list value) :
  excl_ok_of y (lower t) = Ok x ->
  (forall c, In c y -> exclusions_declared c) ->
  forall c, In c x <-> In c y /\ allows c t.
Proof.
  intros H Hd. apply (filterM_iff _ _ _ _ H).
  intros c b Hin. apply exclusion_test. now apply Hd.
Qed.

Lemma cap_ok_spec usage (x : list value) (w : pyfloat) (r : list value) :
  cap_ok_of usage x w = Ok r ->
  forall c, In c r <-> In c x /\ fits usage c w.
Proof.
  intros H. apply (filterM_iff _ _ _ _ H).
  intros c b Hin. apply capacity_test.
Qed.

Lemma nonempty_In {A} (l : list A) : l <> [] <-> exists x, In x l.
Proof.
  destruct l as [|x l]; split.
  - congruence.
  - intros [x []].
  - intros _. exists x. now left.
  - discriminate.
Qed.

Lemma empty_In {A} (l : list A) : (forall x, ~ In x l) -> l = [].
Proof. destruct l as [|x l]; [reflexivity|]. intros H. destruct (H x). now left. Qed.

(** The filters the loop body evaluates return when the body returns. *)
Lemma plan_step_filters cs st (o : value) (v : order_view) st1 :
  read_order o = Ok v -> plan_step cs st o = Ok st1 ->
  exists z, in_zone_of cs (city v) = Ok z /\
    (z <> [] -> exists y, cod_ok_of z (payment v) = Ok y /\
      (y <> [] -> exists x, excl_ok_of y (product v) = Ok x /\
        (x <> [] -> exists r, cap_ok_of (capacity_usage st) x (weight v) = Ok r))).
Proof.
  intros Hv H. unfold plan_step in H. rewrite Hv in H. cbn [bind] in H.
  destruct (in_zone_of cs (city v)) as [z| |]; try discriminate.
  exists z. split; [reflexivity|]. intros Nz.
  destruct z as [|c z]; [congruence|]. cbn [bind] in H.
  destruct (cod_ok_of (c :: z) (payment v)) as [y| |]; try discriminate.
  exists y. split; [reflexivity|]. intros Ny.
  destruct y as [|c' y]; [congruence|]. cbn [bind] in H.
  assert (H' : (excl_ok <- excl_ok_of (c' :: y) (product v) ;;
                match excl_ok with
                | [] =>
                    pt <- get o "producttype" (VStr "") ;;
                    shown <- py_str pt ;;
                    reject st (oid v) (String.append "Excluded product type: " shown)
                | _ :: _ =>
                    cap_ok <- cap_ok_of (capacity_usage st) excl_ok (weight v) ;;
                    match cap_ok with
                    | [] => reject st (oid v) "Capacity exceeded"
                    | _ :: _ =>
                        chosen <- choose (capacity_usage st) cap_ok ;;
                        assign st (oid v) chosen (weight v)
                    end
                end) = Ok st1)
    by (destruct (String.eqb (payment v) "cod"); exact H).
  clear H. destruct (excl_ok_of (c' :: y) (product v)) as [x| |]; try discriminate.
  exists x. split; [reflexivity|]. intros Nx.
  destruct x as [|c'' x]; [congruence|]. cbn [bind] in H'.
  destruct (cap_ok_of (capacity_usage st) (c'' :: x) (weight v)) as [r| |];
    try discriminate.
  eauto.
Qed.

(** The first predicate of the specification that eliminates all
    candidates is the filter at which the loop body stops. *)
Lemma eliminated_first_empty cs st (o : value) st1 (k cty p t : string)
  (w : pyfloat) (s : stage) :
  let v := {| oid := VStr k; city := VStr cty; payment := lower p;
              product := lower t; weight := w |} in
  read_order o = Ok v -> plan_step cs st o = Ok st1 ->
  (forall c, In c cs -> declared s c) ->
  eliminated_at cs (capacity_usage st) cty p t w s ->
  first_empty cs (capacity_usage st) v s.
Proof.
  intros v Hv Hstep Hd He.
  destruct (plan_step_filters _ _ _ _ _ Hv Hstep) as (z & Hz & Fz).
  cbn [city payment product weight] in Hz, Fz.
  pose proof (in_zone_spec cs cty z Hz (fun c Hc => proj1 (Hd c Hc))) as Iz.
  destruct s; cbn [eliminated_at declared] in He, Hd.
  - assert (z = []) as ->; [|now constructor].
    apply empty_In. intros c Hc. apply Iz in Hc as [Hc Hcov]. now apply (He c).
  - destruct He as [(c0 & Hc0 & Hcov0) Hnone].
    assert (Nz : z <> []) by (apply nonempty_In; exists c0; apply Iz; auto).
    destruct (Fz Nz) as (y & Hy & _).
    assert (Iy := cod_ok_spec z p y Hy
                    (fun c Hc => proj2 (Hd c (proj1 (proj1 (Iz c) Hc))))).
    assert (y = []) as ->; [|now apply (empty_cod _ _ _ z)].
    apply empty_In. intros c Hc. apply Iy in Hc as [Hc Hacc].
    apply Iz in Hc as [Hc Hcov]. now apply (Hnone c).
  - destruct He as [(c0 & Hc0 & Hcov0 & Hacc0) Hnone].
    assert (Nz : z <> []) by (apply nonempty_In; exists c0; apply Iz; auto).
    destruct (Fz Nz) as (y & Hy & Fy).
    assert (Iy := cod_ok_spec z p y Hy
                    (fun c Hc => proj1 (proj2 (Hd c (proj1 (proj1 (Iz c) Hc)))))).
    assert (Ny : y <> []).
    { apply nonempty_In. exists c0. apply Iy. split; [apply Iz|]; auto. }
    destruct (Fy Ny) as (x & Hx & _).
    assert (Ix := excl_ok_spec y t x Hx
                    (fun c Hc =>
                       proj2 (proj2 (Hd c (proj1 (proj1 (Iz c)
                                                    (proj1 (proj1 (Iy c) Hc)))))))).
    assert (x = []) as ->; [|now apply (empty_exclusion _ _ _ z y)].
    apply empty_In. intros c Hc. apply Ix in Hc as [Hc Hall].
    apply Iy in Hc as [Hc Hacc]. apply Iz in Hc as [Hc Hcov]. now apply (Hnone c).
  - destruct He as [(c0 & Hc0 & Hcov0 & Hacc0 & Hall0) Hnone].
    assert (Nz : z <> []) by (apply nonempty_In; exists c0; apply Iz; auto).
    destruct (Fz Nz) as (y & Hy & Fy).
    assert (Iy := cod_ok_spec z p y Hy
                    (fun c Hc => proj1 (proj2 (Hd c (proj1 (proj1 (Iz c) Hc)))))).
    assert (Ny : y <> []).
    { apply nonempty_In. exists c0. apply Iy. split; [apply Iz|]; auto. }
    destruct (Fy Ny) as (x & Hx & Fx).
    assert (Ix := excl_ok_spec y t x Hx
                    (fun c Hc =>
                       proj2 (proj2 (Hd c (proj1 (proj1 (Iz c)
                                                    (proj1 (proj1 (Iy c) Hc)))))))).
    assert (Nx : x <> []).
    { apply nonempty_In. exists c0. apply Ix. split; [apply Iy; split; [apply Iz|]|]; auto. }
    destruct (Fx Nx) as (r & Hr).
    assert (Ir := cap_ok_spec _ x w r Hr).
    assert (r = []) as ->; [|now apply (empty_capacity _ _ _ z y x)].
    apply empty_In. intros c Hc. apply Ir in Hc as [Hc Hfit].
    apply Ix in Hc as [Hc Hall]. apply Iy in Hc as [Hc Hacc].
    apply Iz in Hc as [Hc Hcov]. now apply (Hnone c).
Qed.

(** The filter at which the loop body stops is the first predicate of the
    specification that eliminates all candidates. *)
Lemma first_empty_eliminated cs usage (k cty p t : string) (w : pyfloat) (s : stage) :
  let v := {| oid := VStr k; city := VStr cty; payment := lower p;
              product := lower t; weight := w |} in
  first_empty cs usage v s ->
  (forall c, In c cs -> declared s c) ->
  eliminated_at cs usage cty p t w s.
Proof.
  intros v Hfe Hd.
  destruct Hfe as [Hz | z Hz Nz Hy | z y Hz Nz Hy Ny Hx | z y x Hz Nz Hy Ny Hx Nx Hr];
    cbn [city payment product weight v] in *; cbn [eliminated_at declared] in *;
    pose proof (in_zone_spec cs cty _ Hz (fun c Hc => proj1 (Hd c Hc))) as Iz.
  - intros c Hc Hcov. apply (Iz c). auto.
  - assert (Iy := cod_ok_spec z p _ Hy
                    (fun c Hc => proj2 (Hd c (proj1 (proj1 (Iz c) Hc))))).
    split.
    + apply nonempty_In in Nz as [c Hc]. exists c. now apply Iz.
    + intros c Hc Hcov Hacc. apply (Iy c). split; [apply Iz|]; auto.
  - assert (Iy := cod_ok_spec z p _ Hy
                    (fun c Hc => proj1 (proj2 (Hd c (proj1 (proj1 (Iz c) Hc)))))).
    assert (Ix := excl_ok_spec y t _ Hx
                    (fun c Hc =>
                       proj2 (proj2 (Hd c (proj1 (proj1 (Iz c)
                                                    (proj1 (proj1 (Iy c) Hc)))))))).
    split.
    + apply nonempty_In in Ny as [c Hc]. exists c.
      apply Iy in Hc as [Hc Hacc]. apply Iz in Hc as [Hc Hcov]. auto.
    + intros c Hc Hcov Hacc Hall. apply (Ix c).
      split; [apply Iy; split; [apply Iz|]|]; auto.
  - assert (Iy := cod_ok_spec z p _ Hy
                    (fun c Hc => proj1 (proj2 (Hd c (proj1 (proj1 (Iz c) Hc)))))).
    assert (Ix := excl_ok_spec y t _ Hx
                    (fun c Hc =>
                       proj2 (proj2 (Hd c (proj1 (proj1 (Iz c)
                                                    (proj1 (proj1 (Iy c) Hc)))))))).
    assert (Ir := cap_ok_spec usage x w _ Hr).
    split.
    + apply nonempty_In in Nx as [c Hc]. exists c.
      apply Ix in Hc as [Hc Hall]. apply Iy in Hc as [Hc Hacc].
      apply Iz in Hc as [Hc Hcov]. auto.
    + intros c Hc Hcov Hacc Hall Hfit. apply (Ir c).
      split; [apply Ix; split; [apply Iy; split; [apply Iz|]|]|]; auto.
Qed.

(** The chain looks at the roster as a set. *)
Lemma eliminated_at_ext (l1 l2 : list value) usage (cty p t : string) (w : pyfloat)
  (s : stage) :
  (forall c, In c l1 <-> In c l2) ->
  eliminated_at l1 usage cty p t w s -> eliminated_at l2 usage cty p t w s.
Proof.
  intros E. destruct s; cbn [eliminated_at].
  - intros H c Hc. apply H. now apply E.
  - intros [(c0 & Hc0 & H0) H]. split; [exists c0; split; [now apply E|assumption]|].
    intros c Hc. apply H. now apply E.
  - intros [(c0 & Hc0 & H0) H]. split; [exists c0; split; [now apply E|assumption]|].
    intros c Hc. apply H. now apply E.
  - intros [(c0 & Hc0 & H0) H]. split; [exists c0; split; [now apply E|assumption]|].
    intros c Hc. apply H. now apply E.
Qed.

(** The sorted roster has the couriers of the roster. *)
Lemma sort_by_priority_In couriers cs :
  sort_by_priority couriers = Ok cs -> forall c, In c cs <-> In c couriers.
Proof.
  intros H c. split; [now apply (sort_by_priority_Ok _ _ H)|].
  unfold sort_by_priority, sorted_on in H. bind_inv H. injection H as <-.
  intros Hc.
  assert (Hk : exists k, (p <- priority_key c ;; Ok (p, c)) = Ok (k, c)).
  { apply mapM_Forall2 in E. revert Hc. clear -E.
    induction E as [|x y xs ys Hxy _ IH]; intros []; [subst x|auto].
    destruct (priority_key c) as [q| |]; try discriminate. eauto. }
  destruct Hk as [q Hq]. apply in_map_iff. exists (q, c). split; [reflexivity|].
  apply sorted_by_In. apply (keyed_In _ _ _ E). split; [assumption|].
  destruct (priority_key c); try discriminate. now injection Hq as ->.
Qed.

Lemma reason_of_text (s : stage) (o : value) (t : string) :
  get o "producttype" (VStr "") = Ok (VStr t) -> reason_of s o = Ok (reason_text s t).
Proof. intros H. destruct s; try reflexivity. simpl. now rewrite H. Qed.

(** What the rest of the loop adds to the unassigned orders, and the
    reason it keeps for an identifier that is not among them. *)
Lemma plan_loop_later cs (post : list value) :
  forall st final (k : string),
    plan_loop cs post st = Ok final ->
    exists rest,
      unassigned final = unassigned st ++ rest /\
      (~ In (VStr k) rest ->
       alist_get k (unassigned_reasons final) = alist_get k (unassigned_reasons st)).
Proof.
  unfold plan_loop. induction post as [|o post IH]; intros st final k H; simpl in H.
  - injection H as <-. exists []. split; [now rewrite app_nil_r|reflexivity].
  - apply bind_Ok in H as (st1 & Hstep & H).
    destruct (IH st1 final k H) as (rest & Hun & Hkeep).
    destruct (plan_step_Ok _ _ _ _ Hstep) as (v & Hv & [Hrej|Hass]).
    + destruct Hrej as (s & reason & k' & _ & _ & Hkey & ->).
      apply as_key_Ok in Hkey. rewrite Hkey in *. cbn [rejected unassigned] in Hun.
      exists (VStr k' :: rest). split; [now rewrite Hun, <- app_assoc|].
      intros N. rewrite Hkeep by (intros G; apply N; now right).
      cbn [rejected unassigned_reasons]. apply alist_get_set_ne.
      intros ->. apply N. now left.
    + destruct Hass as (survivors & chosen & _ & _ & _ & Ha).
      unfold assign in Ha.
      repeat (let x := fresh in let E := fresh in apply bind_Ok in Ha as (x & E & Ha)).
      injection Ha as <-. exists rest. split; [exact Hun|exact Hkeep].
Qed.

(** C3, amended. [st] is the state in which the order [o] is processed,
    after the orders [pre], and [final] what the run returns; [o] has the
    identifier [k], and no order after it that bears [k] is left
    unassigned.  When a predicate [s] of the chain (zone coverage, COD
    acceptance, product exclusion, capacity) is the first that eliminates
    all candidates, [o] is left unassigned and the run returns for [k] the
    reason of [s]: "Zone not covered", "COD not accepted", "Excluded product
    type: " followed by the product type as given, "Capacity exceeded".
    This needs the declared types only of the fields that the predicates up
    to [s] read: the later predicates are not evaluated, and what they
    would do, or raise, on the other fields does not matter.  Conversely,
    when [o] is left unassigned, the reason returned is the one of some
    predicate [s], which is the first that eliminates all candidates. *)
Theorem rejection_reason (couriers pre post : list value) (o : value)
  (k cty p t : string) (w : pyfloat) st final :
  plan_assignments pre couriers = Ok st ->
  plan_assignments (pre ++ o :: post) couriers = Ok final ->
  order_reads o k cty p t w ->
  (forall rest, unassigned final = unassigned st ++ VStr k :: rest ->
                ~ In (VStr k) rest) ->
  (forall s,
      (forall c, In c (map normalize_keys couriers) -> declared s c) ->
      eliminated_at (map normalize_keys couriers) (capacity_usage st) cty p t w s ->
      plan_assignments (pre ++ [o]) couriers
      = Ok (rejected st (VStr k) k (reason_text s t)) /\
      In (VStr k) (unassigned final) /\
      alist_get k (unassigned_reasons final) = Some (reason_text s t)) /\
  (forall st1,
      plan_assignments (pre ++ [o]) couriers = Ok st1 ->
      assignments st1 = assignments st ->
      exists s,
        st1 = rejected st (VStr k) k (reason_text s t) /\
        alist_get k (unassigned_reasons final) = Some (reason_text s t) /\
        ((forall c, In c (map normalize_keys couriers) -> declared s c) ->
         eliminated_at (map normalize_keys couriers) (capacity_usage st) cty p t w s)).
Proof.
  intros Hst Hfinal Hreads Hlater.
  assert (Hcs : exists cs, sort_by_priority (map normalize_keys couriers) = Ok cs).
  { unfold plan_assignments in Hst. bind_inv Hst. bind_inv Hst. eauto. }
  destruct Hcs as [cs Hcs].
  pose proof (sort_by_priority_In _ _ Hcs) as Hmem.
  destruct (order_reads_read _ _ _ _ _ _ Hreads) as [Hv Hpt].
  rewrite (plan_assignments_cons _ _ _ _ _ _ Hst Hcs) in Hfinal.
  apply bind_Ok in Hfinal as (st1 & Hstep & Hloop).
  rewrite (plan_assignments_snoc _ _ _ _ _ Hst Hcs).
  destruct (plan_loop_later _ _ _ _ k Hloop) as (rest & Hun & Hkeep).
  assert (Hrej : forall s,
             st1 = rejected st (VStr k) k (reason_text s t) ->
             In (VStr k) (unassigned final) /\
             alist_get k (unassigned_reasons final) = Some (reason_text s t)).
  { intros s ->. cbn [rejected unassigned unassigned_reasons] in Hun, Hkeep.
    rewrite <- app_assoc in Hun. split.
    - rewrite Hun. apply in_or_app. right. now left.
    - rewrite Hkeep by (now apply Hlater). apply alist_get_set_eq. }
  split.
  - intros s Hd He.
    assert (Hfe : first_empty cs (capacity_usage st)
                    {| oid := VStr k; city := VStr cty; payment := lower p;
                       product := lower t; weight := w |} s).
    { apply (eliminated_first_empty cs st (normalize_keys o) st1); auto.
      - intros c Hc. apply Hd. now apply Hmem.
      - apply (eliminated_at_ext (map normalize_keys couriers)); [|assumption].
        intros c. symmetry. apply Hmem. }
    assert (E : plan_step cs st (normalize_keys o)
                = Ok (rejected st (VStr k) k (reason_text s t))).
    { rewrite (first_empty_step _ _ _ _ _ Hv Hfe), (reason_of_text _ _ _ Hpt).
      reflexivity. }
    split; [exact E|]. apply Hrej. congruence.
  - intros st1' Hsnoc Hsame. rewrite Hstep in Hsnoc. injection Hsnoc as <-.
    destruct (plan_step_Ok _ _ _ _ Hstep) as (v' & Hv' & [Hr|Hass]).
    + rewrite Hv in Hv'. injection Hv' as <-.
      destruct Hr as (s & reason & k' & Hfe & Hreason & Hkey & E).
      rewrite (reason_of_text _ _ _ Hpt) in Hreason. injection Hreason as <-.
      cbn [oid as_key] in Hkey. injection Hkey as <-.
      exists s. split; [exact E|]. split; [now apply Hrej|].
      intros Hd. apply (eliminated_at_ext cs); [exact Hmem|].
      apply (first_empty_eliminated cs (capacity_usage st) k); [exact Hfe|].
      intros c Hc. apply Hd. now apply Hmem.
    + exfalso. destruct Hass as (survivors & chosen & _ & _ & _ & Ha).
      unfold assign in Ha. bind_inv Ha. bind_inv Ha. bind_inv Ha.
      injection Ha as <-. revert Hsame. apply assigned_not_same.
Qed.

End PlanReasons.

(** ** [plan_assignments]: every order decided once, by the rules *)

Lemma mapM_map {A B C} (f : B -> result C) (g : A -> B) (xs : list A) :
  mapM f (map g xs) = mapM (fun x => f (g x)) xs.
Proof.
  induction xs as [|x xs IH]; simpl; [reflexivity|]. now rewrite IH.
Qed.

Section PlanMore.
Context {FO : FloatOps}.
Implicit Types (st : plan_state) (cs couriers orders : list value).

(** The two ways the loop body returns, with the state it leaves. *)
Lemma plan_step_cases cs st (o : value) st' :
  plan_step cs st o = Ok st' ->
  exists v, read_order o = Ok v /\
    ((exists s reason k,
         first_empty cs (capacity_usage st) v s /\ reason_of s o = Ok reason /\
         oid v = VStr k /\ st' = rejected st (VStr k) k reason)
     \/
     (exists survivors chosen cid u,
         survivors_of cs (capacity_usage st) v = Ok survivors /\
         In chosen survivors /\
         subscript chosen "courierid" = Ok (VStr cid) /\
         alist_get cid (capacity_usage st) = Some u /\
         st' = assigned st (oid v) (VStr cid) cid (f_add u (weight v)))).
Proof.
  intros H. destruct (plan_step_Ok _ _ _ _ H) as (v & Hv & [Hrej|Hass]); exists v;
    (split; [exact Hv|]).
  - left. destruct Hrej as (s & reason & k & Hs & Hr & Hk & ->).
    apply as_key_Ok in Hk. rewrite Hk. exists s, reason, k. auto.
  - right. destruct Hass as (survivors & chosen & Hs & _ & Hch & Ha).
    destruct (choose_In _ _ _ Hch) as [Hin _].
    destruct (survivors_In _ _ _ _ _ Hs Hin) as (_ & u & _ & Hu & _).
    apply usage_of_Ok in Hu as (cid & Hid & Hget).
    rewrite (assign_Ok _ _ _ _ _ _ Hid Hget) in Ha. injection Ha as <-.
    exists survivors, chosen, cid, u. auto.
Qed.

Lemma plan_loop_decides cs (os : list value) :
  forall st0 st,
    plan_loop cs os st0 = Ok st ->
    exists pairs rejected ids,
      assignments st = assignments st0 ++ map assignment_of pairs /\
      unassigned st = unassigned st0 ++ rejected /\
      mapM (fun o => subscript o "orderid") os = Ok ids /\
      Permutation (map fst pairs ++ rejected) ids /\
      sublist (map fst pairs) ids /\ sublist rejected ids.
Proof.
  unfold plan_loop. induction os as [|o os IH]; intros st0 st H; simpl in H.
  - injection H as <-. exists [], [], []. simpl. rewrite !app_nil_r.
    repeat split; constructor.
  - apply bind_Ok in H as (st1 & Hstep & H).
    destruct (IH _ _ H) as (pairs & rej & ids & Ha & Hu & Hids & Hperm & S1 & S2).
    destruct (plan_step_cases _ _ _ _ Hstep) as (v & Hv & Hcase).
    pose proof (read_order_oid _ _ Hv) as Hoid.
    simpl. rewrite Hoid, Hids. cbn [bind].
    destruct Hcase as [(s & reason & k & _ & _ & Hk & ->)
                      |(survivors & chosen & cid & u & _ & _ & _ & _ & ->)];
      simpl in Ha, Hu.
    + exists pairs, (oid v :: rej), (oid v :: ids). rewrite Hk in *.
      rewrite <- app_assoc in Hu. repeat split; auto.
      * rewrite <- Permutation_middle. now constructor.
      * now apply sublist_cons.
      * now apply sublist_skip.
    + exists ((oid v, VStr cid) :: pairs), rej, (oid v :: ids).
      rewrite <- app_assoc in Ha. repeat split; auto.
      * simpl. now constructor.
      * simpl. now apply sublist_skip.
      * now apply sublist_cons.
Qed.

(** X14. [plan_assignments] decides every order exactly once: the order
    identifiers of the assignments together with the identifiers left
    unassigned are the identifiers of the orders, each as often as it occurs
    among the orders, and both lists follow the order of the input.  In
    particular the assignments and the unassigned orders are as many as the
    orders. *)
Theorem every_order_decided (orders couriers : list value) st :
  plan_assignments orders couriers = Ok st ->
  exists pairs ids,
    assignments st = map assignment_of pairs /\
    mapM (fun o => subscript (normalize_keys o) "orderid") orders = Ok ids /\
    Permutation (map fst pairs ++ unassigned st) ids /\
    sublist (map fst pairs) ids /\ sublist (unassigned st) ids /\
    (length (assignments st) + length (unassigned st) = length orders)%nat.
Proof.
  unfold plan_assignments. intros H.
  apply bind_Ok in H as (usage & _ & H). apply bind_Ok in H as (cs & _ & H).
  destruct (plan_loop_decides _ _ _ _ H)
    as (pairs & rej & ids & Ha & Hu & Hids & Hperm & S1 & S2).
  simpl in Ha, Hu. subst rej. rewrite mapM_map in Hids.
  exists pairs, ids. repeat split; auto.
  rewrite Ha, length_map, <- (length_map fst pairs), <- length_app.
  rewrite (Permutation_length Hperm).
  apply mapM_Forall2 in Hids. symmetry. exact (Forall2_length _ _ _ Hids).
Qed.



(** X16. The orders left unassigned and the reasons recorded go
    together: an identifier is in the unassigned list exactly when a reason
    is recorded under it, and every reason is one of "Zone not covered",
    "COD not accepted", "Capacity exceeded" and "Excluded product type: "
    followed by a product type. *)
Theorem reason_for_every_unassigned (orders couriers : list value) st :
  plan_assignments orders couriers = Ok st ->
  (forall k, In (VStr k) (unassigned st) <->
             exists reason, alist_get k (unassigned_reasons st) = Some reason) /\
  (forall k reason, alist_get k (unassigned_reasons st) = Some reason ->
     reason = "Zone not covered" \/ reason = "COD not accepted" \/
     reason = "Capacity exceeded" \/
     exists shown, reason = String.append "Excluded product type: " shown).
Proof.
  unfold plan_assignments, plan_loop. intros H.
  apply bind_Ok in H as (usage & _ & H). apply bind_Ok in H as (cs & _ & H).
  apply proj2 with (A := forall x, In x (unassigned st) -> exists k, x = VStr k).
  revert H.
  apply (foldM_invariant (plan_step cs)
           (fun st =>
              (forall x, In x (unassigned st) -> exists k, x = VStr k) /\
              (forall k, In (VStr k) (unassigned st) <->
                         exists reason, alist_get k (unassigned_reasons st) = Some reason) /\
              (forall k reason, alist_get k (unassigned_reasons st) = Some reason ->
                 reason = "Zone not covered" \/ reason = "COD not accepted" \/
                 reason = "Capacity exceeded" \/
                 exists shown, reason = String.append "Excluded product type: " shown))).
  - intros st0 x st1 _ (I1 & I2 & I3) Hstep.
    destruct (plan_step_cases _ _ _ _ Hstep) as (v & Hv & Hcase).
    destruct Hcase as [(s & reason & k & _ & Hr & _ & ->)
                      |(survivors & chosen & cid & u & _ & _ & _ & _ & ->)];
      simpl; [|auto].
    split; [|split].
    + intros y [Hy|[<-|[]]]%in_app_iff; eauto.
    + intros k'. rewrite in_app_iff, alist_get_set, I2. simpl.
      destruct (String.eqb_spec k k') as [->|Hne].
      * split; eauto.
      * split; [intros [?|[[= ?]|[]]]; [assumption|contradiction]|auto].
    + intros k' reason'. rewrite alist_get_set.
      destruct (String.eqb k k'); [|apply I3]. intros [= <-].
      destruct s; simpl in Hr.
      * injection Hr as <-. auto.
      * injection Hr as <-. auto.
      * apply bind_Ok in Hr as (pt & _ & Hr). apply bind_Ok in Hr as (shown & _ & Hr).
        injection Hr as <-. eauto 6.
      * injection Hr as <-. auto.
  - simpl. split; [intros x []|]. split; [|discriminate].
    intros k. split; [intros []|intros [? [=]]].
Qed.

(** The couriers that have an entry in the initial usage. *)
Lemma initial_usage_keys couriers (usage : list (string * pyfloat)) :
  initial_usage couriers = Ok usage ->
  forall k, (exists u, alist_get k usage = Some u) <->
            exists c, In c couriers /\ subscript c "courierid" = Ok (VStr k).
Proof.
  unfold initial_usage.
  assert (G : forall acc : list (string * pyfloat),
             foldM (fun d c =>
                      cid_v <- subscript c "courierid" ;;
                      cid <- as_key cid_v ;; Ok (alist_set cid f_zero d))
                   couriers acc = Ok usage ->
             forall k, (exists u, alist_get k usage = Some u) <->
                       (exists u, alist_get k acc = Some u) \/
                       exists c, In c couriers /\ subscript c "courierid" = Ok (VStr k)).
  { induction couriers as [|c couriers IH]; intros acc H k; simpl in H.
    - injection H as <-. split; [auto|]. intros [?|(? & [] & _)]. assumption.
    - apply bind_Ok in H as (acc' & Hstep & H). rewrite (IH _ H k). clear IH H.
      apply bind_Ok in Hstep as (cid_v & Hid & Hstep).
      apply bind_Ok in Hstep as (cid & Hkey & Hstep). injection Hstep as <-.
      apply as_key_Ok in Hkey. subst cid_v. rewrite alist_get_set.
      destruct (String.eqb_spec cid k) as [->|Hne].
      + split; [intros _|eauto]. right. exists c. split; [now left|assumption].
      + split.
        * intros [?|(c' & ? & ?)]; [now left|right; exists c'; split; [now right|auto]].
        * intros [?|(c' & [<-|?] & Hc')]; [now left| |right; eauto].
          rewrite Hid in Hc'. congruence. }
  intros H k. rewrite (G [] H k). split; [intros [[? [=]]|]|]; auto.
Qed.

(** X17. The usage mapping has an entry for the identifier of every
    courier of the roster and for nothing else, from the start to the end of
    the run: planning adds no key and removes none. *)
Theorem usage_has_roster_keys (orders couriers : list value) st :
  plan_assignments orders couriers = Ok st ->
  forall k, (exists u, alist_get k (capacity_usage st) = Some u) <->
            exists c, In c (map normalize_keys couriers) /\
                      subscript c "courierid" = Ok (VStr k).
Proof.
  unfold plan_assignments, plan_loop. intros H k.
  apply bind_Ok in H as (usage & Hu & H). apply bind_Ok in H as (cs & _ & H).
  rewrite <- (initial_usage_keys _ _ Hu k). revert H.
  apply (foldM_invariant (plan_step cs)
           (fun st => (exists u, alist_get k (capacity_usage st) = Some u) <->
                      (exists u, alist_get k usage = Some u))); [|reflexivity].
  intros st0 x st1 _ Hinv Hstep. rewrite <- Hinv.
  destruct (plan_step_cases _ _ _ _ Hstep) as (v & Hv & Hcase).
  destruct Hcase as [(s & reason & k' & _ & _ & _ & ->)
                    |(survivors & chosen & cid & u & _ & _ & _ & Hget & ->)];
    simpl; [reflexivity|].
  rewrite alist_get_set. destruct (String.eqb_spec cid k) as [->|_]; [|reflexivity].
  split; eauto.
Qed.

(** X18. Without any courier every order is left unassigned, for the
    reason "Zone not covered"; nothing is assigned and the usage mapping is
    empty. *)
Theorem empty_roster (orders : list value) st :
  plan_assignments orders [] = Ok st ->
  assignments st = [] /\ capacity_usage st = [] /\
  length (unassigned st) = length orders /\
  forall k, In (VStr k) (unassigned st) ->
            alist_get k (unassigned_reasons st) = Some "Zone not covered".
Proof.
  unfold plan_assignments, plan_loop. simpl.
  change (sorted_on Z.ltb []) with ([] : list value).
  assert (G : forall os st0 st1,
             foldM (plan_step []) os st0 = Ok st1 ->
             assignments st1 = assignments st0 /\
             capacity_usage st1 = capacity_usage st0 /\
             length (unassigned st1) = (length (unassigned st0) + length os)%nat /\
             ((forall k, In (VStr k) (unassigned st0) ->
                         alist_get k (unassigned_reasons st0) = Some "Zone not covered") ->
              (forall k r, alist_get k (unassigned_reasons st0) = Some r ->
                           r = "Zone not covered") ->
              forall k, In (VStr k) (unassigned st1) ->
                        alist_get k (unassigned_reasons st1) = Some "Zone not covered")).
  { induction os as [|o os IH]; intros st0 st1 H; simpl in H.
    - injection H as <-. simpl. repeat split; auto.
    - apply bind_Ok in H as (st' & Hstep & H).
      destruct (IH _ _ H) as (A & U & L & R). clear IH H.
      unfold plan_step in Hstep. apply bind_Ok in Hstep as (v & Hv & Hstep).
      simpl in Hstep. rewrite reject_eq in Hstep.
      apply bind_Ok in Hstep as (k0 & Hk0 & Hstep). injection Hstep as <-.
      simpl in *. rewrite A, U, L, length_app. simpl.
      repeat split; auto; [lia|].
      intros I1 I2. apply R.
      + intros k [Hin|[Hk|[]]]%in_app_iff; rewrite alist_get_set.
        * destruct (String.eqb k0 k); [reflexivity|now apply I1].
        * apply as_key_Ok in Hk0. rewrite Hk0 in Hk. injection Hk as ->.
          now rewrite String.eqb_refl.
      + intros k r. rewrite alist_get_set.
        destruct (String.eqb k0 k); [now intros [= <-]|apply I2]. }
  intros H. destruct (G _ _ _ H) as (A & U & L & R). simpl in *.
  rewrite length_map in L.
  split; [exact A|]. split; [exact U|]. split; [exact L|].
  apply R; [intros k []|intros k r [=]].
Qed.

Lemma plan_loop_accounts cs (os : list value) :
  forall st0 st,
    plan_loop cs os st0 = Ok st ->
    exists decided : list (value * string * pyfloat),
      assignments st =
        assignments st0 ++
        map (fun t => assignment_of (fst (fst t), VStr (snd (fst t)))) decided /\
      (forall t, In t decided ->
         exists o v, In o os /\ read_order o = Ok v /\
                     oid v = fst (fst t) /\ weight v = snd t) /\
      forall k, alist_get k (capacity_usage st) =
                match alist_get k (capacity_usage st0) with
                | Some u0 => Some (fold_left f_add (weights_to k decided) u0)
                | None => None
                end.
Proof.
  unfold plan_loop. induction os as [|o os IH]; intros st0 st H; simpl in H.
  - injection H as <-. exists []. simpl. rewrite app_nil_r.
    split; [reflexivity|]. split; [intros t []|].
    intros k. now destruct (alist_get k (capacity_usage st0)).
  - apply bind_Ok in H as (st1 & Hstep & H).
    destruct (IH _ _ H) as (decided & Ha & Hd & Hu). clear IH H.
    destruct (plan_step_cases _ _ _ _ Hstep) as (v & Hv & Hcase).
    destruct Hcase as [(s & reason & k0 & _ & _ & _ & ->)
                      |(survivors & chosen & cid & u & _ & _ & _ & Hget & ->)];
      simpl in Ha, Hu.
    + exists decided. split; [exact Ha|]. split; [|exact Hu].
      intros t Ht. destruct (Hd t Ht) as (o' & v' & Hin & Hrest).
      exists o', v'. split; [now right|exact Hrest].
    + exists ((oid v, cid, weight v) :: decided). split; [|split].
      * rewrite Ha, <- app_assoc. reflexivity.
      * intros t [<-|Ht].
        -- exists o, v. split; [now left|auto].
        -- destruct (Hd t Ht) as (o' & v' & Hin & Hrest).
           exists o', v'. split; [now right|exact Hrest].
      * intros k. rewrite Hu, alist_get_set. unfold weights_to. simpl.
        destruct (String.eqb_spec cid k) as [->|Hne]; [|reflexivity].
        rewrite Hget. reflexivity.
Qed.

(** X30. The usage recorded for a courier is the sum of the weights of
    the orders assigned to it: there is a weight for every assignment, the
    weight read from an order of the batch with the assigned identifier,
    such that the final usage under each courier identifier is 0 plus, one
    after the other in the order of the assignments, the weights of the
    assignments to that identifier. *)
Theorem usage_accounts_for_assignments (orders couriers : list value) st :
  plan_assignments orders couriers = Ok st ->
  exists decided : list (value * string * pyfloat),
    assignments st =
      map (fun t => assignment_of (fst (fst t), VStr (snd (fst t)))) decided /\
    (forall t, In t decided ->
       exists o v, In o orders /\ read_order (normalize_keys o) = Ok v /\
                   oid v = fst (fst t) /\ weight v = snd t) /\
    forall k u, alist_get k (capacity_usage st) = Some u ->
                u = fold_left f_add (weights_to k decided) f_zero.
Proof.
  unfold plan_assignments. intros H.
  apply bind_Ok in H as (usage & Husage & H). apply bind_Ok in H as (cs & _ & H).
  destruct (plan_loop_accounts _ _ _ _ H) as (decided & Ha & Hd & Hu).
  simpl in Ha, Hu. exists decided. split; [exact Ha|]. split.
  - intros t Ht. destruct (Hd t Ht) as (x & v & (o & <- & Ho)%in_map_iff & Hrest).
    exists o, v. auto.
  - intros k u. rewrite Hu. destruct (alist_get k usage) as [u0|] eqn:G; [|discriminate].
    destruct (initial_usage_Ok _ _ Husage) as [Hzero _].
    rewrite (Hzero k u0 G). now intros [= <-].
Qed.
End PlanMore.

(** ** [reconcile] *)

Section Reconcile.
Context {FO : FloatOps}.
Implicit Types (st : scan_state) (ids : gset string) (orders_l log_l : list value).

Lemma sorted_set_In (xs : list string) (x : string) : In x (sorted_set xs) <-> In x xs.
Proof.
  unfold sorted_set. rewrite sorted_by_In, <- !list_elem_of_In, elem_of_elements.
  apply elem_of_list_to_set.
Qed.

Lemma value_eq_str_true (p : value) (s : string) : value_eq_str p s = true <-> p = VStr s.
Proof.
  destruct p; simpl; split; try congruence.
  - intros ->%String.eqb_eq. reflexivity.
  - intros [= ->]. apply String.eqb_refl.
Qed.

Lemma is_misassigned_true (planned : list (string * value)) (oid cid : string) :
  is_misassigned planned oid cid = true <-> plan_differs planned oid cid.
Proof.
  unfold is_misassigned, plan_differs, dict_get. split.
  - destruct (alist_get oid planned) as [p|]; [|discriminate].
    intros [T N]%andb_prop. exists p. repeat split; auto.
    intros ->. rewrite (proj2 (value_eq_str_true _ _) eq_refl) in N. discriminate.
  - intros (p & -> & T & N). rewrite T. simpl.
    destruct (value_eq_str p cid) eqn:E; [|reflexivity].
    apply value_eq_str_true in E. contradiction.
Qed.

(** The identifiers [order_ids] collects. *)
Lemma order_ids_of_Ok orders_l ids :
  order_ids_of orders_l = Ok ids -> forall x, x ∈ ids <-> known_id orders_l x.
Proof.
  unfold order_ids_of.
  assert (G : forall acc : gset string,
             foldM (fun (ids : gset string) o =>
                      v <- get o "orderid" VNone ;;
                      if truthy v
                      then (w <- subscript o "orderid" ;; k <- as_key w ;; Ok (ids ∪ {[ k ]}))
                      else Ok ids) orders_l acc = Ok ids ->
             forall x, x ∈ ids <-> x ∈ acc \/ known_id orders_l x).
  { induction orders_l as [|o orders_l IH]; intros acc H x; simpl in H.
    - injection H as <-. split; [auto|]. intros [?|(? & [] & _)]. assumption.
    - apply bind_Ok in H as (acc' & Hstep & H). rewrite (IH _ H x). clear IH H.
      apply bind_Ok in Hstep as (w0 & Hget & Hstep).
      destruct o as [ | | | | | |d]; try discriminate. simpl in Hget. injection Hget as <-.
      unfold dict_get in Hstep. unfold known_id.
      destruct (alist_get "orderid" d) as [w|] eqn:G.
      + destruct (truthy w) eqn:T.
        * apply bind_Ok in Hstep as (w' & Hsub & Hstep).
          simpl in Hsub. rewrite G in Hsub. injection Hsub as <-.
          apply bind_Ok in Hstep as (k & Hk & Hstep). injection Hstep as <-.
          apply as_key_Ok in Hk. subst w.
          rewrite elem_of_union, elem_of_singleton. split.
          -- intros [[?| ->]|(o' & ? & ?)]; [now left| |right; exists o'; simpl; tauto].
             right. exists (VDict d). simpl. rewrite G. repeat split; auto.
             intros ->. discriminate.
          -- intros [?|(o' & [<-|?] & Hs & Hx)]; [now left; left| |right; exists o'; auto].
             simpl in Hs. rewrite G in Hs. injection Hs as ->. left; now right.
        * injection Hstep as <-. split.
          -- intros [?|(o' & ? & ?)]; [now left|right; exists o'; simpl; tauto].
          -- intros [?|(o' & [<-|?] & Hs & Hx)]; [now left| |right; exists o'; auto].
             simpl in Hs. rewrite G in Hs. injection Hs as ->. simpl in T.
             destruct x; [congruence|discriminate].
      + simpl in Hstep. injection Hstep as <-. split.
        * intros [?|(o' & ? & ?)]; [now left|right; exists o'; simpl; tauto].
        * intros [?|(o' & [<-|?] & Hs & Hx)]; [now left| |right; exists o'; auto].
          simpl in Hs. rewrite G in Hs. discriminate. }
  intros H x. rewrite (G ∅ H x). split; [intros [?%not_elem_of_empty|]|]; tauto.
Qed.

Lemma Sorted_weaken {A} (R S : A -> A -> Prop) (l : list A) :
  (forall a b, R a b -> S a b) -> Sorted R l -> Sorted S l.
Proof.
  intros HRS. induction 1 as [|a l Hs IH Hhd]; constructor; auto.
  destruct Hhd; constructor; auto.
Qed.

Lemma string_leb_of_ltb (a b : string) : String.ltb b a = false -> String.leb a b = true.
Proof.
  unfold String.ltb, String.leb. rewrite (String.compare_antisym a b).
  now destruct (String.compare b a).
Qed.

(** [notDelivered]: the difference of the two sets, in order, once each. *)
Lemma not_delivered_of_spec ids (delivered : gset string) :
  (forall x, In x (not_delivered_of ids delivered) <-> x ∈ ids /\ x ∉ delivered) /\
  Sorted (fun a b => String.leb a b = true) (not_delivered_of ids delivered) /\
  NoDup (not_delivered_of ids delivered).
Proof.
  unfold not_delivered_of. split; [|split].
  - intros x. rewrite sorted_by_In, filter_In, <- list_elem_of_In, elem_of_elements.
    rewrite negb_true_iff, bool_decide_eq_false. reflexivity.
  - eapply Sorted_weaken; [exact string_leb_of_ltb|].
    apply sorted_by_Sorted; [apply string_ltb_irrefl|apply string_ltb_trans].
  - apply NoDup_ListNoDup.
    eapply Permutation_NoDup; [symmetry; apply sorted_by_perm|].
    apply List.NoDup_filter, NoDup_ListNoDup, NoDup_elements.
Qed.

Variable strptime : string -> option Z.

(** What one scan row does to the loop state. *)
Lemma reconcile_row_Ok ids (planned : list (string * value)) orders_l st (row : value) st' :
  reconcile_row strptime ids planned orders_l st row = Ok st' ->
  exists oid cid,
    scan_oid row = Ok oid /\ scan_field row "courierid" = Ok cid /\
    ((oid = "" /\ st' = st) \/
     (oid <> "" /\
      delivered_orders st' = delivered_orders st ∪ {[ oid ]} /\
      misassigned st' =
        if is_misassigned planned oid cid then misassigned st ++ [oid] else misassigned st)).
Proof.
  unfold reconcile_row. intros H. bind_inv H. bind_inv H. bind_inv H.
  exists a, a0. split; [assumption|]. split; [assumption|].
  destruct (blank a) eqn:B.
  - left. apply blank_true in B. injection H as <-. auto.
  - right. bind_inv H. bind_inv H. injection H as <-. simpl.
    split; [|auto]. intros ->. discriminate.
Qed.

(** The scans marked delivered, and the scans found misassigned, after
    the loop over the rows. *)
Lemma scan_loop ids (planned : list (string * value)) orders_l log_l :
  forall st st',
    foldM (reconcile_row strptime ids planned orders_l) log_l st = Ok st' ->
    (forall x, x ∈ delivered_orders st' <->
               x ∈ delivered_orders st \/ scanned_id log_l x) /\
    (forall x, In x (misassigned st') <->
               In x (misassigned st) \/
               exists row cid, In row log_l /\ scan_oid row = Ok x /\ x <> "" /\
                               scan_field row "courierid" = Ok cid /\
                               plan_differs planned x cid).
Proof.
  induction log_l as [|row log_l IH]; intros st st' H; simpl in H.
  - injection H as <-. split; intros x; (split; [auto|]).
    + intros [?|(? & [] & _)]. assumption.
    + intros [?|(? & ? & [] & _)]. assumption.
  - bind_inv H. destruct (IH _ _ H) as [D M]. clear IH H.
    destruct (reconcile_row_Ok _ _ _ _ _ _ E) as (oid & cid & Ho & Hc & Hcase).
    split; intros x.
    + rewrite D. unfold scanned_id.
      destruct Hcase as [[-> ->]|(Hne & -> & _)].
      * split.
        -- intros [?|(r & ? & ?)]; [now left|right; exists r; simpl; tauto].
        -- intros [?|(r & [<-|?] & Hs & Hx)]; [now left| |right; exists r; auto].
           rewrite Ho in Hs. congruence.
      * rewrite elem_of_union, elem_of_singleton. split.
        -- intros [[?| ->]|(r & ? & ?)]; [now left| |right; exists r; simpl; tauto].
           right. exists row. simpl. auto.
        -- intros [?|(r & [<-|?] & Hs & Hx)]; [now left; left| |right; exists r; auto].
           rewrite Ho in Hs. injection Hs as ->. left; now right.
    + rewrite M.
      destruct Hcase as [[-> ->]|(Hne & _ & ->)].
      * split.
        -- intros [?|(r & c & ? & ?)]; [now left|right; exists r, c; simpl; tauto].
        -- intros [?|(r & c & [<-|?] & Hs & Hx & Hrest)];
             [now left| |right; exists r, c; tauto].
           rewrite Ho in Hs. congruence.
      * destruct (is_misassigned planned oid cid) eqn:Mis.
        -- apply is_misassigned_true in Mis. rewrite in_app_iff. simpl. split.
           ++ intros [[?|[->|[]]]|(r & c & ? & ?)];
                [now left| |right; exists r, c; simpl; tauto].
              right. exists row, cid. simpl. auto 6.
           ++ intros [?|(r & c & [<-|?] & Hs & Hx & Hf & Hp)];
                [now left; left| |right; exists r, c; auto].
              rewrite Ho in Hs. injection Hs as ->. left; right; now left.
        -- split.
           ++ intros [?|(r & c & ? & ?)]; [now left|right; exists r, c; simpl; tauto].
           ++ intros [?|(r & c & [<-|?] & Hs & Hx & Hf & Hp)];
                [now left| |right; exists r, c; auto].
              rewrite Ho in Hs. injection Hs as ->. rewrite Hc in Hf. injection Hf as ->.
              apply is_misassigned_true in Hp. congruence.
Qed.

End Reconcile.

Section ReconcileClaims.
Context {FO : FloatOps}.
Variable strptime : string -> option Z.

Lemma reconcile_Ok (assignments orders log_rows couriers : list value) (rep : report) :
  reconcile strptime assignments orders log_rows couriers = Ok rep ->
  exists ids planned st,
    order_ids_of (map normalize_keys orders) = Ok ids /\
    planned_by_order_of (map normalize_keys assignments) = Ok planned /\
    foldM (reconcile_row strptime ids planned (map normalize_keys orders))
          (map normalize_keys log_rows) scan_start = Ok st /\
    rep_misassigned rep = sorted_set (misassigned st) /\
    rep_notDelivered rep = not_delivered_of ids (delivered_orders st).
Proof.
  unfold reconcile. intros H.
  apply bind_Ok in H as (ids & Hids & H).
  apply bind_Ok in H as (planned & Hpl & H).
  apply bind_Ok in H as (st & Hst & H). injection H as <-.
  exists ids, planned, st. auto.
Qed.

(** C5. For every reconciliation run, [notDelivered] is the set of the
    known order identifiers (the non-blank identifiers of the given orders)
    minus the identifiers appearing in a scan row (as normalised from the
    row), in lexicographic order and without repetition; so every known
    identifier is in exactly one of the delivered set and [notDelivered]. *)
Theorem not_delivered_complete (assignments orders log_rows couriers : list value)
  (rep : report) :
  reconcile strptime assignments orders log_rows couriers = Ok rep ->
  let known := known_id (map normalize_keys orders) in
  let scanned := scanned_id (map normalize_keys log_rows) in
  (forall x, In x (rep_notDelivered rep) <-> known x /\ ~ scanned x) /\
  Sorted (fun a b => String.leb a b = true) (rep_notDelivered rep) /\
  NoDup (rep_notDelivered rep) /\
  (forall x, known x ->
             (scanned x /\ ~ In x (rep_notDelivered rep)) \/
             (~ scanned x /\ In x (rep_notDelivered rep))).
Proof.
  intros H known scanned.
  destruct (reconcile_Ok _ _ _ _ _ H) as (ids & planned & st & Hids & _ & Hst & _ & ->).
  destruct (not_delivered_of_spec ids (delivered_orders st)) as (Hin & Hsorted & Hnodup).
  destruct (scan_loop strptime _ _ _ _ _ _ Hst) as [Hdel _].
  pose proof (order_ids_of_Ok _ _ Hids) as Hknown.
  assert (Hd : forall x, x ∈ delivered_orders st <-> scanned x).
  { intros x. rewrite Hdel. simpl. split; [intros [?%not_elem_of_empty|]|]; tauto. }
  assert (Hmem : forall x, In x (not_delivered_of ids (delivered_orders st)) <->
                           known x /\ ~ scanned x).
  { intros x. rewrite Hin, Hknown, Hd. reflexivity. }
  split; [exact Hmem|]. split; [exact Hsorted|]. split; [exact Hnodup|].
  intros x Hx. destruct (decide (x ∈ delivered_orders st)) as [Hy|Hn].
  - left. apply Hd in Hy. split; [assumption|]. rewrite Hmem. tauto.
  - right. rewrite Hd in Hn. split; [assumption|]. apply Hmem. auto.
Qed.


End ReconcileClaims.

(** ** [reconcile]: the other lists of the report *)

Section ReconcileMore.
Context {FO : FloatOps}.
Implicit Types (st : scan_state) (ids : gset string) (orders_l log_l : list value).

(** [sorted(set(xs))] is in order and has nothing twice. *)
Lemma sorted_set_spec (xs : list string) :
  Sorted (fun a b => String.leb a b = true) (sorted_set xs) /\ NoDup (sorted_set xs).
Proof.
  unfold sorted_set. split.
  - eapply Sorted_weaken; [exact string_leb_of_ltb|].
    apply sorted_by_Sorted; [apply string_ltb_irrefl|apply string_ltb_trans].
  - apply NoDup_ListNoDup.
    eapply Permutation_NoDup; [symmetry; apply sorted_by_perm|].
    apply NoDup_ListNoDup, NoDup_elements.
Qed.

Lemma sorted_set_nil : sorted_set [] = [].
Proof. unfold sorted_set. simpl. now rewrite elements_empty. Qed.

(** The identifier read from a scan row has capitals, digits and hyphens
    only. *)
Lemma scan_oid_chars (row : value) (x : string) :
  scan_oid row = Ok x -> string_forall scan_id_char x = true.
Proof.
  unfold scan_oid. intros H.
  apply bind_Ok in H as (v & _ & H). apply bind_Ok in H as (s & Hs & H).
  injection H as <-. destruct (py_or v (VStr "")); try discriminate.
  simpl in Hs. injection Hs as <-. apply scan_id_chars.
Qed.

Lemma scanned_id_cons (row : value) log_l (oid x : string) :
  scan_oid row = Ok oid ->
  scanned_id (row :: log_l) x <-> (x = oid /\ x <> "") \/ scanned_id log_l x.
Proof.
  intros Ho. unfold scanned_id. split.
  - intros (r & [<-|Hr] & Hs & Hx).
    + left. rewrite Ho in Hs. injection Hs as ->. auto.
    + right. exists r. auto.
  - intros [[-> Hx]|(r & Hr & Hs & Hx)].
    + exists row. split; [now left|auto].
    + exists r. split; [now right|auto].
Qed.

Lemma scanned_id_nil (x : string) : ~ scanned_id [] x.
Proof. intros (r & [] & _). Qed.

(** The order [next(...)] finds is an order of the list with that
    identifier. *)
Lemma find_order_Some orders_l (x : string) (o : value) :
  find_order orders_l x = Ok (Some o) ->
  In o orders_l /\ subscript o "orderid" = Ok (VStr x).
Proof.
  induction orders_l as [|o' orders_l IH]; simpl; [discriminate|].
  intros H. apply bind_Ok in H as (v & Hv & H).
  destruct (value_eq_str v x) eqn:E.
  - injection H as <-. apply value_eq_str_true in E. subst v. auto.
  - destruct (IH H). auto.
Qed.

Variable strptime : string -> option Z.

(** When a scan is late: its order has a deadline, the scan has a time,
    both are dates, and the second is after the first. *)
Lemma is_late_true (order : option value) (ts : string) :
  is_late strptime order ts = Ok true <->
  exists o deadline due delivered,
    order = Some o /\ get o "deadline" VNone = Ok (VStr deadline) /\
    deadline <> "" /\ ts <> "" /\
    strptime deadline = Some due /\ strptime ts = Some delivered /\ due < delivered.
Proof.
  unfold is_late. split.
  - destruct order as [o|]; [|discriminate].
    destruct (truthy o); [|discriminate]. intros H.
    apply bind_Ok in H as (dl & Hdl & H).
    destruct (truthy dl && negb (blank ts)) eqn:T; [|discriminate].
    apply andb_prop in T as [T1 T2].
    destruct dl as [ | | | |deadline| | ]; try discriminate.
    destruct (strptime deadline) as [due|] eqn:D; [|discriminate].
    destruct (strptime ts) as [delivered|] eqn:S; [|discriminate].
    injection H as H. apply Z.ltb_lt in H.
    exists o, deadline, due, delivered. repeat split; auto.
    + intros ->. discriminate.
    + intros ->. discriminate.
  - intros (o & deadline & due & delivered & -> & Hdl & Nd & Nt & D & S & Hlt).
    assert (To : truthy o = true).
    { destruct o as [ | | | | | |d]; try discriminate. simpl in Hdl.
      unfold dict_get in Hdl. destruct d; [discriminate|reflexivity]. }
    rewrite To, Hdl. cbn [bind]. simpl.
    destruct deadline; [congruence|]. destruct ts; [congruence|]. simpl.
    rewrite D, S. f_equal. now apply Z.ltb_lt.
Qed.

(** What one scan row does to the whole loop state. *)
Lemma reconcile_row_full ids (planned : list (string * value)) orders_l st
  (row : value) st' :
  reconcile_row strptime ids planned orders_l st row = Ok st' ->
  exists oid ts,
    scan_oid row = Ok oid /\ scan_field row "deliveredat" = Ok ts /\
    ((oid = "" /\ st' = st) \/
     (oid <> "" /\
      exists order is_l,
        find_order orders_l oid = Ok order /\ is_late strptime order ts = Ok is_l /\
        unexpected st' =
          (if decide (oid ∈ ids) then unexpected st else unexpected st ++ [oid]) /\
        duplicate st' =
          (if decide (oid ∈ seen_scan st) then duplicate st ++ [oid] else duplicate st) /\
        (forall x, x ∈ seen_scan st' <-> x ∈ seen_scan st \/ x = oid) /\
        late st' = (if is_l then late st ++ [oid] else late st))).
Proof.
  unfold reconcile_row. intros H.
  apply bind_Ok in H as (oid & Ho & H). apply bind_Ok in H as (cid & _ & H).
  apply bind_Ok in H as (ts & Hts & H).
  exists oid, ts. split; [exact Ho|]. split; [exact Hts|].
  destruct (blank oid) eqn:B.
  - left. apply blank_true in B. injection H as <-. auto.
  - right. split; [intros ->; discriminate|].
    apply bind_Ok in H as (order & Hord & H). apply bind_Ok in H as (is_l & Hl & H).
    injection H as <-. exists order, is_l. simpl.
    repeat split; auto.
    + destruct (decide (oid ∈ seen_scan st)); [auto|].
      intros [?| ->%elem_of_singleton]%elem_of_union; auto.
    + destruct (decide (oid ∈ seen_scan st)) as [Hin|Hin].
      * intros [?| ->]; assumption.
      * intros [?| ->]; apply elem_of_union; [now left|right; now apply elem_of_singleton].
Qed.

(** The identifiers seen, after the loop over the rows. *)
Lemma seen_loop ids (planned : list (string * value)) orders_l log_l :
  forall st st',
    foldM (reconcile_row strptime ids planned orders_l) log_l st = Ok st' ->
    forall x, x ∈ seen_scan st' <-> x ∈ seen_scan st \/ scanned_id log_l x.
Proof.
  induction log_l as [|row log_l IH]; intros st st' H x; simpl in H.
  - injection H as <-. split; [auto|]. intros [?|?%scanned_id_nil]; [assumption|tauto].
  - apply bind_Ok in H as (st1 & Hrow & H). rewrite (IH _ _ H x). clear IH H.
    destruct (reconcile_row_full _ _ _ _ _ _ Hrow) as (oid & ts & Ho & _ & Hcase).
    rewrite (scanned_id_cons _ _ _ x Ho).
    destruct Hcase as [[-> ->]|(Hne & order & is_l & _ & _ & _ & _ & Hseen & _)].
    + split; [intros [?|?]; auto|]. intros [?|[[-> Hx]|?]]; auto. congruence.
    + rewrite Hseen. split.
      * intros [[?| ->]|?]; auto.
      * intros [?|[[-> _]|?]]; auto.
Qed.

(** The identifiers found unexpected. *)
Lemma unexpected_loop ids (planned : list (string * value)) orders_l log_l :
  forall st st',
    foldM (reconcile_row strptime ids planned orders_l) log_l st = Ok st' ->
    forall x, In x (unexpected st') <->
              In x (unexpected st) \/ (scanned_id log_l x /\ x ∉ ids).
Proof.
  induction log_l as [|row log_l IH]; intros st st' H x; simpl in H.
  - injection H as <-. split; [auto|]. intros [?|[?%scanned_id_nil _]]; [assumption|tauto].
  - apply bind_Ok in H as (st1 & Hrow & H). rewrite (IH _ _ H x). clear IH H.
    destruct (reconcile_row_full _ _ _ _ _ _ Hrow) as (oid & ts & Ho & _ & Hcase).
    rewrite (scanned_id_cons _ _ _ x Ho).
    destruct Hcase as [[-> ->]|(Hne & order & is_l & _ & _ & -> & _)].
    + split; [intros [?|[? ?]]; auto|]. intros [?|[[[-> Hx]|?] ?]]; auto. congruence.
    + destruct (decide (oid ∈ ids)) as [Hin|Hin].
      * split; [intros [?|[? ?]]; auto|].
        intros [?|[[[-> Hx]|?] ?]]; auto. contradiction.
      * rewrite in_app_iff. simpl. split.
        -- intros [[?|[<-|[]]]|[? ?]]; auto.
        -- intros [?|[[[-> Hx]|?] ?]]; auto.
Qed.

(** The identifiers found scanned again. *)
Lemma duplicate_loop ids (planned : list (string * value)) orders_l log_l :
  forall st st',
    foldM (reconcile_row strptime ids planned orders_l) log_l st = Ok st' ->
    forall x, In x (duplicate st') <->
              In x (duplicate st) \/
              exists pre row post,
                log_l = pre ++ row :: post /\ scan_oid row = Ok x /\ x <> "" /\
                (x ∈ seen_scan st \/ scanned_id pre x).
Proof.
  induction log_l as [|row log_l IH]; intros st st' H x; simpl in H.
  - injection H as <-. split; [auto|].
    intros [?|(pre & ? & ? & E & _)]; [assumption|]. destruct pre; discriminate.
  - apply bind_Ok in H as (st1 & Hrow & H). rewrite (IH _ _ H x). clear IH H.
    destruct (reconcile_row_full _ _ _ _ _ _ Hrow) as (oid & ts & Ho & _ & Hcase).
    destruct Hcase as [[-> ->]|(Hne & order & is_l & _ & _ & _ & -> & Hseen & _)].
    + split.
      * intros [?|(pre & r & post & -> & Hr & Hx & Hs)]; [now left|].
        right. exists (row :: pre), r, post. repeat split; auto.
        destruct Hs as [?|?]; [now left|right].
        apply (scanned_id_cons _ _ _ x Ho). now right.
      * intros [?|(pre & r & post & E & Hr & Hx & Hs)]; [now left|].
        destruct pre as [|r0 pre]; simpl in E; injection E as <- ->.
        -- rewrite Ho in Hr. congruence.
        -- right. exists pre, r, post. repeat split; auto.
           destruct Hs as [?|Hs]; [now left|right].
           apply (scanned_id_cons _ _ _ x Ho) in Hs as [[-> ?]|?]; [congruence|assumption].
    + split.
      * intros [Hin|(pre & r & post & -> & Hr & Hx & Hs)].
        -- destruct (decide (oid ∈ seen_scan st)) as [Hs|Hs]; [|now left].
           apply in_app_iff in Hin as [?|[<-|[]]]; [now left|].
           right. exists [], row, log_l. repeat split; auto.
        -- right. exists (row :: pre), r, post. repeat split; auto.
           destruct Hs as [Hs|Hs].
           ++ apply Hseen in Hs as [?| ->]; [now left|right].
              apply (scanned_id_cons _ _ _ oid Ho). now left.
           ++ right. apply (scanned_id_cons _ _ _ x Ho). now right.
      * intros [Hin|(pre & r & post & E & Hr & Hx & Hs)].
        -- left. destruct (decide (oid ∈ seen_scan st)); [|assumption].
           apply in_app_iff. now left.
        -- destruct pre as [|r0 pre]; simpl in E; injection E as <- ->.
           ++ rewrite Ho in Hr. injection Hr as ->. left.
              destruct Hs as [Hs|Hs%scanned_id_nil]; [|tauto].
              destruct (decide (x ∈ seen_scan st)); [|contradiction].
              apply in_app_iff. right. now left.
           ++ right. exists pre, r, post. repeat split; auto.
              destruct Hs as [Hs|Hs].
              ** left. apply Hseen. now left.
              ** apply (scanned_id_cons _ _ _ x Ho) in Hs as [[-> _]|?]; [|now right].
                 left. apply Hseen. now right.
Qed.

(** The identifiers found late. *)
Lemma late_loop ids (planned : list (string * value)) orders_l log_l :
  forall st st',
    foldM (reconcile_row strptime ids planned orders_l) log_l st = Ok st' ->
    forall x, In x (late st') <->
              In x (late st) \/
              exists row ts order,
                In row log_l /\ scan_oid row = Ok x /\ x <> "" /\
                scan_field row "deliveredat" = Ok ts /\
                find_order orders_l x = Ok order /\
                is_late strptime order ts = Ok true.
Proof.
  induction log_l as [|row log_l IH]; intros st st' H x; simpl in H.
  - injection H as <-. split; [auto|]. intros [?|(? & ? & ? & [] & _)]. assumption.
  - apply bind_Ok in H as (st1 & Hrow & H). rewrite (IH _ _ H x). clear IH H.
    destruct (reconcile_row_full _ _ _ _ _ _ Hrow) as (oid & ts & Ho & Hts & Hcase).
    destruct Hcase as [[-> ->]|(Hne & order & is_l & Hord & Hl & _ & _ & _ & ->)].
    + split.
      * intros [?|(r & t & o & ? & ?)]; [now left|].
        right. exists r, t, o. split; [now right|assumption].
      * intros [?|(r & t & o & [<-|?] & Hr & Hx & ?)]; [now left| |].
        -- rewrite Ho in Hr. congruence.
        -- right. exists r, t, o. repeat (split; [assumption|]); assumption.
    + split.
      * intros [Hin|(r & t & o & ? & ?)].
        -- destruct is_l; [|now left].
           apply in_app_iff in Hin as [?|[<-|[]]]; [now left|].
           right. exists row, ts, order. split; [now left|auto].
        -- right. exists r, t, o. split; [now right|assumption].
      * intros [Hin|(r & t & o & [<-|?] & Hr & Hx & Ht & Hf & Hlate)].
        -- left. destruct is_l; [|assumption]. apply in_app_iff. now left.
        -- rewrite Ho in Hr. injection Hr as ->. rewrite Hts in Ht. injection Ht as ->.
           rewrite Hord in Hf. injection Hf as ->. rewrite Hl in Hlate.
           injection Hlate as ->. left. apply in_app_iff. right. now left.
        -- right. exists r, t, o. repeat (split; [assumption|]); assumption.
Qed.

(** The report, list by list. *)
Lemma reconcile_report (assignments orders log_rows couriers : list value)
  (rep : report) :
  reconcile strptime assignments orders log_rows couriers = Ok rep ->
  exists ids planned st,
    order_ids_of (map normalize_keys orders) = Ok ids /\
    planned_by_order_of (map normalize_keys assignments) = Ok planned /\
    foldM (reconcile_row strptime ids planned (map normalize_keys orders))
          (map normalize_keys log_rows) scan_start = Ok st /\
    rep = {| rep_unexpected := sorted_set (unexpected st);
             rep_misassigned := sorted_set (misassigned st);
             rep_late := sorted_set (late st);
             rep_duplicate := sorted_set (duplicate st);
             rep_notDelivered := not_delivered_of ids (delivered_orders st) |}.
Proof.
  unfold reconcile. intros H.
  apply bind_Ok in H as (ids & Hids & H).
  apply bind_Ok in H as (planned & Hpl & H).
  apply bind_Ok in H as (st & Hst & H). injection H as <-.
  exists ids, planned, st. auto.
Qed.

(** X19. The lists [unexpected], [misassigned], [late] and [duplicate] of
    the report are in lexicographic order and name no identifier twice,
    however often it was scanned. *)
Theorem report_lists_sorted (assignments orders log_rows couriers : list value)
  (rep : report) :
  reconcile strptime assignments orders log_rows couriers = Ok rep ->
  Forall (fun l => Sorted (fun a b => String.leb a b = true) l /\ NoDup l)
         [rep_unexpected rep; rep_misassigned rep; rep_late rep; rep_duplicate rep].
Proof.
  intros H. destruct (reconcile_report _ _ _ _ _ H) as (ids & planned & st & _ & _ & _ & ->).
  simpl. repeat constructor; apply sorted_set_spec.
Qed.

(** X20. An identifier is reported as unexpected exactly when it is the
    non-blank identifier read from some scan row and is not the identifier
    of any order. *)
Theorem unexpected_rule (assignments orders log_rows couriers : list value)
  (rep : report) :
  reconcile strptime assignments orders log_rows couriers = Ok rep ->
  forall x, In x (rep_unexpected rep) <->
            scanned_id (map normalize_keys log_rows) x /\
            ~ known_id (map normalize_keys orders) x.
Proof.
  intros H x.
  destruct (reconcile_report _ _ _ _ _ H) as (ids & planned & st & Hids & _ & Hst & ->).
  simpl. rewrite sorted_set_In, (unexpected_loop _ _ _ _ _ _ Hst x).
  rewrite (order_ids_of_Ok _ _ Hids x). simpl. split; [intros [[]|?]|]; auto.
Qed.

(** X21. An identifier is reported as duplicate exactly when it is the
    non-blank identifier read from a scan row that comes after another row
    with the same identifier. *)
Theorem duplicate_rule (assignments orders log_rows couriers : list value)
  (rep : report) :
  reconcile strptime assignments orders log_rows couriers = Ok rep ->
  forall x, In x (rep_duplicate rep) <->
            exists pre row post,
              map normalize_keys log_rows = pre ++ row :: post /\
              scan_oid row = Ok x /\ x <> "" /\ scanned_id pre x.
Proof.
  intros H x.
  destruct (reconcile_report _ _ _ _ _ H) as (ids & planned & st & _ & _ & Hst & ->).
  simpl. rewrite sorted_set_In, (duplicate_loop _ _ _ _ _ _ Hst x). simpl. split.
  - intros [[]|(pre & r & post & E & Hr & Hx & [Hs%not_elem_of_empty|Hs])]; [tauto|].
    exists pre, r, post. auto.
  - intros (pre & r & post & E & Hr & Hx & Hs). right. exists pre, r, post. auto.
Qed.

(** X23. A scan can only match an identifier made of capitals, digits and
    hyphens: every identifier in [unexpected], [misassigned], [late] and
    [duplicate] has these characters only, and an order whose identifier
    has any other character (a small letter, a space inside, a dot) is
    reported in [notDelivered] whatever the log holds. *)
Theorem scan_identifier_form (assignments orders log_rows couriers : list value)
  (rep : report) :
  reconcile strptime assignments orders log_rows couriers = Ok rep ->
  (forall x, In x (rep_unexpected rep ++ rep_misassigned rep ++
                   rep_late rep ++ rep_duplicate rep) ->
             string_forall scan_id_char x = true) /\
  (forall x, known_id (map normalize_keys orders) x ->
             string_forall scan_id_char x = false ->
             In x (rep_notDelivered rep)).
Proof.
  intros H.
  destruct (reconcile_report _ _ _ _ _ H) as (ids & planned & st & Hids & _ & Hst & ->).
  simpl. split.
  - intros x. rewrite !in_app_iff, !sorted_set_In.
    rewrite (unexpected_loop _ _ _ _ _ _ Hst x), (late_loop _ _ _ _ _ _ Hst x),
      (duplicate_loop _ _ _ _ _ _ Hst x).
    destruct (scan_loop strptime _ _ _ _ _ _ Hst) as [_ Hmis]. rewrite Hmis. simpl.
    intros [[[]|[(r & _ & Hr & _) _]]
           |[[[]|(r & c & _ & Hr & _)]
            |[[[]|(r & t & o & _ & Hr & _)]
             |[[]|(pre & r & post & _ & Hr & _)]]]];
      apply (scan_oid_chars _ _ Hr).
  - intros x Hknown Hform.
    apply not_delivered_of_spec. split; [now apply (order_ids_of_Ok _ _ Hids)|].
    destruct (scan_loop strptime _ _ _ _ _ _ Hst) as [Hdel _]. rewrite Hdel. simpl.
    intros [?%not_elem_of_empty|(r & _ & Hr & _)]; [assumption|].
    rewrite (scan_oid_chars _ _ Hr) in Hform. discriminate.
Qed.

(** X24. The lists of the report fit together: an identifier reported as
    unexpected, misassigned, late or duplicate was scanned, so it is not in
    [notDelivered]; and a late identifier is the identifier of an order, so
    it is not unexpected. *)
Theorem report_consistent (assignments orders log_rows couriers : list value)
  (rep : report) :
  reconcile strptime assignments orders log_rows couriers = Ok rep ->
  (forall x, In x (rep_unexpected rep ++ rep_misassigned rep ++
                   rep_late rep ++ rep_duplicate rep) ->
             scanned_id (map normalize_keys log_rows) x /\
             ~ In x (rep_notDelivered rep)) /\
  (forall x, In x (rep_late rep) ->
             known_id (map normalize_keys orders) x /\ ~ In x (rep_unexpected rep)).
Proof.
  intros H.
  destruct (reconcile_report _ _ _ _ _ H) as (ids & planned & st & Hids & _ & Hst & ->).
  simpl.
  destruct (scan_loop strptime _ _ _ _ _ _ Hst) as [Hdel Hmis].
  assert (Hscanned : forall x,
            In x (sorted_set (unexpected st) ++ sorted_set (misassigned st) ++
                  sorted_set (late st) ++ sorted_set (duplicate st)) ->
            scanned_id (map normalize_keys log_rows) x).
  { intros x. rewrite !in_app_iff, !sorted_set_In.
    rewrite (unexpected_loop _ _ _ _ _ _ Hst x), (late_loop _ _ _ _ _ _ Hst x),
      (duplicate_loop _ _ _ _ _ _ Hst x), Hmis. simpl.
    intros [[[]|[? _]]
           |[[[]|(r & c & Hin & Hr & Hx & _)]
            |[[[]|(r & t & o & Hin & Hr & Hx & _)]
             |[[]|(pre & r & post & E & Hr & Hx & _)]]]]; try assumption.
    - exists r. auto.
    - exists r. auto.
    - exists r. split; [|auto]. rewrite E. apply in_or_app. right. now left. }
  split.
  - intros x Hx. specialize (Hscanned x Hx). split; [exact Hscanned|].
    intros [_ Hnot]%not_delivered_of_spec. apply Hnot, Hdel. now right.
  - intros x. rewrite !sorted_set_In, (late_loop _ _ _ _ _ _ Hst x),
      (unexpected_loop _ _ _ _ _ _ Hst x). simpl.
    intros [[]|(r & t & o & Hin & Hr & Hx & Ht & Hf & Hl)].
    apply is_late_true in Hl as (o' & _ & _ & _ & -> & _).
    apply find_order_Some in Hf as [Ho Hid].
    assert (K : known_id (map normalize_keys orders) x) by (exists o'; auto).
    split; [exact K|]. intros [[]|[_ Hnot]]. apply Hnot.
    now apply (order_ids_of_Ok _ _ Hids).
Qed.

End ReconcileMore.

(** ** The run: it completes, and decides every cleaned order once *)

Lemma filterM_total {A} (p : A -> result bool) (xs : list A) :
  (forall x, In x xs -> exists b, p x = Ok b) -> exists r, filterM p xs = Ok r.
Proof.
  induction xs as [|x xs IH]; intros H; simpl; [eauto|].
  destruct (H x) as [b Hb]; [now left|]. rewrite Hb. simpl.
  destruct IH as [r Hr]; [intros; apply H; now right|]. rewrite Hr. simpl. eauto.
Qed.

Section RunMore.
Context {FO : FloatOps}.
Implicit Types (st : plan_state) (cs couriers orders : list value).

Lemma converts_Ok (v : value) :
  converts v = true -> exists w, py_float (py_or v (VInt 0)) = Ok w.
Proof. unfold converts. destruct (py_float _); try discriminate. eauto. Qed.

(** A weight [float] reads has no key to put in lower case. *)
Lemma converts_fixed (v : value) : converts v = true -> normalize_keys v = v.
Proof.
  unfold converts, py_or. destruct v as [ | | | | |l|d]; try reflexivity.
  - destruct l; [reflexivity|]. simpl. discriminate.
  - destruct d; [reflexivity|]. simpl. discriminate.
Qed.

Lemma normalized_order_fixed (o : value) :
  normalized_order o -> normalize_keys o = o.
Proof.
  intros (id & c0 & p & pt & w & dl & a & -> & Hw).
  change (normalize_keys (clean_order id c0 p pt w dl a))
    with (clean_order id c0 p pt (normalize_keys w) dl a).
  now rewrite converts_fixed.
Qed.

Lemma normalized_orders_fixed orders :
  Forall normalized_order orders -> map normalize_keys orders = orders.
Proof.
  intros H. rewrite <- (map_id orders) at 2. apply map_ext_in.
  intros o Ho. apply normalized_order_fixed.
  rewrite Forall_forall in H. apply H. now apply list_elem_of_In.
Qed.

(** The locals read from a normalised order. *)
Lemma read_order_normalized (o : value) :
  normalized_order o ->
  exists v id c0,
    read_order o = Ok v /\ oid v = VStr id /\ city v = VStr c0 /\
    subscript o "orderid" = Ok (VStr id) /\
    exists pt, get o "producttype" (VStr "") = Ok (VStr pt).
Proof.
  intros (id & c0 & p & pt & w & dl & a & -> & Hw).
  destruct (converts_Ok _ Hw) as [wf Hwf].
  exists {| oid := VStr id; city := VStr c0; payment := lower p; product := lower pt;
            weight := wf |}, id, c0.
  split; [|repeat split; eauto].
  unfold read_order, clean_order.
  cbn [subscript get dict_get alist_get String.eqb Ascii.eqb Bool.eqb bind].
  rewrite Hwf. cbn [bind]. unfold py_or. simpl truthy.
  destruct p, pt; reflexivity.
Qed.

(** What the planner reads from a courier record of the expected shape. *)
Lemma courier_fields_Ok (d : list (string * value)) :
  courier_fields d = true ->
  (exists cid, subscript (VDict d) "courierid" = Ok (VStr cid)) /\
  (exists p, priority_key (VDict d) = Ok p) /\
  (forall x, exists b,
      (zones <- get (VDict d) "zonescovered" (VList []) ;; py_in (VStr x) zones) = Ok b) /\
  (exists names, excluded_names (VDict d) = Ok names) /\
  (exists cap, daily_capacity (VDict d) = Ok cap).
Proof.
  unfold courier_fields. intros H.
  apply andb_prop in H as [H Hcap]. apply andb_prop in H as [H Hex].
  apply andb_prop in H as [H Hz]. apply andb_prop in H as [Hid Hp].
  split; [|split; [|split; [|split]]].
  - simpl. destruct (alist_get "courierid" d) as [[]|]; try discriminate. eauto.
  - unfold priority_key. simpl. unfold dict_get.
    destruct (alist_get "priority" d) as [[]|]; try discriminate; simpl; eauto.
  - intros x. simpl. unfold dict_get.
    destruct (alist_get "zonescovered" d) as [[]|]; try discriminate; simpl; eauto.
  - unfold excluded_names. simpl. unfold dict_get.
    destruct (alist_get "exclusions" d) as [[ | | | | |l| ]|]; try discriminate; simpl;
      [|eauto].
    rewrite forallb_forall in Hex.
    destruct (mapM_total (fun e => s <- py_str e ;; Ok (lower s)) l) as [names Hn];
      [|eauto].
    intros e He. specialize (Hex e He). destruct e; try discriminate. simpl. eauto.
  - unfold daily_capacity. simpl. now apply converts_Ok.
Qed.

(** The four filters return on couriers of the expected shape that have
    an entry in the usage mapping. *)
Lemma survivors_total cs (usage : list (string * pyfloat)) (v : order_view)
  (x : string) :
  (forall c, In c cs -> exists d, c = VDict d /\ courier_fields d = true) ->
  (forall c, In c cs -> exists u, usage_of usage c = Ok u) ->
  city v = VStr x ->
  exists survivors, survivors_of cs usage v = Ok survivors.
Proof.
  intros Hcs Hu Hcity. unfold survivors_of.
  destruct (filterM_total
              (fun c => zones <- get c "zonescovered" (VList []) ;; py_in (city v) zones) cs)
    as [in_zone Hz].
  { intros c Hc. destruct (Hcs c Hc) as (d & -> & Hd). rewrite Hcity.
    now destruct (courier_fields_Ok d Hd) as (_ & _ & Z & _). }
  unfold in_zone_of. rewrite Hz. cbn [bind].
  assert (I1 : forall c, In c in_zone -> In c cs)
    by (intros c Hc; now destruct (filterM_In _ _ _ _ Hz Hc)).
  destruct (filterM_total
              (fun c => if negb (String.eqb (payment v) "cod") then Ok true
                        else (a <- get c "acceptscod" (VBool false) ;; Ok (truthy a)))
              in_zone) as [cod_ok Hc].
  { intros c Hc. destruct (Hcs c (I1 c Hc)) as (d & -> & _).
    destruct (negb (String.eqb (payment v) "cod")); simpl; eauto. }
  unfold cod_ok_of. rewrite Hc. cbn [bind].
  assert (I2 : forall c, In c cod_ok -> In c cs)
    by (intros c Hin; apply I1; now destruct (filterM_In _ _ _ _ Hc Hin)).
  destruct (filterM_total
              (fun c => names <- excluded_names c ;;
                        Ok (negb (existsb (String.eqb (product v)) names)))
              cod_ok) as [excl_ok He].
  { intros c Hin. destruct (Hcs c (I2 c Hin)) as (d & -> & Hd).
    destruct (courier_fields_Ok d Hd) as (_ & _ & _ & [names ->] & _). simpl. eauto. }
  unfold excl_ok_of. rewrite He. cbn [bind].
  assert (I3 : forall c, In c excl_ok -> In c cs)
    by (intros c Hin; apply I2; now destruct (filterM_In _ _ _ _ He Hin)).
  apply filterM_total. intros c Hin.
  destruct (Hu c (I3 c Hin)) as [u ->].
  destruct (Hcs c (I3 c Hin)) as (d & -> & Hd).
  destruct (courier_fields_Ok d Hd) as (_ & _ & _ & _ & [cap ->]). simpl. eauto.
Qed.

(** One order is planned without error, and every courier keeps its entry
    in the usage mapping. *)
Lemma plan_step_total cs st (o : value) :
  (forall c, In c cs -> exists d, c = VDict d /\ courier_fields d = true) ->
  (forall c, In c cs -> exists u, usage_of (capacity_usage st) c = Ok u) ->
  normalized_order o ->
  exists st', plan_step cs st o = Ok st' /\
              forall c, In c cs -> exists u, usage_of (capacity_usage st') c = Ok u.
Proof.
  intros Hcs Hu Ho.
  destruct (read_order_normalized o Ho) as (v & id & c0 & Hv & Hoid & Hcity & _ & pt & Hpt).
  destruct (survivors_total cs (capacity_usage st) v c0 Hcs Hu Hcity) as [survivors Hs].
  destruct (chain_cases _ _ _ _ Hs) as [[-> [s Hfe]]|Hne].
  - rewrite (first_empty_step _ _ _ _ _ Hv Hfe).
    assert (Hr : exists reason, reason_of s o = Ok reason).
    { destruct s; simpl; eauto. rewrite Hpt. simpl. eauto. }
    destruct Hr as [reason ->]. cbn [bind]. rewrite reject_eq, Hoid. simpl.
    eexists. split; [reflexivity|]. exact Hu.
  - rewrite (survivors_step _ _ _ _ _ Hv Hs Hne).
    destruct (choose_total (capacity_usage st) survivors Hne) as [chosen Hch].
    { intros c Hc. destruct (survivors_In _ _ _ _ _ Hs Hc) as (Hin & u & _ & Hcu & _).
      destruct (Hcs c Hin) as (d & -> & Hd).
      destruct (courier_fields_Ok d Hd) as (_ & [p Hp] & _).
      exists (u, p). now apply selection_key_Ok. }
    rewrite Hch. cbn [bind].
    destruct (choose_In _ _ _ Hch) as [Hin _].
    destruct (survivors_In _ _ _ _ _ Hs Hin) as (_ & u & _ & Hcu & _).
    apply usage_of_Ok in Hcu as (cid & Hid & Hget).
    rewrite (assign_Ok _ _ _ _ _ _ Hid Hget).
    eexists. split; [reflexivity|]. simpl.
    intros c Hc. destruct (Hu c Hc) as [u' Hu'].
    apply usage_of_Ok in Hu' as (cid' & Hid' & Hget').
    destruct (String.eqb_spec cid cid') as [->|Hneq].
    + exists (f_add u (weight v)). apply usage_of_Ok. exists cid'.
      split; [assumption|apply alist_get_set_eq].
    + exists u'. apply usage_of_Ok. exists cid'.
      split; [assumption|]. now rewrite alist_get_set_ne.
Qed.

(** [plan_assignments] returns on normalised orders and couriers of the
    expected shape. *)
Lemma plan_assignments_total orders couriers :
  Forall normalized_order orders ->
  Forall (fun c => courier_record c = true) couriers ->
  exists st, plan_assignments orders couriers = Ok st.
Proof.
  intros Ho Hc. unfold plan_assignments. rewrite (normalized_orders_fixed _ Ho).
  rewrite Forall_forall in Ho, Hc.
  assert (Hshape : forall c, In c (map normalize_keys couriers) ->
                     exists d, c = VDict d /\ courier_fields d = true).
  { intros c (c0 & <- & Hin)%in_map_iff.
    specialize (Hc c0 (proj2 (list_elem_of_In _ _) Hin)). unfold courier_record in Hc.
    destruct (normalize_keys c0); try discriminate. eauto. }
  destruct (foldM_total
              (fun d c => cid_v <- subscript c "courierid" ;;
                          cid <- as_key cid_v ;; Ok (alist_set cid f_zero d))
              (map normalize_keys couriers)) with (s := ([] : list (string * pyfloat)))
    as [usage Husage].
  { intros acc c Hin. destruct (Hshape c Hin) as (d & -> & Hd).
    destruct (courier_fields_Ok d Hd) as ([cid ->] & _). simpl. eauto. }
  unfold initial_usage. rewrite Husage. cbn [bind].
  destruct (keyed_total priority_key (map normalize_keys couriers)) as [keyed Hk].
  { intros c Hin. destruct (Hshape c Hin) as (d & -> & Hd).
    now destruct (courier_fields_Ok d Hd) as (_ & P & _). }
  assert (Hsort : sort_by_priority (map normalize_keys couriers)
                  = Ok (sorted_on Z.ltb keyed))
    by (unfold sort_by_priority; now rewrite Hk).
  rewrite Hsort. cbn [bind].
  pose proof (sort_by_priority_Ok _ _ Hsort) as Hcs.
  destruct (initial_usage_Ok _ _ Husage) as [_ Hinit].
  unfold plan_loop.
  destruct (foldM_total_invariant (plan_step (sorted_on Z.ltb keyed))
              (fun st => forall c, In c (sorted_on Z.ltb keyed) ->
                                   exists u, usage_of (capacity_usage st) c = Ok u)
              orders)
    with (s := {| assignments := []; unassigned := []; capacity_usage := usage;
                  unassigned_reasons := [] |})
    as (st & Hst & _).
  - intros st0 o Hin Hinv. apply plan_step_total; auto.
    + intros c Hc0. apply Hshape. now apply Hcs.
    + apply Ho. now apply list_elem_of_In.
  - simpl. intros c Hc0. exists f_zero. apply Hinit. now apply Hcs.
  - eauto.
Qed.

(** The entries of a plan for normalised orders pair two texts. *)
Lemma assignments_texts orders couriers st :
  Forall normalized_order orders ->
  plan_assignments orders couriers = Ok st ->
  forall a, In a (assignments st) ->
            exists id cid, a = assignment_of (VStr id, VStr cid).
Proof.
  intros Ho. unfold plan_assignments, plan_loop.
  rewrite (normalized_orders_fixed _ Ho). intros H.
  apply bind_Ok in H as (usage & _ & H). apply bind_Ok in H as (cs & _ & H).
  revert H.
  apply (foldM_invariant (plan_step cs)
           (fun st => forall a, In a (assignments st) ->
                                exists id cid, a = assignment_of (VStr id, VStr cid))).
  - intros st0 o st1 Hin Hinv Hstep a Ha.
    rewrite Forall_forall in Ho. specialize (Ho o (proj2 (list_elem_of_In _ _) Hin)).
    destruct (read_order_normalized o Ho) as (v & id & c0 & Hv & Hoid & _).
    destruct (plan_step_cases _ _ _ _ Hstep) as (v' & Hv' & Hcase).
    rewrite Hv in Hv'. injection Hv' as <-.
    destruct Hcase as [(s & reason & k & _ & _ & _ & ->)
                      |(survivors & chosen & cid & u & _ & _ & _ & _ & ->)];
      simpl in Ha; [now apply Hinv|].
    apply in_app_iff in Ha as [Ha|[<-|[]]]; [now apply Hinv|].
    rewrite Hoid. exists id, cid. reflexivity.
  - intros a [].
Qed.

(** [(row.get(k) or "")] is a text when the cell is a text or missing. *)
Lemma cell_text (d : list (string * value)) (k : string) :
  text_or_null d k = true -> exists s, py_or (dict_get d k VNone) (VStr "") = VStr s.
Proof.
  unfold text_or_null, dict_get, py_or.
  destruct (alist_get k d) as [[]|]; try discriminate; intros _; simpl; eauto.
  destruct (negb (blank s)); eauto.
Qed.

Lemma find_order_total orders (x : string) :
  Forall normalized_order orders ->
  exists r, find_order orders x = Ok r /\
            (r = None \/ exists o, r = Some o /\ normalized_order o).
Proof.
  induction 1 as [|o orders Ho _ IH]; simpl; [eauto|].
  destruct (read_order_normalized o Ho) as (_ & id & _ & _ & _ & _ & -> & _).
  cbn [bind]. destruct (value_eq_str (VStr id) x); [|exact IH].
  eexists. split; [reflexivity|]. right. eauto.
Qed.

Variable strptime : string -> option Z.

Lemma is_late_total (order : option value) (ts : string) :
  (order = None \/ exists o, order = Some o /\ normalized_order o) ->
  exists b, is_late strptime order ts = Ok b.
Proof.
  intros [->|(o & -> & id & c0 & p & pt & w & dl & a & -> & _)]; simpl; [eauto|].
  destruct (negb (blank dl) && negb (blank ts)); eauto.
Qed.

(** [reconcile] returns on a plan of text pairs, normalised orders and
    rows of texts. *)
Lemma reconcile_total (plan orders log_rows couriers : list value) :
  (forall a, In a plan -> exists id cid, a = assignment_of (VStr id, VStr cid)) ->
  Forall normalized_order orders ->
  Forall (fun row => scan_row row = true) log_rows ->
  exists rep, reconcile strptime plan orders log_rows couriers = Ok rep.
Proof.
  intros Hplan Ho Hlog. unfold reconcile. rewrite (normalized_orders_fixed _ Ho).
  destruct (foldM_total
              (fun (ids : gset string) o =>
                 v <- get o "orderid" VNone ;;
                 if truthy v
                 then (w <- subscript o "orderid" ;; k <- as_key w ;; Ok (ids ∪ {[ k ]}))
                 else Ok ids) orders) with (s := (∅ : gset string)) as [ids Hids].
  { intros acc o Hin. rewrite Forall_forall in Ho.
    destruct (Ho o (proj2 (list_elem_of_In _ _) Hin))
      as (id & c0 & p & pt & w & dl & a & -> & _).
    simpl. destruct (negb (blank id)); simpl; eauto. }
  unfold order_ids_of. rewrite Hids. cbn [bind].
  destruct (foldM_total
              (fun d a => k_v <- subscript a "orderid" ;;
                          c <- subscript a "courierid" ;;
                          k <- as_key k_v ;; Ok (alist_set k c d))
              (map normalize_keys plan)) with (s := ([] : list (string * value)))
    as [planned Hpl].
  { intros acc a' (a & <- & Hin)%in_map_iff.
    destruct (Hplan a Hin) as (id & cid & ->). simpl. eauto. }
  unfold planned_by_order_of. rewrite Hpl. cbn [bind].
  destruct (foldM_total (reconcile_row strptime ids planned orders)
                        (map normalize_keys log_rows)) with (s := scan_start)
    as [st Hst]; [|rewrite Hst; simpl; eauto].
  intros st0 row' (row & <- & Hin)%in_map_iff.
  rewrite Forall_forall in Hlog. specialize (Hlog row (proj2 (list_elem_of_In _ _) Hin)).
  unfold scan_row in Hlog. destruct (normalize_keys row) as [ | | | | | |d]; try discriminate.
  apply andb_prop in Hlog as [Hlog Ht]. apply andb_prop in Hlog as [Hoid Hcid].
  destruct (cell_text d "orderid" Hoid) as [s1 E1].
  destruct (cell_text d "courierid" Hcid) as [s2 E2].
  destruct (cell_text d "deliveredat" Ht) as [s3 E3].
  unfold reconcile_row, scan_oid, scan_field. cbn [get bind].
  rewrite E1, E2, E3. cbn [str_method bind].
  destruct (blank (strip_non_id (strip (upper s1)))); [eauto|].
  destruct (find_order_total orders (strip_non_id (strip (upper s1))) Ho)
    as (order & -> & Horder).
  cbn [bind]. destruct (is_late_total order (strip s3) Horder) as [b ->].
  cbn [bind]. eauto.
Qed.


(** The orders [run] cleans are normalised orders with a weight [float]
    reads, when the raw orders can be planned. *)
Lemma cleaned_orders_normalized (orders_raw : list value)
  (zones_map : list (string * string)) :
  Forall (fun o => plannable_order o = true) orders_raw ->
  exists normalized clean warnings,
    normalize_orders orders_raw zones_map = Ok normalized /\
    dedup normalized = Ok (clean, warnings) /\
    Forall normalized_order clean.
Proof.
  intros H. rewrite Forall_forall in H.
  destruct (mapM_total (normalize_order zones_map) (map normalize_keys orders_raw))
    as [normalized Hn].
  { intros x (o & <- & Ho)%in_map_iff.
    specialize (H o (proj2 (list_elem_of_In _ _) Ho)). unfold plannable_order in H.
    destruct (normalize_keys o); try discriminate.
    apply andb_prop in H as [H _]. now apply normalize_order_total. }
  assert (Hshape : Forall normalized_order normalized).
  { apply mapM_Forall2 in Hn. apply Forall_forall. intros r Hr.
    destruct (proj1 (list_elem_of_lookup _ _) Hr) as [i Hi].
    destruct (Forall2_lookup_r _ _ _ _ _ Hn Hi) as (x & Hx & Hxr).
    apply list_elem_of_lookup_2, list_elem_of_In, in_map_iff in Hx as (o & <- & Ho).
    specialize (H o (proj2 (list_elem_of_In _ _) Ho)). unfold plannable_order in H.
    destruct (normalize_order_Ok _ _ _ Hxr)
      as (d & id & c0 & p & pt & dl & a & Hd & -> & _).
    rewrite Hd in H. apply andb_prop in H as [_ H].
    exists id, c0, p, pt, (dict_get d "weight" (VInt 0)), dl, a.
    split; [reflexivity|]. revert H. unfold converts, dict_get.
    now destruct (alist_get "weight" d). }
  destruct (dedup_total_on_records normalized) as (clean & warnings & Hd).
  { intros r Hr. rewrite Forall_forall in Hshape.
    destruct (Hshape r (proj2 (list_elem_of_In _ _) Hr))
      as (id & c0 & p & pt & w & dl & a & -> & _). eauto 8. }
  exists normalized, clean, warnings. split; [exact Hn|]. split; [exact Hd|].
  unfold dedup in Hd. apply bind_Ok in Hd as ([seen w] & E & Hd). injection Hd as <- <-.
  destruct (dedup_sublist _ _ _ _ _ E) as (added & -> & Hsub). simpl in *.
  apply Forall_forall. intros r Hr. rewrite Forall_forall in Hshape.
  apply Hshape. exact (elem_of_sublist _ _ _ Hr Hsub).
Qed.

(** X25. The run completes for every batch in which the text fields of
    the orders are texts, [null] or missing and [float] reads their weight,
    the couriers have a text as identifier, an integer or no priority, a
    list or no zones, a list of texts or no exclusions and a capacity
    [float] reads, and the cells of the log are texts or missing: the three
    results are produced, whatever the zones and the dates. *)
Theorem run_completes (orders_raw couriers_raw : list value)
  (zones_map : list (string * string)) (log_rows : list value) :
  Forall (fun o => plannable_order o = true) orders_raw ->
  Forall (fun c => courier_record c = true) couriers_raw ->
  Forall (fun row => scan_row row = true) log_rows ->
  exists out, run strptime orders_raw couriers_raw zones_map log_rows = Ok out.
Proof.
  intros Ho Hc Hlog.
  destruct (cleaned_orders_normalized orders_raw zones_map Ho)
    as (normalized & clean & warnings & Hn & Hd & Hclean).
  destruct (plan_assignments_total clean couriers_raw Hclean Hc) as [st Hst].
  destruct (reconcile_total (assignments st) clean log_rows couriers_raw) as [rep Hrep];
    auto.
  { now apply (assignments_texts clean couriers_raw). }
  unfold run. rewrite Hn. cbn [bind]. rewrite Hd. cbn [bind fst].
  rewrite Hst. cbn [bind]. rewrite Hrep. cbn [bind]. eauto.
Qed.

(** X26. In a run every cleaned order is decided exactly once: the
    identifiers of the assignments together with the unassigned identifiers
    are the identifiers of the cleaned orders, and none of them occurs
    twice, so no order is assigned twice or both assigned and left
    unassigned. *)
Theorem run_decides_once (orders_raw couriers_raw : list value)
  (zones_map : list (string * string)) (log_rows : list value) (out : outputs) :
  run strptime orders_raw couriers_raw zones_map log_rows = Ok out ->
  exists pairs,
    assignments (plan out) = map assignment_of pairs /\
    NoDup (map fst pairs ++ unassigned (plan out)) /\
    forall x, In x (map fst pairs ++ unassigned (plan out)) <->
              exists o, In o (fst (clean_orders out)) /\ subscript o "orderid" = Ok x.
Proof.
  unfold run. intros H.
  apply bind_Ok in H as (normalized & Hn & H).
  apply bind_Ok in H as (cleaned & Hd & H).
  apply bind_Ok in H as (st & Hst & H).
  apply bind_Ok in H as (rep & _ & H). injection H as <-. simpl.
  destruct cleaned as [clean warnings]. simpl in *.
  (* the cleaned orders have the shape and distinct identifiers *)
  assert (Hshape : forall r, In r clean ->
            exists id c0 p pt w dl a, r = clean_order id c0 p pt w dl a).
  { unfold normalize_orders in Hn. apply mapM_Forall2 in Hn.
    unfold dedup in Hd. apply bind_Ok in Hd as ([seen w] & E & Hd).
    injection Hd as <- _. destruct (dedup_sublist _ _ _ _ _ E) as (added & -> & Hsub).
    simpl. intros r Hr. apply list_elem_of_In in Hr.
    apply (fun H => elem_of_sublist _ _ _ H Hsub) in Hr.
    destruct (proj1 (list_elem_of_lookup _ _) Hr) as [i Hi].
    destruct (Forall2_lookup_r _ _ _ _ _ Hn Hi) as (x & _ & Hxr).
    destruct (normalize_order_Ok _ _ _ Hxr)
      as (d & id & c0 & p & pt & dl & a & _ & -> & _). eauto 8. }
  assert (Hids : exists ks, NoDup ks /\
            mapM (fun o => subscript (normalize_keys o) "orderid") clean
            = Ok (map VStr ks) /\
            forall k, In k ks <->
                      exists o, In o clean /\ subscript o "orderid" = Ok (VStr k)).
  { unfold dedup in Hd. apply bind_Ok in Hd as ([seen ws] & E & Hd).
    injection Hd as <- _. simpl in *.
    destruct (dedup_loop _ _ _ _ _ filed_nil E) as ([Hnd Hfiled] & _ & _).
    exists (map fst seen). split; [exact Hnd|].
    clear E Hn Hst. induction seen as [|[k o] seen IH]; simpl.
    - split; [reflexivity|]. intros k. split; [intros []|intros (? & [] & _)].
    - assert (Hko : subscript o "orderid" = Ok (VStr k))
        by (apply has_id_iff, Hfiled; now left).
      destruct (Hshape o) as (id & c0 & p & pt & w & dl & a & ->); [now left|].
      change (normalize_keys (clean_order id c0 p pt w dl a))
        with (clean_order id c0 p pt (normalize_keys w) dl a).
      change (subscript (clean_order id c0 p pt (normalize_keys w) dl a) "orderid")
        with (Ok (VStr id) : result value).
      change (subscript (clean_order id c0 p pt w dl a) "orderid")
        with (Ok (VStr id) : result value) in Hko.
      injection Hko as ->. cbn [bind]. inversion Hnd; subst.
      destruct (IH (fun r Hr => Hshape r (or_intror Hr)) H2
                   (fun k0 o0 Hin => Hfiled k0 o0 (or_intror Hin))) as [IH1 IH2].
      rewrite IH1. cbn [bind]. split; [reflexivity|].
      intros k'. rewrite IH2. split.
      + intros [<-|(o' & ? & ?)]; [eexists; split; [now left|reflexivity]|].
        exists o'. split; [now right|assumption].
      + intros (o' & [<-|?] & Ho'); [left|right; eauto].
        change (subscript (clean_order k c0 p pt w dl a) "orderid")
          with (Ok (VStr k) : result value) in Ho'. congruence. }
  destruct Hids as (ks & Hnd & Hmap & Hks).
  unfold plan_assignments in Hst.
  apply bind_Ok in Hst as (usage & _ & Hst). apply bind_Ok in Hst as (cs & _ & Hst).
  destruct (plan_loop_decides _ _ _ _ Hst)
    as (pairs & rej & ids & Ha & Hu & Hidsl & Hperm & _ & _).
  simpl in Ha, Hu. subst rej. rewrite mapM_map, Hmap in Hidsl. injection Hidsl as <-.
  exists pairs. split; [exact Ha|]. split.
  - apply NoDup_ListNoDup. apply (Permutation_NoDup (Permutation_sym Hperm)).
    apply NoDup_ListNoDup. apply NoDup_fmap_2; [|exact Hnd].
    intros a b [= ->]. reflexivity.
  - intros x. split.
    + intros Hx. apply (Permutation_in _ Hperm) in Hx.
      apply in_map_iff in Hx as (k & <- & Hk). now apply Hks.
    + intros (o & Ho & Hx).
      destruct (Hshape o Ho) as (id & c0 & p & pt & w & dl & a & ->).
      change (subscript (clean_order id c0 p pt w dl a) "orderid")
        with (Ok (VStr id) : result value) in Hx. injection Hx as <-.
      apply (Permutation_in _ (Permutation_sym Hperm)). apply in_map.
      apply Hks. exists (clean_order id c0 p pt w dl a). split; [exact Ho|reflexivity].
Qed.

End RunMore.

(** ** Keys in any letter case, and records without identifier *)

Section Robustness.
Context {FO : FloatOps}.

(** A record none of whose keys is [k] in any letter case has no [k]
    after [normalize_keys]. *)
Lemma normalize_keys_absent (d : list (string * value)) (k : string) :
  (forall kv, In kv d -> lower (fst kv) <> k) ->
  exists d', normalize_keys (VDict d) = VDict d' /\ alist_get k d' = None.
Proof.
  intros H. rewrite normalize_keys_dict. eexists. split; [reflexivity|].
  unfold dict_of_items. rewrite alist_get_fold_set. simpl.
  assert (G : alist_get k (rev (map normalize_entry d)) = None); [|now rewrite G].
  apply alist_get_None. intros Hin. apply in_map_iff in Hin as ([k' v'] & <- & Hin).
  apply in_rev, in_map_iff in Hin as ([k0 v0] & [= <- <-] & Hin).
  now apply (H (k0, v0)).
Qed.

(** Lower-casing the keys of a list of records again changes nothing. *)
Lemma normalize_keys_map_again (l : list value) :
  map normalize_keys (map normalize_keys l) = map normalize_keys l.
Proof.
  rewrite map_map. apply map_ext. intros obj.
  induction obj as [ | b | z | f | s | l' IH | d IH ] using value_nested_ind;
    try reflexivity.
  - simpl. f_equal. rewrite map_map. apply map_ext_in.
    intros x Hx. rewrite Forall_forall in IH. apply IH. now apply list_elem_of_In.
  - rewrite !normalize_keys_dict.
    destruct (dict_of_items_spec (map normalize_entry d)) as [Hnodup Hsub].
    f_equal. rewrite <- (dict_of_items_id _ Hnodup) at 2. f_equal.
    rewrite <- (map_id (dict_of_items (map normalize_entry d))) at 2.
    apply map_ext_in. intros kv Hkv. apply Hsub in Hkv.
    apply in_map_iff in Hkv as ([k v] & <- & Hin). simpl.
    rewrite lower_idempotent. f_equal.
    rewrite Forall_forall in IH. apply (IH (k, v)). now apply list_elem_of_In.
Qed.

(** X27. [plan_assignments] needs an identifier for every courier, even
    when there is no order to plan: a courier record without the key
    [courierId] (in any letter case) raises [KeyError]. *)
Theorem courier_needs_identifier (orders pre post : list value)
  (d : list (string * value)) (usage : list (string * pyfloat)) :
  initial_usage (map normalize_keys pre) = Ok usage ->
  (forall kv, In kv d -> lower (fst kv) <> "courierid") ->
  plan_assignments orders (pre ++ VDict d :: post) = Raise KeyError.
Proof.
  intros Hpre Hd. destruct (normalize_keys_absent d "courierid" Hd) as (d' & E & G).
  unfold plan_assignments. rewrite map_app. cbn [map]. rewrite E.
  unfold initial_usage in *. rewrite foldM_app, Hpre. cbn [bind foldM subscript].
  now rewrite G.
Qed.

Variable strptime : string -> option Z.

(** X28. Lower-casing the keys of the inputs beforehand changes nothing
    in what [plan_assignments] and [reconcile] return: both read their
    records through [normalize_keys], whatever the letter case of the
    keys. *)
Theorem keys_in_any_case (plan orders couriers log_rows : list value) :
  plan_assignments (map normalize_keys orders) (map normalize_keys couriers)
  = plan_assignments orders couriers /\
  reconcile strptime (map normalize_keys plan) (map normalize_keys orders)
            (map normalize_keys log_rows) couriers
  = reconcile strptime plan orders log_rows couriers.
Proof.
  unfold plan_assignments, reconcile.
  now rewrite !normalize_keys_map_again.
Qed.

(** X29. [reconcile] passes over an order without identifier when it
    collects the known identifiers, but not when it looks for the order of
    a scan: with such an order first in the list, an empty log is
    reconciled, and a log whose first row has a non-blank identifier raises
    [KeyError]. *)
Theorem scan_needs_identified_orders (plan orders log_rows couriers : list value)
  (d : list (string * value)) (row : value) (x cid ts : string)
  (ids : gset string) (planned : list (string * value)) :
  (forall kv, In kv d -> lower (fst kv) <> "orderid") ->
  order_ids_of (map normalize_keys orders) = Ok ids ->
  planned_by_order_of (map normalize_keys plan) = Ok planned ->
  scan_oid (normalize_keys row) = Ok x -> x <> "" ->
  scan_field (normalize_keys row) "courierid" = Ok cid ->
  scan_field (normalize_keys row) "deliveredat" = Ok ts ->
  (exists rep, reconcile strptime plan (VDict d :: orders) [] couriers = Ok rep) /\
  reconcile strptime plan (VDict d :: orders) (row :: log_rows) couriers
  = Raise KeyError.
Proof.
  intros Hd Hids Hpl Hx Nx Hcid Hts.
  destruct (normalize_keys_absent d "orderid" Hd) as (d' & E & G).
  assert (I : order_ids_of (map normalize_keys (VDict d :: orders)) = Ok ids).
  { cbn [map]. rewrite E. unfold order_ids_of in *. cbn [foldM get bind].
    unfold dict_get. rewrite G. exact Hids. }
  unfold reconcile. rewrite I, Hpl. cbn [bind]. split.
  - simpl. eauto.
  - cbn [map foldM]. unfold reconcile_row at 1. rewrite Hx, Hcid, Hts. cbn [bind].
    destruct (blank x) eqn:B; [apply blank_true in B; contradiction|].
    rewrite E. cbn [find_order subscript]. now rewrite G.
Qed.

End Robustness.

(** ** The laws in the two arithmetics *)

Lemma exact_ltb_iff (x y : Q) : negb (Qle_bool y x) = true <-> (x < y)%Q.
Proof.
  rewrite negb_true_iff. split.
  - intros H. apply Qnot_le_lt. intros L. apply Qle_bool_iff in L. congruence.
  - intros H. destruct (Qle_bool y x) eqn:E; [|reflexivity].
    apply Qle_bool_iff in E. exfalso. now apply (Qlt_not_le x y).
Qed.

Lemma exact_ltb_false (x y : Q) : negb (Qle_bool y x) = false <-> (y <= x)%Q.
Proof. rewrite negb_false_iff. apply Qle_bool_iff. Qed.

Lemma exact_order : FloatOrder exact.
Proof.
  split; simpl.
  - intros x y H%Qeq_bool_iff. apply Qeq_bool_iff. now symmetry.
  - intros x y z H1%Qeq_bool_iff H2%Qeq_bool_iff. apply Qeq_bool_iff.
    now rewrite H1.
  - intros x. apply exact_ltb_false. apply Qle_refl.
  - intros x y z H1%exact_ltb_iff H2%exact_ltb_iff. apply exact_ltb_iff.
    now apply Qlt_trans with y.
  - intros x y H%exact_ltb_iff. destruct (Qeq_bool x y) eqn:E; [|reflexivity].
    apply Qeq_bool_iff in E. rewrite E in H. now apply Qlt_irrefl in H.
  - intros x y z H1%Qeq_bool_iff H2%exact_ltb_iff. apply exact_ltb_iff.
    now rewrite H1.
  - intros x y z H1%exact_ltb_iff H2%Qeq_bool_iff. apply exact_ltb_iff.
    now rewrite <- H2.
Qed.

Lemma exact_add : NonNegativeAdd exact.
Proof.
  intros u w. simpl. intros H%Qle_bool_iff. apply exact_ltb_false.
  rewrite <- (Qplus_0_r u) at 1. apply Qplus_le_r. exact H.
Qed.

(** The comparison of IEEE numbers, as the kernel's floats specify it. *)
Lemma SFcompare_Eq_finite (s s' : bool) (m m' : positive) (e e' : Z) :
  SFcompare (S754_finite s m e) (S754_finite s' m' e') = Some Eq ->
  s = s' /\ m = m' /\ e = e'.
Proof.
  destruct s, s'; simpl; try congruence;
    destruct (Z.compare_spec e e'); try congruence; subst;
    change (Pos.compare_cont Eq m m') with (Pos.compare m m');
    destruct (Pos.compare_spec m m'); simpl; try congruence; subst; auto.
Qed.

Lemma SFcompare_finite_refl (s : bool) (m : positive) (e : Z) :
  SFcompare (S754_finite s m e) (S754_finite s m e) = Some Eq.
Proof.
  destruct s; simpl; now rewrite Z.compare_refl, Pos.compare_cont_refl.
Qed.

Lemma SFcompare_Eq_sym (x y : spec_float) :
  SFcompare x y = Some Eq -> SFcompare y x = Some Eq.
Proof.
  destruct x as [sx|sx| |sx mx ex], y as [sy|sy| |sy my ey];
    try (simpl; congruence); try (destruct sx; simpl; congruence);
    try (destruct sy; simpl; congruence).
  - destruct sx, sy; simpl; congruence.
  - intros (-> & -> & ->)%SFcompare_Eq_finite. apply SFcompare_finite_refl.
Qed.

(** Two numbers that compare equal compare alike with any third. *)
Lemma SFcompare_Eq_l (x y z : spec_float) :
  SFcompare x y = Some Eq -> SFcompare x z = SFcompare y z.
Proof.
  destruct x as [sx|sx| |sx mx ex], y as [sy|sy| |sy my ey]; intros H;
    try (apply SFcompare_Eq_finite in H as (-> & -> & ->); reflexivity);
    repeat match goal with b : bool |- _ => destruct b end;
    simpl in H; try discriminate; destruct z; reflexivity.
Qed.

Lemma SFcompare_Eq_r (x y z : spec_float) :
  SFcompare y z = Some Eq -> SFcompare x y = SFcompare x z.
Proof.
  destruct y as [sy|sy| |sy my ey], z as [sz|sz| |sz mz ez]; intros H;
    try (apply SFcompare_Eq_finite in H as (-> & -> & ->); reflexivity);
    repeat match goal with b : bool |- _ => destruct b end;
    simpl in H; try discriminate; destruct x; reflexivity.
Qed.

Lemma SFcompare_Lt_irrefl (x : spec_float) : SFcompare x x <> Some Lt.
Proof.
  destruct x as [s|s| |s m e].
  - simpl. congruence.
  - destruct s; simpl; congruence.
  - simpl. congruence.
  - rewrite SFcompare_finite_refl. congruence.
Qed.

Lemma SFcompare_Lt_trans (x y z : spec_float) :
  SFcompare x y = Some Lt -> SFcompare y z = Some Lt -> SFcompare x z = Some Lt.
Proof.
  destruct x as [sx|sx| |sx mx ex], y as [sy|sy| |sy my ey], z as [sz|sz| |sz mz ez];
    repeat match goal with b : bool |- _ => destruct b end;
    simpl; try congruence;
    change (Pos.compare_cont Eq) with Pos.compare;
    repeat match goal with
           | |- context [Z.compare ?a ?b] => destruct (Z.compare_spec a b)
           | |- context [Pos.compare ?a ?b] => destruct (Pos.compare_spec a b)
           end;
    simpl; try congruence; try lia.
Qed.

Lemma binary64_order : FloatOrder binary64.
Proof.
  split; simpl; intros;
    repeat match goal with
           | H : context [PrimFloat.eqb _ _] |- _ => rewrite FloatAxioms.eqb_spec in H
           | H : context [PrimFloat.ltb _ _] |- _ => rewrite FloatAxioms.ltb_spec in H
           | |- context [PrimFloat.eqb _ _] => rewrite FloatAxioms.eqb_spec
           | |- context [PrimFloat.ltb _ _] => rewrite FloatAxioms.ltb_spec
           end;
    unfold SFeqb, SFltb in *.
  - destruct (SFcompare (Prim2SF x) (Prim2SF y)) as [[]|] eqn:E; try discriminate.
    now rewrite (SFcompare_Eq_sym _ _ E).
  - destruct (SFcompare (Prim2SF x) (Prim2SF y)) as [[]|] eqn:E; try discriminate.
    now rewrite (SFcompare_Eq_l _ _ (Prim2SF z) E).
  - pose proof (SFcompare_Lt_irrefl (Prim2SF x)) as N.
    destruct (SFcompare (Prim2SF x) (Prim2SF x)) as [[]|]; congruence.
  - destruct (SFcompare (Prim2SF x) (Prim2SF y)) as [[]|] eqn:E1; try discriminate.
    destruct (SFcompare (Prim2SF y) (Prim2SF z)) as [[]|] eqn:E2; try discriminate.
    now rewrite (SFcompare_Lt_trans _ _ _ E1 E2).
  - now destruct (SFcompare (Prim2SF x) (Prim2SF y)) as [[]|].
  - destruct (SFcompare (Prim2SF x) (Prim2SF y)) as [[]|] eqn:E; try discriminate.
    now rewrite (SFcompare_Eq_l _ _ (Prim2SF z) E).
  - destruct (SFcompare (Prim2SF y) (Prim2SF z)) as [[]|] eqn:E; try discriminate.
    now rewrite <- (SFcompare_Eq_r (Prim2SF x) _ _ E).
Qed.

(** ** Rounding in IEEE double precision *)

(** The number of binary digits of a positive integer. *)
Lemma digits2_pos_size (p : positive) : digits2_pos p = Pos.size p.
Proof. induction p as [p IH|p IH|]; simpl; congruence. Qed.

Lemma digits2_log2 (p : positive) : Z.pos (digits2_pos p) = Z.succ (Z.log2 (Z.pos p)).
Proof.
  rewrite digits2_pos_size. destruct p as [p|p|]; simpl; try reflexivity;
    now rewrite Pos2Z.inj_succ.
Qed.

Lemma digits2_bounds (p : positive) :
  2 ^ (Z.pos (digits2_pos p) - 1) <= Z.pos p < 2 ^ Z.pos (digits2_pos p).
Proof.
  rewrite digits2_log2. replace (Z.succ (Z.log2 (Z.pos p)) - 1) with (Z.log2 (Z.pos p)) by lia.
  apply Z.log2_spec. lia.
Qed.

(** [a * 2^k <= b] bounds the digits of [a] by those of [b]. *)
Lemma digits2_le (a b : positive) (k : Z) :
  0 <= k -> Z.pos a * 2 ^ k <= Z.pos b ->
  Z.pos (digits2_pos a) + k <= Z.pos (digits2_pos b).
Proof.
  intros Hk H. rewrite !digits2_log2.
  assert (L : Z.log2 (Z.pos a * 2 ^ k) <= Z.log2 (Z.pos b)) by now apply Z.log2_le_mono.
  rewrite Z.log2_mul_pow2 in L by lia. lia.
Qed.

(** [a < b * 2^k] bounds the digits of [a] by those of [b]. *)
Lemma digits2_lt (a b : positive) (k : Z) :
  0 <= k -> Z.pos a <= Z.pos b * 2 ^ k ->
  Z.pos (digits2_pos a) <= Z.pos (digits2_pos b) + k.
Proof.
  intros Hk H. rewrite !digits2_log2.
  assert (L : Z.log2 (Z.pos a) <= Z.log2 (Z.pos b * 2 ^ k)) by now apply Z.log2_le_mono.
  rewrite Z.log2_mul_pow2 in L by lia. lia.
Qed.

Lemma iter_xO_pow2 (d m : positive) : Z.pos (Pos.iter xO m d) = Z.pos m * 2 ^ Z.pos d.
Proof.
  induction d as [|d IH] using Pos.peano_ind.
  - simpl. lia.
  - rewrite Pos.iter_succ, Pos2Z.inj_succ, Z.pow_succ_r by lia.
    rewrite Pos2Z.inj_xO, IH. lia.
Qed.

(** [shl_align] lowers the exponent to [ex'] when it is above. *)
Lemma shl_align_spec (mx : positive) (ex ex' : Z) :
  exists mz,
    shl_align mx ex ex' = (mz, Z.min ex ex') /\
    Z.pos mz = Z.pos mx * 2 ^ (ex - Z.min ex ex').
Proof.
  unfold shl_align. destruct (ex' - ex) as [|d|d] eqn:E.
  - exists mx. replace (Z.min ex ex') with ex by lia. rewrite Z.sub_diag. split; [reflexivity|lia].
  - exists mx. replace (Z.min ex ex') with ex by lia. rewrite Z.sub_diag. split; [reflexivity|lia].
  - exists (Pos.iter xO mx d). replace (Z.min ex ex') with ex' by lia.
    split; [reflexivity|]. rewrite iter_xO_pow2. f_equal. f_equal. lia.
Qed.

(** One shift to the right halves the mantissa. *)
Lemma shr_1_m (mrs : shr_record) :
  0 <= shr_m mrs -> shr_m (shr_1 mrs) = shr_m mrs / 2.
Proof.
  destruct mrs as [m r s]. cbn [shr_m]. intros H.
  destruct m as [|[p|p|]|p]; cbn [shr_1 shr_m]; try reflexivity; try lia.
  - rewrite Pos2Z.inj_xI. apply Z.div_unique with 1; lia.
  - rewrite Pos2Z.inj_xO. apply Z.div_unique with 0; lia.
Qed.

Lemma iter_pos_shr_m (p : positive) :
  forall mrs, 0 <= shr_m mrs ->
              shr_m (SpecFloat.iter_pos shr_1 p mrs) = shr_m mrs / 2 ^ Z.pos p.
Proof.
  induction p as [p IH|p IH|]; intros mrs H; cbn [SpecFloat.iter_pos].
  - assert (H1 : 0 <= shr_m (shr_1 mrs)) by (rewrite shr_1_m by lia; apply Z.div_pos; lia).
    assert (H2 : 0 <= shr_m (SpecFloat.iter_pos shr_1 p (shr_1 mrs)))
      by (rewrite IH by lia; apply Z.div_pos; lia).
    rewrite IH, IH, shr_1_m by assumption.
    rewrite !Z.div_div by lia. f_equal.
    rewrite Pos2Z.inj_xI, Z.pow_add_r, Z.pow_mul_r, Z.pow_1_r by lia.
    change (2 ^ 2) with 4. rewrite <- (Z.pow_2_r (2 ^ Z.pos p)) at 1.
    rewrite <- Z.pow_mul_r by lia. rewrite (Z.mul_comm (Z.pos p) 2).
    rewrite Z.pow_mul_r by lia. change (2 ^ 2) with 4. lia.
  - assert (H2 : 0 <= shr_m (SpecFloat.iter_pos shr_1 p mrs))
      by (rewrite IH by lia; apply Z.div_pos; lia).
    rewrite IH, IH by assumption.
    rewrite !Z.div_div by lia. f_equal.
    rewrite Pos2Z.inj_xO, <- Z.pow_add_r by lia. f_equal. lia.
  - rewrite shr_1_m by assumption. reflexivity.
Qed.

(** [shr] by [n] divides the mantissa by [2^n] and raises the exponent. *)
Lemma shr_spec (mrs : shr_record) (e n : Z) :
  0 <= shr_m mrs ->
  exists mrs', shr mrs e n = (mrs', e + Z.max n 0) /\
               shr_m mrs' = shr_m mrs / 2 ^ Z.max n 0.
Proof.
  intros H. unfold shr. destruct n as [|p|p].
  - exists mrs. simpl. rewrite Z.add_0_r, Z.div_1_r. auto.
  - exists (SpecFloat.iter_pos shr_1 p mrs). replace (Z.max (Z.pos p) 0) with (Z.pos p) by lia.
    split; [reflexivity|]. now apply iter_pos_shr_m.
  - exists mrs. replace (Z.max (Z.neg p) 0) with 0 by lia.
    rewrite Z.add_0_r, Z.div_1_r. auto.
Qed.

Lemma shr_record_of_loc_m (m : Z) (l : location) : shr_m (shr_record_of_loc m l) = m.
Proof. destruct l as [|[]]; reflexivity. Qed.

Lemma round_nearest_even_bounds (m : Z) (l : location) :
  m <= round_nearest_even m l <= m + 1.
Proof.
  unfold round_nearest_even. destruct l as [|[]]; try lia. destruct (Z.even m); lia.
Qed.

Lemma fexp_eq (e : Z) : fexp prec emax e = Z.max (e - 53) (-1074).
Proof. reflexivity. Qed.

Lemma digits2_shift (m mz : positive) (k : Z) :
  0 <= k -> Z.pos mz = Z.pos m * 2 ^ k ->
  Z.pos (digits2_pos mz) = Z.pos (digits2_pos m) + k.
Proof.
  intros Hk H. rewrite !digits2_log2, H, Z.log2_mul_pow2 by lia. lia.
Qed.

(** [binary_round] in two steps: the mantissa is cut at the exponent [f1]
    of its binade and rounded to [m2], one of the two integers around the
    quotient; [m2] is normalised again, for the case that rounding carried
    into the next binade. *)
Lemma binary_round_steps (s : bool) (M : positive) (e : Z) :
  let f1 := fexp prec emax (Z.pos (digits2_pos M) + e) in
  let e1 := Z.min e f1 in
  let q := (Z.pos M * 2 ^ (e - e1)) / 2 ^ (f1 - e1) in
  exists m2 mrs2 e2,
    q <= m2 <= q + 1 /\
    shr_fexp prec emax m2 f1 loc_Exact = (mrs2, e2) /\
    binary_round prec emax s M e = round_result s mrs2 e2.
Proof.
  intros f1 e1 q. unfold binary_round. fold f1.
  destruct (shl_align_spec M e f1) as (mz & -> & Hmz). fold e1 in Hmz |- *.
  unfold binary_round_aux.
  assert (Hd : Z.pos (digits2_pos mz) + e1 = Z.pos (digits2_pos M) + e).
  { rewrite (digits2_shift M mz (e - e1)) by lia. lia. }
  destruct (shr_spec (shr_record_of_loc (Z.pos mz) loc_Exact) e1 (f1 - e1))
    as (mrs1 & S1 & Hm1); [simpl; lia|].
  assert (E1 : shr_fexp prec emax (Z.pos mz) e1 loc_Exact = (mrs1, f1)).
  { unfold shr_fexp. cbn [Zdigits2]. rewrite Hd. fold f1. rewrite S1. f_equal. lia. }
  rewrite E1.
  replace (Z.max (f1 - e1) 0) with (f1 - e1) in Hm1 by lia.
  rewrite shr_record_of_loc_m, Hmz in Hm1. fold q in Hm1.
  set (m2 := round_nearest_even (shr_m mrs1) (loc_of_shr_record mrs1)).
  destruct (shr_fexp prec emax m2 f1 loc_Exact) as [mrs2 e2] eqn:E2.
  exists m2, mrs2, e2. split; [|split; [exact E2|reflexivity]].
  subst m2. rewrite <- Hm1. apply round_nearest_even_bounds.
Qed.

(** The second normalisation of a mantissa that is not negative. *)
Lemma shr_fexp_exact (m f : Z) (mrs : shr_record) (e : Z) :
  0 <= m ->
  shr_fexp prec emax m f loc_Exact = (mrs, e) ->
  e = Z.max f (fexp prec emax (Zdigits2 m + f)) /\ shr_m mrs = m / 2 ^ (e - f).
Proof.
  intros Hm H. unfold shr_fexp in H.
  destruct (shr_spec (shr_record_of_loc m loc_Exact) f (fexp prec emax (Zdigits2 m + f) - f))
    as (mrs' & E & Hm'); [simpl; lia|].
  rewrite E in H. injection H as <- <-. split; [lia|].
  rewrite Hm'. simpl shr_m. f_equal. f_equal. lia.
Qed.

Lemma bounded_canonical (m : positive) (e : Z) :
  bounded prec emax m e = true ->
  e = Z.max (Z.pos (digits2_pos m) + e - 53) (-1074) /\ e <= 971.
Proof.
  unfold bounded, canonical_mantissa. rewrite fexp_eq.
  intros [H1 H2]%andb_prop. apply Z.eqb_eq in H1. apply Z.leb_le in H2.
  change (emax - prec) with 971 in H2. lia.
Qed.

(** The second normalisation of a positive mantissa leaves a positive
    mantissa, and the same one when the exponent stays. *)
Lemma shr_fexp_exact_pos (p : positive) (f : Z) (mrs : shr_record) (e : Z) :
  -1074 <= f ->
  shr_fexp prec emax (Z.pos p) f loc_Exact = (mrs, e) ->
  f <= e /\ 0 < shr_m mrs /\ (e = f -> shr_m mrs = Z.pos p).
Proof.
  intros Hf H. apply shr_fexp_exact in H as [He Hm]; [|lia].
  cbn [Zdigits2] in He. rewrite fexp_eq in He.
  split; [lia|]. rewrite Hm. split.
  - destruct (Z.eq_dec e f) as [->|Hne].
    + rewrite Z.sub_diag, Z.div_1_r. lia.
    + assert (E : e - f = Z.pos (digits2_pos p) - 53) by lia.
      apply Z.lt_le_trans with (2 ^ 52); [lia|].
      apply Z.div_le_lower_bound; [apply Z.pow_pos_nonneg; lia|].
      rewrite E, <- Z.pow_add_r by lia.
      replace (Z.pos (digits2_pos p) - 53 + 52) with (Z.pos (digits2_pos p) - 1) by lia.
      apply digits2_bounds.
  - intros ->. now rewrite Z.sub_diag, Z.div_1_r.
Qed.

(** Rounding a number that is not below a representable one gives a result
    that is not below it. *)
Lemma binary_round_above (M mx : positive) (e ex : Z) :
  bounded prec emax mx ex = true -> e <= ex ->
  Z.pos mx * 2 ^ (ex - e) <= Z.pos M ->
  SFltb (binary_round prec emax false M e) (S754_finite false mx ex) = false.
Proof.
  intros [Hc Hb]%bounded_canonical He HM.
  destruct (binary_round_steps false M e) as (m2 & mrs2 & e2 & Hm2 & E2 & ->).
  pose proof (digits2_le mx M (ex - e) ltac:(lia) HM) as Hd.
  rewrite fexp_eq in Hm2, E2.
  set (f1 := Z.max (Z.pos (digits2_pos M) + e - 53) (-1074)) in *.
  assert (Hf : ex <= f1) by lia.
  replace (Z.min e f1) with e in Hm2 by lia.
  rewrite Z.sub_diag, Z.mul_1_r in Hm2.
  assert (Hq : 0 < Z.pos M / 2 ^ (f1 - e) /\
               (f1 = ex -> Z.pos mx <= Z.pos M / 2 ^ (f1 - e))).
  { split.
    - destruct (Z.eq_dec f1 ex) as [->|Hne].
      + apply Z.lt_le_trans with (Z.pos mx); [lia|].
        apply Z.div_le_lower_bound; [apply Z.pow_pos_nonneg; lia|lia].
      + assert (E : f1 - e = Z.pos (digits2_pos M) - 53) by lia.
        apply Z.lt_le_trans with (2 ^ 52); [lia|].
        apply Z.div_le_lower_bound; [apply Z.pow_pos_nonneg; lia|].
        rewrite E, <- Z.pow_add_r by lia.
        replace (Z.pos (digits2_pos M) - 53 + 52) with (Z.pos (digits2_pos M) - 1) by lia.
        apply digits2_bounds.
    - intros ->. apply Z.div_le_lower_bound; [apply Z.pow_pos_nonneg; lia|lia]. }
  destruct Hq as [Hq0 Hq1].
  destruct m2 as [|p2|p2]; try lia.
  destruct (shr_fexp_exact_pos p2 f1 mrs2 e2 ltac:(lia) E2) as (H1 & H2 & H3).
  unfold round_result. destruct (shr_m mrs2) as [|p3|p3] eqn:E3; try lia.
  destruct (e2 <=? emax - prec); [|reflexivity].
  unfold SFltb, SFcompare.
  destruct (Z.compare_spec e2 ex) as [->|Hlt|Hgt]; try reflexivity; try lia.
  assert (Hp : Z.pos mx <= Z.pos p3)
    by (specialize (H3 ltac:(lia)); specialize (Hq1 ltac:(lia)); lia).
  change (Pos.compare_cont Eq p3 mx) with (Pos.compare p3 mx).
  destruct (Pos.compare_spec p3 mx); try reflexivity. lia.
Qed.

(** Rounding towards a representable number from below does not pass
    it: here for the opposites, [M] and [mx] being the magnitudes. *)
Lemma binary_round_below (M mx : positive) (e ex : Z) :
  bounded prec emax mx ex = true -> e <= ex ->
  Z.pos M < Z.pos mx * 2 ^ (ex - e) ->
  SFltb (binary_round prec emax true M e) (S754_finite true mx ex) = false.
Proof.
  intros [Hc Hb]%bounded_canonical He HM.
  destruct (binary_round_steps true M e) as (m2 & mrs2 & e2 & Hm2 & E2 & ->).
  pose proof (digits2_lt M mx (ex - e) ltac:(lia) ltac:(lia)) as Hd.
  rewrite fexp_eq in Hm2, E2.
  set (f1 := Z.max (Z.pos (digits2_pos M) + e - 53) (-1074)) in *.
  assert (Hf : f1 <= ex) by lia.
  set (e1 := Z.min e f1) in *.
  assert (P1 : 0 < 2 ^ (f1 - e1)) by (apply Z.pow_pos_nonneg; lia).
  assert (P2 : 0 < 2 ^ (e - e1)) by (apply Z.pow_pos_nonneg; lia).
  assert (P3 : 0 < 2 ^ (ex - f1)) by (apply Z.pow_pos_nonneg; lia).
  assert (Hq : 0 <= (Z.pos M * 2 ^ (e - e1)) / 2 ^ (f1 - e1) < Z.pos mx * 2 ^ (ex - f1)).
  { split; [apply Z.div_pos; lia|].
    apply Z.div_lt_upper_bound; [assumption|].
    replace (2 ^ (f1 - e1) * (Z.pos mx * 2 ^ (ex - f1)))
      with (Z.pos mx * 2 ^ (ex - e) * 2 ^ (e - e1)).
    - apply Z.mul_lt_mono_pos_r; assumption.
    - rewrite <- Z.mul_assoc, <- Z.pow_add_r by lia.
      rewrite (Z.mul_comm (2 ^ (f1 - e1))), <- Z.mul_assoc, <- Z.pow_add_r by lia.
      f_equal. f_equal. lia. }
  apply shr_fexp_exact in E2 as [He2 Hm]; [|lia].
  unfold round_result, SFltb.
  destruct (shr_m mrs2) as [|p3|p3] eqn:E3; try reflexivity.
  destruct m2 as [|p2|p2]; try lia.
  { rewrite Z.div_0_l in Hm by (apply Z.pow_nonzero; lia). discriminate. }
  cbn [Zdigits2] in He2. rewrite fexp_eq in He2.
  pose proof (digits2_lt p2 mx (ex - f1) ltac:(lia) ltac:(lia)) as Hd2.
  assert (He2' : e2 <= ex) by lia.
  replace (e2 <=? emax - prec) with true
    by (symmetry; apply Z.leb_le; change (emax - prec) with 971; lia).
  unfold SFcompare.
  destruct (Z.compare_spec e2 ex) as [->|Hlt|Hgt]; try reflexivity; try lia.
  assert (Hp : Z.pos p3 <= Z.pos mx).
  { rewrite Hm. apply Z.div_le_upper_bound; [assumption|]. lia. }
  change (Pos.compare_cont Eq p3 mx) with (Pos.compare p3 mx).
  destruct (Pos.compare_spec p3 mx); try reflexivity. lia.
Qed.

(** The sign of what [binary_round] returns. *)
Lemma binary_round_sign (s : bool) (M : positive) (e : Z) :
  binary_round prec emax s M e = S754_nan \/
  binary_round prec emax s M e = S754_zero s \/
  binary_round prec emax s M e = S754_infinity s \/
  exists m' e', binary_round prec emax s M e = S754_finite s m' e'.
Proof.
  destruct (binary_round_steps s M e) as (m2 & mrs2 & e2 & _ & _ & ->).
  unfold round_result. destruct (shr_m mrs2) as [|p|p]; [auto| |auto].
  destruct (e2 <=? emax - prec); [|auto]. right. right. right. eauto.
Qed.

(** Adding a number that is not negative gives a sum that is not below
    the first operand. *)
Lemma SFadd_nonneg (x y : spec_float) :
  valid_binary x = true ->
  SFleb (S754_zero false) y = true ->
  SFltb (SFadd prec emax x y) x = false.
Proof.
  intros Hx Hy.
  destruct y as [sy|sy| |sy my ey]; try discriminate.
  - destruct x as [sx|sx| |sx mx ex]; try reflexivity.
    + destruct sx, sy; reflexivity.
    + destruct sx; reflexivity.
    + unfold SFadd, SFltb. now rewrite SFcompare_finite_refl.
  - destruct sy; [discriminate|].
    destruct x as [sx|sx| |sx mx ex]; try reflexivity; now destruct sx.
  - destruct sy; [discriminate|].
    destruct x as [sx|sx| |sx mx ex]; try reflexivity.
    + now destruct sx.
    + cbn [SFadd valid_binary] in *.
      set (ez := Z.min ex ey).
      destruct (shl_align_spec mx ex ez) as (ax & Ex & Hax).
      destruct (shl_align_spec my ey ez) as (ay & Ey & Hay).
      replace (Z.min ex ez) with ez in Ex, Hax by lia.
      replace (Z.min ey ez) with ez in Ey, Hay by lia.
      rewrite Ex, Ey. cbn [fst].
      destruct sx.
      * cbn [cond_Zopp]. unfold binary_normalize.
        destruct (- Z.pos ax + Z.pos ay) as [|M|M] eqn:E.
        -- reflexivity.
        -- destruct (binary_round_sign false M ez) as [->|[->|[->|(m' & e' & ->)]]];
             reflexivity.
        -- apply binary_round_below; [assumption|lia|]. rewrite <- Hax. lia.
      * cbn [cond_Zopp Z.add binary_normalize].
        apply binary_round_above; [assumption|lia|]. rewrite <- Hax. lia.
Qed.

Lemma binary64_add : NonNegativeAdd binary64.
Proof.
  intros u w. simpl.
  rewrite FloatAxioms.leb_spec, FloatAxioms.ltb_spec, FloatAxioms.add_spec.
  apply SFadd_nonneg. apply FloatAxioms.Prim2SF_valid.
Qed.

(** ** Evaluation *)

(** Closes [l = r] by evaluating [l]; a hole in [r] receives the value. *)
Ltac evaluate :=
  lazymatch goal with
  | |- ?l = ?r =>
      let v := eval vm_compute in l in
      tryif has_evar r then unify r v else idtac;
      vm_cast_no_check (@eq_refl _ v)
  end.

(** ** The test suite of the repository, run on the embedding *)

Section Tests.
Local Existing Instance binary64.

Example test_plan_assignments_respects_exclusions_and_priority :
  plan_assignments
    [clean_order "A" "Giza" "COD" "fragile" (VInt 5) "" "";
     clean_order "B" "Giza" "COD" "standard" (VInt 1) "" ""]
    [courier "C1" ["Giza"] true 10 1 ["fragile"];
     courier "C2" ["Giza"] true 10 2 []]
  = Ok {| assignments := [planned "A" "C2"; planned "B" "C1"];
          unassigned := [];
          capacity_usage := [("C1", 1%float); ("C2", 5%float)];
          unassigned_reasons := [] |}.
Proof. evaluate. Qed.

Example test_plan_assignments_respects_capacity :
  plan_assignments
    [clean_order "A" "Giza" "COD" "standard" (VInt 7) "" "";
     clean_order "B" "Giza" "COD" "standard" (VInt 5) "" ""]
    [courier "C1" ["Giza"] true 10 1 []]
  = Ok {| assignments := [planned "A" "C1"];
          unassigned := [VStr "B"];
          capacity_usage := [("C1", 7%float)];
          unassigned_reasons := [("B", "Capacity exceeded")] |}.
Proof. evaluate. Qed.

Example test_plan_assignments_unassigned_reasons :
  plan_assignments
    [clean_order "A" "Alex" "COD" "standard" (VInt 1) "" "";
     clean_order "B" "Giza" "COD" "fragile" (VInt 1) "" ""]
    [courier "C1" ["Giza"] true 10 1 ["fragile"]]
  = Ok {| assignments := [];
          unassigned := [VStr "A"; VStr "B"];
          capacity_usage := [("C1", 0%float)];
          unassigned_reasons :=
            [("A", "Zone not covered"); ("B", "Excluded product type: fragile")] |}.
Proof. evaluate. Qed.

Example test_reconcile_includes_not_delivered :
  reconcile strptime_strict
    [planned "A" "C1"; planned "B" "C1"]
    [clean_order "A" "" "" "" (VInt 0) "2025-08-12 10:00" "";
     clean_order "B" "" "" "" (VInt 0) "2025-08-12 10:00" ""]
    [scan "A" "C1" "2025-08-12 09:00"]
    [VDict [("courierid", VStr "C1")]]
  = Ok {| rep_unexpected := []; rep_misassigned := []; rep_late := [];
          rep_duplicate := []; rep_notDelivered := ["B"] |}.
Proof. evaluate. Qed.

Example test_misassigned_and_late :
  exists out,
    run strptime_strict
      [raw_order_due "ORD-001" "6 October" "COD" "fragile" (VInt 1) "2025-08-12 16:30";
       raw_order_due "ORD-002" "6 October" "COD" "standard" (VInt 1) "2025-08-12 16:30"]
      [courier "Weevo" ["6th of October"] true 10 1 [];
       courier "Bosta" ["6th of October"] true 10 2 ["fragile"]]
      [("6 october", "6th of October"); ("6th of oct.", "6th of October")]
      [scan "ORD-001" "Bosta" "2025-08-12 16:31";
       scan "ORD-002" "Weevo" "2025-08-12 16:25";
       scan "ORD-999" "Weevo" "2025-08-12 16:20"] = Ok out /\
    In "ORD-999" (rep_unexpected (reconciliation out)) /\
    In "ORD-001" (rep_late (reconciliation out)) /\
    In "ORD-001" (rep_misassigned (reconciliation out)).
Proof. eexists. split; [evaluate|]. simpl. auto. Qed.

Example test_capacity_and_exclusions :
  exists out,
    run strptime_strict
      [raw_order_due "A" "Giza" "COD" "fragile" (VInt 5) "2025-08-12 10:00";
       raw_order_due "B" "Dokki" "COD" "standard" (VInt 3) "2025-08-12 11:00";
       raw_order_due "C" "Dokki" "Prepaid" "standard" (VInt 2) "2025-08-12 12:00"]
      [courier "Weevo" ["Giza"; "Dokki"] true 10 1 [];
       courier "Bosta" ["Giza"; "Dokki"] true 10 2 ["fragile"];
       courier "SafeShip" ["Dokki"] false 10 3 []]
      [("giza", "Giza"); ("dokki", "Dokki")] [] = Ok out /\
    assignments (plan out) = [planned "A" "Weevo"; planned "B" "Bosta"; planned "C" "SafeShip"].
Proof. eexists. split; [evaluate|]. reflexivity. Qed.

Example test_duplicate_scans :
  exists out,
    run strptime_strict
      [raw_order_due "ORD-002" "Giza" "COD" "standard" (VInt 1) "2025-08-12 10:00"]
      [courier "Weevo" ["Giza"] true 10 1 []]
      [("giza", "Giza")]
      [scan "ORD-002" "Weevo" "2025-08-12 09:00";
       scan "ORD-002" "Weevo" "2025-08-12 09:05";
       scan "ORD-002" "Weevo" "2025-08-12 09:07"] = Ok out /\
    rep_duplicate (reconciliation out) = ["ORD-002"].
Proof. eexists. split; [evaluate|]. reflexivity. Qed.

Example test_dedup_conflicting_addresses :
  dedup [VDict [("orderid", VStr "A1"); ("address", VStr "123 Main St")];
         VDict [("orderid", VStr "A1"); ("address", VStr "456 Side Ave")]]
  = Ok ([VDict [("orderid", VStr "A1"); ("address", VStr "123 Main St")]],
        ["Conflicting address for order A1"]).
Proof. evaluate. Qed.

Example test_normalize_orders_zone_mapping :
  normalize_orders
    [raw_order_due "1" "6 October" "COD" "standard" (VInt 1) "2025-08-12 10:00"]
    [("6 october", "6th of October")]
  = Ok [clean_order "1" "6th of October" "COD" "standard" (VInt 1) "2025-08-12 10:00" ""].
Proof. evaluate. Qed.

End Tests.

(** ** The claims on concrete inputs *)

Section Concrete.
Local Existing Instance binary64.
Local Existing Instance binary64_order.

(** C1. A weight that is not a number stops the run: with the weight
    "heavy" the order passes [normalize_orders] and [dedup] unchanged, and
    [plan_assignments] raises the [ValueError] of [float("heavy")], so that
    [run] produces no output at all; the same batch with the weight 5 runs
    to the end. *)
Theorem malformed_weight_aborts :
  let couriers := [courier "C1" ["Giza"] true 10 1 []] in
  let batch w := [raw_order "A" "Giza" "COD" "standard" w] in
  let cleaned w := [clean_order "A" "Giza" "COD" "standard" w "" ""] in
  normalize_orders (batch (VStr "heavy")) [] = Ok (cleaned (VStr "heavy")) /\
  dedup (cleaned (VStr "heavy")) = Ok (cleaned (VStr "heavy"), []) /\
  plan_assignments (cleaned (VStr "heavy")) couriers = Raise ValueError /\
  run strptime_strict (batch (VStr "heavy")) couriers [] [] = Raise ValueError /\
  exists out, run strptime_strict (batch (VInt 5)) couriers [] [] = Ok out.
Proof.
  repeat split; try evaluate.
  eexists. evaluate.
Qed.

(** C8. A raw order whose [orderId] is white space only and whose
    [order_id] is "A1": the first non-blank value among the three keys is
    "A1", but [normalize_orders] takes the white space, trims it, and gives
    the order the blank identifier.  The payment type of the same order is
    read by the neighbouring expression, which trims before it falls
    through: the white space under [paymentType] is skipped and [payment] is
    taken.  A number under [orderId] stops the run with the
    [AttributeError] of [strip]. *)
Theorem white_space_identifier_not_skipped :
  let d := [("orderid", VStr "  "); ("order_id", VStr "A1");
            ("paymenttype", VStr "  "); ("payment", VStr "cash")] in
  let o := VDict [("orderId", VStr "  "); ("order_id", VStr "A1");
                  ("paymentType", VStr "  "); ("payment", VStr "cash")] in
  normalize_keys o = VDict d /\
  strip (first_non_blank d id_keys) = "A1" /\
  order_id_of d = Ok "" /\
  normalize_orders [o] [] = Ok [clean_order "" "" "cash" "" (VInt 0) "" ""] /\
  normalize_orders [VDict [("orderId", VInt 17)]] [] = Raise AttributeError.
Proof.
  repeat split; evaluate.
Qed.

(** What does degrade: an order without any field, or with null fields,
    becomes the order of blank texts and weight 0, and is planned (and
    rejected) without error. *)
Example missing_fields_default :
  let couriers := [courier "C1" ["Giza"] true 10 1 []] in
  let blank_order := clean_order "" "" "" "" (VInt 0) "" "" in
  normalize_orders [VDict []; VDict [("orderId", VNone); ("weight", VNone)]] []
  = Ok [blank_order; VDict [("orderid", VStr ""); ("city", VStr "");
                            ("paymenttype", VStr ""); ("producttype", VStr "");
                            ("weight", VNone); ("deadline", VStr "");
                            ("address", VStr "")]] /\
  exists out,
    run strptime_strict [VDict []; VDict [("orderId", VNone); ("weight", VNone)]]
        couriers [] [] = Ok out /\
    clean_orders out = ([blank_order], []) /\
    unassigned_reasons (plan out) = [("", "Zone not covered")].
Proof.
  split; [evaluate|]. eexists. split; [evaluate|]. split; reflexivity.
Qed.

(** C2 as stated fails: a courier whose declared capacity is -5 has the
    final usage 0, which is above its capacity. *)
Lemma negative_capacity_exceeded :
  let c := courier "C1" ["Giza"] true (-5) 1 [] in
  exists final,
    plan_assignments [] [c] = Ok final /\
    usage_of (capacity_usage final) (normalize_keys c) = Ok 0%float /\
    daily_capacity (normalize_keys c) = Ok (-5)%float /\
    f_leb 0%float (-5)%float = false.
Proof. eexists. repeat split; evaluate. Qed.

(** C2 as stated fails also for two couriers that share an identifier:
    the usage 7 filed under "C1" is above the capacity 5 of the second. *)
Lemma shared_identifier_exceeded :
  let c1 := courier "C1" ["Giza"] true 10 1 [] in
  let c2 := courier "C1" ["Giza"] true 5 2 [] in
  exists final,
    plan_assignments [clean_order "A" "Giza" "COD" "standard" (VInt 7) "" ""] [c1; c2]
    = Ok final /\
    usage_of (capacity_usage final) (normalize_keys c2) = Ok 7%float /\
    daily_capacity (normalize_keys c2) = Ok 5%float /\
    f_leb 7%float 5%float = false.
Proof. eexists. repeat split; evaluate. Qed.

(** C4 as stated fails: courier "A" declares no priority, courier "B"
    declares the priority 2000000000; both survive the four filters with the
    usage 0, and the order goes to "A", which therefore does not rank last. *)
Lemma undeclared_priority_not_last :
  let a := courier_without_priority "A" ["Giza"] true 10 [] in
  let b := courier "B" ["Giza"] true 10 2000000000 [] in
  let o := clean_order "O1" "Giza" "COD" "standard" (VInt 1) "" "" in
  exists st0 cs v final,
    plan_assignments [] [b; a] = Ok st0 /\
    sort_by_priority (map normalize_keys [b; a]) = Ok cs /\
    read_order (normalize_keys o) = Ok v /\
    survivors_of cs (capacity_usage st0) v = Ok [normalize_keys a; normalize_keys b] /\
    selection_key (capacity_usage st0) (normalize_keys a) = Ok (0%float, 10 ^ 9) /\
    selection_key (capacity_usage st0) (normalize_keys b) = Ok (0%float, 2000000000) /\
    plan_assignments [o] [b; a] = Ok final /\
    assignments final = [planned "O1" "A"].
Proof. do 4 eexists. repeat split; evaluate. Qed.


(** C7 as stated fails: an order of weight -5 is assigned, and the usage
    of its courier goes from 0 to -5. *)
Lemma negative_weight_lowers_usage :
  let couriers := [courier "C1" ["Giza"] true 10 1 []] in
  let o := clean_order "A" "Giza" "COD" "standard" (VInt (-5)) "" "" in
  exists st st',
    plan_assignments [] couriers = Ok st /\
    plan_assignments ([] ++ [o]) couriers = Ok st' /\
    alist_get "C1" (capacity_usage st) = Some 0%float /\
    alist_get "C1" (capacity_usage st') = Some (-5)%float /\
    f_ltb (-5)%float 0%float = true /\
    f_leb 0%float (-5)%float = false.
Proof. do 2 eexists. repeat split; evaluate. Qed.

(** Two orders with the identifier "A": the first is out of zone, the
    second is in zone and on delivery, which the courier does not accept.
    Both are left unassigned, and the reason returned for "A" is the one of
    the second; the first predicate that eliminates all candidates for the
    first order is zone coverage. *)
Lemma later_duplicate_replaces_reason :
  let couriers := [courier "C1" ["Giza"] false 10 1 []] in
  let a1 := clean_order "A" "Alex" "COD" "standard" (VInt 1) "" "" in
  let a2 := clean_order "A" "Giza" "COD" "standard" (VInt 1) "" "" in
  let st0 := {| assignments := []; unassigned := [];
                capacity_usage := [("C1", 0%float)]; unassigned_reasons := [] |} in
  plan_assignments [] couriers = Ok st0 /\
  order_reads a1 "A" "Alex" "COD" "standard" 1%float /\
  eliminated_at (map normalize_keys couriers) (capacity_usage st0)
                "Alex" "COD" "standard" 1%float Zone /\
  reason_text Zone "standard" = "Zone not covered" /\
  plan_assignments [a1] couriers
  = Ok (rejected st0 (VStr "A") "A" "Zone not covered") /\
  plan_assignments [a1; a2] couriers
  = Ok {| assignments := []; unassigned := [VStr "A"; VStr "A"];
          capacity_usage := [("C1", 0%float)];
          unassigned_reasons := [("A", "COD not accepted")] |}.
Proof.
  intros couriers a1 a2 st0.
  split; [evaluate|]. split.
  { eexists. split; [evaluate|]. repeat split; evaluate. }
  split.
  { intros x [<-|[]] (zones & Hz & Hin). injection Hz as <-.
    destruct Hin as [[=]|[]]. }
  split; [reflexivity|]. split; evaluate.
Qed.

(** A courier whose zones are given as the text "Gizah" instead of a
    list: [in] looks for the city inside the text, the order for "Giza"
    passes the first filter, and the reason recorded is the one of the
    second. *)
Lemma zones_given_as_text :
  let c1 := VDict [("courierId", VStr "C1"); ("zonesCovered", VStr "Gizah");
                   ("acceptsCOD", VBool false); ("dailyCapacity", VInt 10)] in
  let a := clean_order "A" "Giza" "COD" "standard" (VInt 1) "" "" in
  in_zone_of [normalize_keys c1] (VStr "Giza") = Ok [normalize_keys c1] /\
  plan_assignments [a] [c1]
  = Ok {| assignments := []; unassigned := [VStr "A"];
          capacity_usage := [("C1", 0%float)];
          unassigned_reasons := [("A", "COD not accepted")] |}.
Proof.
  split; evaluate.
Qed.

End Concrete.

(** ** The theorems applied *)

Section Witnesses.
Local Existing Instance binary64.
Local Existing Instance binary64_order.

(** Two orders without identifier and with different addresses. *)
Lemma dedup_blank_identifier_witness :
  let o1 := clean_order "" "Giza" "COD" "standard" (VInt 1) "" "1 Main St" in
  let o2 := clean_order "" "Giza" "COD" "standard" (VInt 2) "" "2 Side Ave" in
  let o3 := clean_order "X" "Giza" "COD" "standard" (VInt 3) "" "" in
  dedup [o1; o2; o3] = Ok ([o1; o3], ["Conflicting address for order "]) /\
  List.find (has_id "") [o1; o2; o3] = Some o1 /\
  List.filter (has_id "") [o1; o3] = [o1] /\
  In "Conflicting address for order " ["Conflicting address for order "].
Proof.
  intros o1 o2 o3.
  assert (D : dedup [o1; o2; o3] = Ok ([o1; o3], ["Conflicting address for order "]))
    by evaluate.
  assert (F : List.find (has_id "") [o1; o2; o3] = Some o1) by reflexivity.
  destruct (dedup_blank_identifier _ _ _ _ D F) as [H1 H2].
  split; [exact D|]. split; [exact F|]. split; [exact H1|].
  apply (H2 [o1] o2 [o3] "1 Main St" "2 Side Ave");
    try reflexivity; discriminate.
Defined.

(** One courier of capacity 10, two orders of weight 7 and 5. *)
Lemma capacity_respected_witness :
  let couriers := [courier "C1" ["Giza"] true 10 1 []] in
  let orders := [clean_order "A" "Giza" "COD" "standard" (VInt 7) "" "";
                 clean_order "B" "Giza" "COD" "standard" (VInt 5) "" ""] in
  let c := normalize_keys (courier "C1" ["Giza"] true 10 1 []) in
  let final := {| assignments := [planned "A" "C1"];
                  unassigned := [VStr "B"];
                  capacity_usage := [("C1", 7%float)];
                  unassigned_reasons := [("B", "Capacity exceeded")] |} in
  plan_assignments orders couriers = Ok final /\
  daily_capacity c = Ok 10%float /\
  f_leb 0%float 10%float = true /\
  exists u, usage_of (capacity_usage final) c = Ok u /\ f_leb u 10%float = true.
Proof.
  intros couriers orders c final.
  assert (P : plan_assignments orders couriers = Ok final) by evaluate.
  assert (D : daily_capacity c = Ok 10%float) by evaluate.
  split; [exact P|]. split; [exact D|]. split; [reflexivity|].
  apply (capacity_respected orders couriers final c 10%float P).
  - left. reflexivity.
  - exact D.
  - reflexivity.
  - intros c' [<-|[]] _. exact D.
Defined.

(** An order for a zone nobody covers, then an order on delivery that the
    only courier of its zone does not accept, then another order out of
    zone.  The exclusions of the courier are not a list: the third filter
    would raise on them, and is not evaluated. *)
Lemma rejection_reason_witness :
  let c1 := VDict [("courierId", VStr "C1"); ("zonesCovered", texts ["Giza"]);
                   ("acceptsCOD", VBool false); ("dailyCapacity", VInt 10);
                   ("exclusions", VInt 5)] in
  let a := clean_order "A" "Alex" "COD" "standard" (VInt 1) "" "" in
  let b := clean_order "B" "Giza" "COD" "standard" (VInt 1) "" "" in
  let c := clean_order "C" "Aswan" "" "standard" (VInt 1) "" "" in
  let st := {| assignments := []; unassigned := [VStr "A"];
               capacity_usage := [("C1", 0%float)];
               unassigned_reasons := [("A", "Zone not covered")] |} in
  let final := {| assignments := []; unassigned := [VStr "A"; VStr "B"; VStr "C"];
                  capacity_usage := [("C1", 0%float)];
                  unassigned_reasons := [("A", "Zone not covered");
                                         ("B", "COD not accepted");
                                         ("C", "Zone not covered")] |} in
  plan_assignments [a] [c1] = Ok st /\
  plan_assignments ([a] ++ b :: [c]) [c1] = Ok final /\
  order_reads b "B" "Giza" "COD" "standard" 1%float /\
  (forall rest, unassigned final = unassigned st ++ VStr "B" :: rest ->
                ~ In (VStr "B") rest) /\
  (forall x, In x (map normalize_keys [c1]) -> declared Cod x) /\
  eliminated_at (map normalize_keys [c1]) (capacity_usage st)
                "Giza" "COD" "standard" 1%float Cod /\
  excluded_names (normalize_keys c1) = Raise TypeError /\
  plan_assignments ([a] ++ [b]) [c1]
  = Ok (rejected st (VStr "B") "B" "COD not accepted") /\
  In (VStr "B") (unassigned final) /\
  alist_get "B" (unassigned_reasons final) = Some "COD not accepted".
Proof.
  intros c1 a b c st final.
  assert (P : plan_assignments [a] [c1] = Ok st) by evaluate.
  assert (F : plan_assignments ([a] ++ b :: [c]) [c1] = Ok final) by evaluate.
  assert (R : order_reads b "B" "Giza" "COD" "standard" 1%float).
  { eexists. split; [evaluate|]. repeat split; evaluate. }
  assert (L : forall rest, unassigned final = unassigned st ++ VStr "B" :: rest ->
                           ~ In (VStr "B") rest).
  { intros rest [= <-] [[=]|[]]. }
  assert (D : forall x, In x (map normalize_keys [c1]) -> declared Cod x).
  { intros x [<-|[]]. split.
    - right. eexists. evaluate.
    - right. eexists. evaluate. }
  assert (E : eliminated_at (map normalize_keys [c1]) (capacity_usage st)
                            "Giza" "COD" "standard" 1%float Cod).
  { split.
    - eexists. split; [now left|]. eexists. split; [evaluate|now left].
    - intros x [<-|[]] _ Hacc. specialize (Hacc eq_refl). discriminate Hacc. }
  assert (X : excluded_names (normalize_keys c1) = Raise TypeError) by evaluate.
  split; [exact P|]. split; [exact F|]. split; [exact R|]. split; [exact L|].
  split; [exact D|]. split; [exact E|]. split; [exact X|].
  destruct (rejection_reason [c1] [a] [c] b "B" "Giza" "COD" "standard" 1%float
                             st final P F R L) as [H _].
  exact (H Cod D E).
Defined.

(** Two couriers; the second order goes to the one still without load. *)
Lemma least_loaded_choice_witness :
  let c1 := courier "C1" ["Giza"] true 10 2 [] in
  let c2 := courier "C2" ["Giza"] true 10 1 [] in
  let a := clean_order "A" "Giza" "COD" "standard" (VInt 3) "" "" in
  let b := clean_order "B" "Giza" "COD" "standard" (VInt 1) "" "" in
  let cs := [normalize_keys c2; normalize_keys c1] in
  let st := {| assignments := [planned "A" "C2"]; unassigned := [];
               capacity_usage := [("C1", 0%float); ("C2", 3%float)];
               unassigned_reasons := [] |} in
  let v := {| oid := VStr "B"; city := VStr "Giza"; payment := "cod";
              product := "standard"; weight := 1%float |} in
  plan_assignments [a] [c1; c2] = Ok st /\
  sort_by_priority (map normalize_keys [c1; c2]) = Ok cs /\
  read_order (normalize_keys b) = Ok v /\
  survivors_of cs (capacity_usage st) v = Ok cs /\
  cs <> [] /\
  exists chosen cid u p,
    In chosen cs /\
    subscript chosen "courierid" = Ok (VStr cid) /\
    selection_key (capacity_usage st) chosen = Ok (u, p) /\
    (forall c u' p',
        In c cs -> selection_key (capacity_usage st) c = Ok (u', p') ->
        f_ltb u' u = false /\ (f_eqb u' u = true -> p <= p')) /\
    forall post,
      plan_assignments ([a] ++ b :: post) [c1; c2] =
      plan_loop cs (map normalize_keys post)
                (assigned st (oid v) (VStr cid) cid (f_add u (weight v))).
Proof.
  intros c1 c2 a b cs st v.
  assert (P : plan_assignments [a] [c1; c2] = Ok st) by evaluate.
  assert (S : sort_by_priority (map normalize_keys [c1; c2]) = Ok cs) by evaluate.
  assert (R : read_order (normalize_keys b) = Ok v) by evaluate.
  assert (V : survivors_of cs (capacity_usage st) v = Ok cs) by evaluate.
  assert (N : cs <> []) by discriminate.
  split; [exact P|]. split; [exact S|]. split; [exact R|]. split; [exact V|].
  split; [exact N|].
  destruct (least_loaded_choice [c1; c2] [a] b st cs v cs P S R V N)
    as (chosen & cid & u & p & H1 & H2 & H3 & H4 & _ & H6).
  exists chosen, cid, u, p. auto.
Defined.

(** Two orders, one of them scanned (as "a "), the other not. *)
Lemma not_delivered_complete_witness :
  let plan := [planned "A" "C1"; planned "B" "C1"] in
  let orders := [clean_order "A" "" "" "" (VInt 0) "2025-08-12 10:00" "";
                 clean_order "B" "" "" "" (VInt 0) "2025-08-12 10:00" ""] in
  let log := [scan "a " "C1" "2025-08-12 09:00"] in
  let rep := {| rep_unexpected := []; rep_misassigned := []; rep_late := [];
                rep_duplicate := []; rep_notDelivered := ["B"] |} in
  reconcile strptime_strict plan orders log [] = Ok rep /\
  (forall x, In x ["B"] <->
             known_id (map normalize_keys orders) x /\
             ~ scanned_id (map normalize_keys log) x) /\
  Sorted (fun a b => String.leb a b = true) ["B"].
Proof.
  intros plan orders log rep.
  assert (R : reconcile strptime_strict plan orders log [] = Ok rep)
    by evaluate.
  destruct (not_delivered_complete strptime_strict _ _ _ _ _ R) as (H1 & H2 & _).
  split; [exact R|]. split; [exact H1|exact H2].
Defined.


End Witnesses.

Section AdditionWitness.
Local Existing Instance binary64.
Local Existing Instance binary64_order.
Local Existing Instance binary64_add.

(** In double precision: an order of weight 0.2 after one of weight 0.1,
    both for the same courier. *)
Lemma usage_never_decreases_witness :
  let couriers := [courier "C1" ["Giza"] true 10 1 []] in
  let a := clean_order "A" "Giza" "COD" "standard" (VStr "0.1") "" "" in
  let b := clean_order "B" "Giza" "COD" "standard" (VStr "0.2") "" "" in
  let x := b64_of_decimal (false, 1, 1%nat) in
  let y := b64_of_decimal (false, 2, 1%nat) in
  let st := {| assignments := [planned "A" "C1"]; unassigned := [];
               capacity_usage := [("C1", x)]; unassigned_reasons := [] |} in
  let st' := {| assignments := [planned "A" "C1"; planned "B" "C1"]; unassigned := [];
                capacity_usage := [("C1", PrimFloat.add x y)];
                unassigned_reasons := [] |} in
  let v := {| oid := VStr "B"; city := VStr "Giza"; payment := "cod";
              product := "standard"; weight := y |} in
  plan_assignments [a] couriers = Ok st /\
  plan_assignments ([a] ++ [b]) couriers = Ok st' /\
  read_order (normalize_keys b) = Ok v /\
  f_leb f_zero (weight v) = true /\
  alist_get "C1" (capacity_usage st) = Some x /\
  exists u', alist_get "C1" (capacity_usage st') = Some u' /\ f_ltb u' x = false.
Proof.
  intros couriers a b x y st st' v.
  assert (P : plan_assignments [a] couriers = Ok st) by evaluate.
  assert (P' : plan_assignments ([a] ++ [b]) couriers = Ok st') by evaluate.
  assert (R : read_order (normalize_keys b) = Ok v) by evaluate.
  assert (W : f_leb f_zero (weight v) = true) by evaluate.
  split; [exact P|]. split; [exact P'|]. split; [exact R|]. split; [exact W|].
  split; [reflexivity|].
  destruct (usage_never_decreases couriers) as [_ H].
  apply (H [a] b st st' v P P' R W "C1" x eq_refl).
Defined.

End AdditionWitness.

(** ** The further theorems applied *)

Section MoreWitnesses.
Local Existing Instance binary64.

(** An order with a list of items, all keys in lower case. *)
Lemma normalize_keys_fixed_witness :
  let obj := VDict [("orderid", VStr "A");
                    ("items", VList [VDict [("sku", VInt 1); ("qty", VInt 2)]])] in
  well_keyed obj = true /\ keys_lower obj = true /\ normalize_keys obj = obj.
Proof.
  intros obj.
  assert (W : well_keyed obj = true) by evaluate.
  assert (L : keys_lower obj = true) by evaluate.
  split; [exact W|]. split; [exact L|]. exact (normalize_keys_fixed obj W L).
Defined.

(** The keys "Weight" and "WEIGHT" of one record. *)
Lemma normalize_keys_last_wins_witness :
  let pre := [("Weight", VInt 1)] in
  let post := [("city", VStr "Giza")] in
  (forall kv, In kv post -> lower (fst kv) <> lower "WEIGHT") /\
  get (normalize_keys (VDict (pre ++ ("WEIGHT", VInt 2) :: post))) (lower "WEIGHT") VNone
  = Ok (normalize_keys (VInt 2)).
Proof.
  intros pre post.
  assert (H : forall kv, In kv post -> lower (fst kv) <> lower "WEIGHT")
    by (intros kv [<-|[]]; discriminate).
  split; [exact H|]. exact (normalize_keys_last_wins pre post "WEIGHT" (VInt 2) H).
Defined.

(** Two rows of [zones.csv], the second without canonical name. *)
Lemma zones_map_entries_witness :
  let rows := [VDict [("raw", VStr " Giza "); ("canonical", VStr "Giza")];
               VDict [("raw", VStr "6 October"); ("canonical", VStr "")]] in
  let m := [("giza", "Giza"); ("6 october", "6 October")] in
  load_zones_csv rows = Ok m /\
  NoDup (map fst m) /\
  forall k name, In (k, name) m -> k <> "" /\ lower (strip k) = k /\ name <> "".
Proof.
  intros rows m.
  assert (L : load_zones_csv rows = Ok m) by evaluate.
  split; [exact L|]. exact (zones_map_entries rows m L).
Defined.

(** Three rows, two of them for Giza; an order for "GIZA  ". *)
Lemma city_canonicalised_witness :
  let pre := [VDict [("raw", VStr "giza"); ("canonical", VStr "Gizeh")]] in
  let d := [("raw", VStr " Giza "); ("canonical", VStr " Giza")] in
  let post := [VDict [("raw", VStr "Dokki"); ("canonical", VStr "Dokki")]] in
  let m := [("giza", "Giza"); ("dokki", "Dokki")] in
  let o := [("orderid", VStr "A"); ("city", VStr "GIZA  ")] in
  let out := clean_order "A" "Giza" "" "" (VInt 0) "" "" in
  load_zones_csv (pre ++ VDict d :: post) = Ok m /\
  normalize_order m (VDict o) = Ok out /\
  subscript out "city" = Ok (VStr "Giza").
Proof.
  intros pre d post m o out.
  assert (L : load_zones_csv (pre ++ VDict d :: post) = Ok m) by evaluate.
  assert (N : normalize_order m (VDict o) = Ok out) by evaluate.
  split; [exact L|]. split; [exact N|].
  apply (city_canonicalised pre post d " Giza " "Giza" m o "GIZA  " out L).
  - reflexivity.
  - evaluate.
  - discriminate.
  - intros d' s' [[= <-]|[]] Hs. injection Hs as <-. discriminate.
  - reflexivity.
  - reflexivity.
  - exact N.
Defined.

(** Three rows, one with a short line. *)
Lemma load_zones_csv_total_witness :
  let rows := [VDict [("raw", VStr " Giza "); ("canonical", VStr "Giza")];
               VDict [("raw", VStr "Dokki"); ("canonical", VNone)];
               VDict [("raw", VStr ""); ("canonical", VStr "Nowhere")]] in
  Forall (fun row => zone_row row = true) rows /\
  exists m, load_zones_csv rows = Ok m.
Proof.
  intros rows.
  assert (F : Forall (fun row => zone_row row = true) rows)
    by (repeat constructor).
  split; [exact F|]. exact (load_zones_csv_total rows F).
Defined.

(** One order as [orders.json] gives it. *)
Lemma normalize_orders_shape_witness :
  let orders := [raw_order "A" " Giza" "COD" "fragile" (VInt 2)] in
  let zones_map := [("giza", "Giza")] in
  let out := [clean_order "A" "Giza" "COD" "fragile" (VInt 2) "" ""] in
  normalize_orders orders zones_map = Ok out /\
  Forall2 (fun o r =>
             exists d id city payment product deadline address,
               normalize_keys o = VDict d /\
               r = clean_order id city payment product
                               (dict_get d "weight" (VInt 0)) deadline address /\
               strip id = id /\ strip payment = payment /\ strip product = product /\
               strip deadline = deadline /\ strip address = address)
          orders out.
Proof.
  intros orders zones_map out.
  assert (N : normalize_orders orders zones_map = Ok out) by evaluate.
  split; [exact N|]. exact (normalize_orders_shape orders zones_map out N).
Defined.

(** An order with a [null] city and a numeric weight, and an empty one. *)
Lemma normalize_orders_total_witness :
  let orders := [VDict [("orderId", VStr "A"); ("city", VNone); ("weight", VInt 3)];
                 VDict []] in
  Forall (fun o => order_record o = true) orders /\
  exists out, normalize_orders orders [("giza", "Giza")] = Ok out.
Proof.
  intros orders.
  assert (F : Forall (fun o => order_record o = true) orders).
  { repeat constructor; evaluate. }
  split; [exact F|]. exact (normalize_orders_total orders [("giza", "Giza")] F).
Defined.

(** Two orders "A" with different addresses, then an order "B". *)
Lemma dedup_keeps_first_witness :
  let o1 := clean_order "A" "Giza" "COD" "standard" (VInt 1) "" "1 Main St" in
  let o2 := clean_order "A" "Giza" "COD" "standard" (VInt 2) "" "2 Side Ave" in
  let o3 := clean_order "B" "Giza" "COD" "standard" (VInt 3) "" "" in
  dedup [o1; o2; o3] = Ok ([o1; o3], ["Conflicting address for order A"]) /\
  sublist [o1; o3] [o1; o2; o3] /\
  (forall s, List.find (has_id s) [o1; o3] = List.find (has_id s) [o1; o2; o3]) /\
  exists ids, NoDup ids /\
              Forall2 (fun k o => subscript o "orderid" = Ok (VStr k)) ids [o1; o3].
Proof.
  intros o1 o2 o3.
  assert (D : dedup [o1; o2; o3] = Ok ([o1; o3], ["Conflicting address for order A"]))
    by evaluate.
  split; [exact D|]. exact (dedup_keeps_first _ _ _ D).
Defined.

Lemma dedup_idempotent_witness :
  let o1 := clean_order "A" "Giza" "COD" "standard" (VInt 1) "" "1 Main St" in
  let o2 := clean_order "A" "Giza" "COD" "standard" (VInt 2) "" "2 Side Ave" in
  let o3 := clean_order "B" "Giza" "COD" "standard" (VInt 3) "" "" in
  dedup [o1; o2; o3] = Ok ([o1; o3], ["Conflicting address for order A"]) /\
  dedup [o1; o3] = Ok ([o1; o3], []).
Proof.
  intros o1 o2 o3.
  assert (D : dedup [o1; o2; o3] = Ok ([o1; o3], ["Conflicting address for order A"]))
    by evaluate.
  split; [exact D|]. exact (dedup_idempotent _ _ _ D).
Defined.

(** The same order twice in [orders.json]. *)
Lemma dedup_after_normalize_witness :
  let orders := [raw_order "A" "Giza" "COD" "fragile" (VInt 2);
                 raw_order " A" "Giza" "COD" "fragile" (VInt 2)] in
  let normalized := [clean_order "A" "Giza" "COD" "fragile" (VInt 2) "" "";
                     clean_order "A" "Giza" "COD" "fragile" (VInt 2) "" ""] in
  normalize_orders orders [] = Ok normalized /\
  exists clean warnings, dedup normalized = Ok (clean, warnings).
Proof.
  intros orders normalized.
  assert (N : normalize_orders orders [] = Ok normalized) by evaluate.
  split; [exact N|]. exact (dedup_after_normalize orders [] normalized N).
Defined.

(** A normalised order, then a raw one whose key is still [orderId]. *)
Lemma dedup_needs_identifier_witness :
  let pre := [clean_order "A" "Giza" "COD" "standard" (VInt 1) "" ""] in
  let d := [("orderId", VStr "B"); ("city", VStr "Giza")] in
  dedup pre = Ok (pre, []) /\
  alist_get "orderid" d = None /\
  dedup (pre ++ VDict d :: []) = Raise KeyError.
Proof.
  intros pre d.
  assert (D : dedup pre = Ok (pre, [])) by evaluate.
  split; [exact D|]. split; [reflexivity|].
  exact (dedup_needs_identifier pre [] d pre [] D eq_refl).
Defined.

Lemma conflict_warning_rule_witness :
  let o1 := clean_order "A" "Giza" "COD" "standard" (VInt 1) "" "1 Main St" in
  let o2 := clean_order "A" "Giza" "COD" "standard" (VInt 2) "" "2 Side Ave" in
  let o3 := clean_order "B" "Giza" "COD" "standard" (VInt 3) "" "" in
  let warnings := ["Conflicting address for order A"] in
  dedup [o1; o2; o3] = Ok ([o1; o3], warnings) /\
  (forall s, In (conflict_warning s) warnings <->
             exists first pre later post,
               [o1; o2; o3] = pre ++ later :: post /\
               List.find (has_id s) pre = Some first /\
               has_id s later = true /\ conflicting first later = true) /\
  (forall msg, In msg warnings -> exists s, msg = conflict_warning s).
Proof.
  intros o1 o2 o3 warnings.
  assert (D : dedup [o1; o2; o3] = Ok ([o1; o3], warnings)) by evaluate.
  split; [exact D|]. exact (conflict_warning_rule _ _ _ D).
Defined.

(** One courier of capacity 10, two orders of weight 7 and 5. *)
Lemma every_order_decided_witness :
  let couriers := [courier "C1" ["Giza"] true 10 1 []] in
  let orders := [clean_order "A" "Giza" "COD" "standard" (VInt 7) "" "";
                 clean_order "B" "Giza" "COD" "standard" (VInt 5) "" ""] in
  let st := {| assignments := [planned "A" "C1"];
               unassigned := [VStr "B"];
               capacity_usage := [("C1", 7%float)];
               unassigned_reasons := [("B", "Capacity exceeded")] |} in
  plan_assignments orders couriers = Ok st /\
  exists pairs ids,
    assignments st = map assignment_of pairs /\
    mapM (fun o => subscript (normalize_keys o) "orderid") orders = Ok ids /\
    Permutation (map fst pairs ++ unassigned st) ids /\
    sublist (map fst pairs) ids /\ sublist (unassigned st) ids /\
    (length (assignments st) + length (unassigned st) = length orders)%nat.
Proof.
  intros couriers orders st.
  assert (P : plan_assignments orders couriers = Ok st) by evaluate.
  split; [exact P|]. exact (every_order_decided orders couriers st P).
Defined.


(** An order for a zone nobody covers, and one of an excluded product. *)
Lemma reason_for_every_unassigned_witness :
  let couriers := [courier "C1" ["Giza"] true 10 1 ["fragile"]] in
  let orders := [clean_order "A" "Alex" "COD" "standard" (VInt 1) "" "";
                 clean_order "B" "Giza" "COD" "fragile" (VInt 1) "" ""] in
  let st := {| assignments := [];
               unassigned := [VStr "A"; VStr "B"];
               capacity_usage := [("C1", 0%float)];
               unassigned_reasons :=
                 [("A", "Zone not covered"); ("B", "Excluded product type: fragile")] |} in
  plan_assignments orders couriers = Ok st /\
  (forall k, In (VStr k) (unassigned st) <->
             exists reason, alist_get k (unassigned_reasons st) = Some reason).
Proof.
  intros couriers orders st.
  assert (P : plan_assignments orders couriers = Ok st) by evaluate.
  split; [exact P|].
  exact (proj1 (reason_for_every_unassigned orders couriers st P)).
Defined.

Lemma usage_has_roster_keys_witness :
  let couriers := [courier "C1" ["Giza"] true 10 1 ["fragile"];
                   courier "C2" ["Giza"] true 10 2 []] in
  let orders := [clean_order "A" "Giza" "COD" "fragile" (VInt 5) "" ""] in
  let st := {| assignments := [planned "A" "C2"];
               unassigned := [];
               capacity_usage := [("C1", 0%float); ("C2", 5%float)];
               unassigned_reasons := [] |} in
  plan_assignments orders couriers = Ok st /\
  forall k, (exists u, alist_get k (capacity_usage st) = Some u) <->
            exists c, In c (map normalize_keys couriers) /\
                      subscript c "courierid" = Ok (VStr k).
Proof.
  intros couriers orders st.
  assert (P : plan_assignments orders couriers = Ok st) by evaluate.
  split; [exact P|]. exact (usage_has_roster_keys orders couriers st P).
Defined.

(** Two orders and nobody to carry them. *)
Lemma empty_roster_witness :
  let orders := [clean_order "A" "Alex" "COD" "standard" (VInt 1) "" "";
                 clean_order "B" "Giza" "COD" "fragile" (VInt 1) "" ""] in
  let st := {| assignments := [];
               unassigned := [VStr "A"; VStr "B"];
               capacity_usage := [];
               unassigned_reasons :=
                 [("A", "Zone not covered"); ("B", "Zone not covered")] |} in
  plan_assignments orders [] = Ok st /\
  assignments st = [] /\ capacity_usage st = [] /\
  length (unassigned st) = length orders /\
  forall k, In (VStr k) (unassigned st) ->
            alist_get k (unassigned_reasons st) = Some "Zone not covered".
Proof.
  intros orders st.
  assert (P : plan_assignments orders [] = Ok st) by evaluate.
  split; [exact P|]. exact (empty_roster orders st P).
Defined.

(** A log of five rows: "B" scanned twice and late, "Z" unknown, "A"
    scanned by another courier than planned. *)
Lemma report_lists_sorted_witness :
  let plan := [planned "A" "C1"; planned "B" "C1"] in
  let orders := [clean_order "A" "" "" "" (VInt 0) "2025-08-12 10:00" "";
                 clean_order "B" "" "" "" (VInt 0) "2025-08-12 10:00" "";
                 clean_order "C" "" "" "" (VInt 0) "" ""] in
  let log := [scan "Z" "C1" ""; scan "B" "C1" "2025-08-12 11:00";
              scan "b " "C1" "2025-08-12 09:00"; scan "A" "C2" "";
              scan "" "C1" ""] in
  let rep := {| rep_unexpected := ["Z"]; rep_misassigned := ["A"]; rep_late := ["B"];
                rep_duplicate := ["B"]; rep_notDelivered := ["C"] |} in
  reconcile strptime_strict plan orders log [] = Ok rep /\
  Forall (fun l => Sorted (fun a b => String.leb a b = true) l /\ NoDup l)
         [rep_unexpected rep; rep_misassigned rep; rep_late rep; rep_duplicate rep].
Proof.
  intros plan orders log rep.
  assert (R : reconcile strptime_strict plan orders log [] = Ok rep) by evaluate.
  split; [exact R|]. exact (report_lists_sorted strptime_strict _ _ _ _ _ R).
Defined.

Lemma unexpected_rule_witness :
  let plan := [planned "A" "C1"; planned "B" "C1"] in
  let orders := [clean_order "A" "" "" "" (VInt 0) "2025-08-12 10:00" "";
                 clean_order "B" "" "" "" (VInt 0) "2025-08-12 10:00" "";
                 clean_order "C" "" "" "" (VInt 0) "" ""] in
  let log := [scan "Z" "C1" ""; scan "B" "C1" "2025-08-12 11:00";
              scan "b " "C1" "2025-08-12 09:00"; scan "A" "C2" "";
              scan "" "C1" ""] in
  let rep := {| rep_unexpected := ["Z"]; rep_misassigned := ["A"]; rep_late := ["B"];
                rep_duplicate := ["B"]; rep_notDelivered := ["C"] |} in
  reconcile strptime_strict plan orders log [] = Ok rep /\
  forall x, In x ["Z"] <->
            scanned_id (map normalize_keys log) x /\
            ~ known_id (map normalize_keys orders) x.
Proof.
  intros plan orders log rep.
  assert (R : reconcile strptime_strict plan orders log [] = Ok rep) by evaluate.
  split; [exact R|]. exact (unexpected_rule strptime_strict _ _ _ _ _ R).
Defined.

Lemma duplicate_rule_witness :
  let plan := [planned "A" "C1"; planned "B" "C1"] in
  let orders := [clean_order "A" "" "" "" (VInt 0) "2025-08-12 10:00" "";
                 clean_order "B" "" "" "" (VInt 0) "2025-08-12 10:00" "";
                 clean_order "C" "" "" "" (VInt 0) "" ""] in
  let log := [scan "Z" "C1" ""; scan "B" "C1" "2025-08-12 11:00";
              scan "b " "C1" "2025-08-12 09:00"; scan "A" "C2" "";
              scan "" "C1" ""] in
  let rep := {| rep_unexpected := ["Z"]; rep_misassigned := ["A"]; rep_late := ["B"];
                rep_duplicate := ["B"]; rep_notDelivered := ["C"] |} in
  reconcile strptime_strict plan orders log [] = Ok rep /\
  forall x, In x ["B"] <->
            exists pre row post,
              map normalize_keys log = pre ++ row :: post /\
              scan_oid row = Ok x /\ x <> "" /\ scanned_id pre x.
Proof.
  intros plan orders log rep.
  assert (R : reconcile strptime_strict plan orders log [] = Ok rep) by evaluate.
  split; [exact R|]. exact (duplicate_rule strptime_strict _ _ _ _ _ R).
Defined.


(** An order "ord-1" and its scan: the scan reads "ORD-1". *)
Lemma scan_identifier_form_witness :
  let orders := [clean_order "ord-1" "" "" "" (VInt 0) "" ""] in
  let log := [scan "ord-1" "C1" ""] in
  let rep := {| rep_unexpected := ["ORD-1"]; rep_misassigned := []; rep_late := [];
                rep_duplicate := []; rep_notDelivered := ["ord-1"] |} in
  reconcile strptime_strict [] orders log [] = Ok rep /\
  (forall x, In x (rep_unexpected rep ++ rep_misassigned rep ++
                   rep_late rep ++ rep_duplicate rep) ->
             string_forall scan_id_char x = true) /\
  (forall x, known_id (map normalize_keys orders) x ->
             string_forall scan_id_char x = false ->
             In x (rep_notDelivered rep)).
Proof.
  intros orders log rep.
  assert (R : reconcile strptime_strict [] orders log [] = Ok rep) by evaluate.
  split; [exact R|]. exact (scan_identifier_form strptime_strict _ _ _ _ _ R).
Defined.

Lemma report_consistent_witness :
  let plan := [planned "A" "C1"; planned "B" "C1"] in
  let orders := [clean_order "A" "" "" "" (VInt 0) "2025-08-12 10:00" "";
                 clean_order "B" "" "" "" (VInt 0) "2025-08-12 10:00" "";
                 clean_order "C" "" "" "" (VInt 0) "" ""] in
  let log := [scan "Z" "C1" ""; scan "B" "C1" "2025-08-12 11:00";
              scan "b " "C1" "2025-08-12 09:00"; scan "A" "C2" "";
              scan "" "C1" ""] in
  let rep := {| rep_unexpected := ["Z"]; rep_misassigned := ["A"]; rep_late := ["B"];
                rep_duplicate := ["B"]; rep_notDelivered := ["C"] |} in
  reconcile strptime_strict plan orders log [] = Ok rep /\
  (forall x, In x (rep_unexpected rep ++ rep_misassigned rep ++
                   rep_late rep ++ rep_duplicate rep) ->
             scanned_id (map normalize_keys log) x /\
             ~ In x (rep_notDelivered rep)) /\
  (forall x, In x (rep_late rep) ->
             known_id (map normalize_keys orders) x /\ ~ In x (rep_unexpected rep)).
Proof.
  intros plan orders log rep.
  assert (R : reconcile strptime_strict plan orders log [] = Ok rep) by evaluate.
  split; [exact R|]. exact (report_consistent strptime_strict _ _ _ _ _ R).
Defined.

(** A batch with a missing city, a [null] weight and a weight given as a
    text. *)
Lemma run_completes_witness :
  let orders := [raw_order_due "A" "Giza" "COD" "fragile" (VInt 5) "2025-08-12 10:00";
                 VDict [("orderId", VStr "B"); ("weight", VNone)];
                 VDict [("order_id", VStr "C"); ("city", VStr "dokki");
                        ("weight", VStr "2.5")]] in
  let couriers := [courier "C1" ["Giza"; "Dokki"] true 10 1 [];
                   courier_without_priority "C2" ["Giza"] false 10 ["fragile"]] in
  let log := [scan "A" "C1" "2025-08-12 09:00"; scan "a" "C2" "soon";
              VDict [("orderId", VStr "Q"); ("courierId", VNone)]] in
  Forall (fun o => plannable_order o = true) orders /\
  Forall (fun c => courier_record c = true) couriers /\
  Forall (fun row => scan_row row = true) log /\
  exists out, run strptime_strict orders couriers [("dokki", "Dokki")] log = Ok out.
Proof.
  intros orders couriers log.
  assert (O : Forall (fun o => plannable_order o = true) orders)
    by (repeat constructor; evaluate).
  assert (C : Forall (fun c => courier_record c = true) couriers)
    by (repeat constructor; evaluate).
  assert (L : Forall (fun row => scan_row row = true) log)
    by (repeat constructor; evaluate).
  split; [exact O|]. split; [exact C|]. split; [exact L|].
  exact (run_completes strptime_strict orders couriers [("dokki", "Dokki")] log O C L).
Defined.

(** The same order twice, and another one nobody can carry. *)
Lemma run_decides_once_witness :
  let orders := [raw_order "A" "Giza" "COD" "standard" (VInt 5);
                 raw_order "A" "Giza" "COD" "standard" (VInt 5);
                 raw_order "B" "Alex" "COD" "standard" (VInt 1)] in
  let couriers := [courier "C1" ["Giza"] true 10 1 []] in
  exists out,
    run strptime_strict orders couriers [] [] = Ok out /\
    exists pairs,
      assignments (plan out) = map assignment_of pairs /\
      NoDup (map fst pairs ++ unassigned (plan out)) /\
      forall x, In x (map fst pairs ++ unassigned (plan out)) <->
                exists o, In o (fst (clean_orders out)) /\ subscript o "orderid" = Ok x.
Proof.
  intros orders couriers.
  assert (R : { out | run strptime_strict orders couriers [] [] = Ok out })
    by (eexists; evaluate).
  destruct R as [out R]. exists out. split; [exact R|].
  exact (run_decides_once strptime_strict orders couriers [] [] out R).
Defined.

(** A courier and, after it, a record without identifier. *)
Lemma courier_needs_identifier_witness :
  let pre := [courier "C1" ["Giza"] true 10 1 []] in
  let d := [("name", VStr "Bosta"); ("zonesCovered", VList [VStr "Giza"])] in
  initial_usage (map normalize_keys pre) = Ok [("C1", 0%float)] /\
  plan_assignments [] (pre ++ VDict d :: []) = Raise KeyError.
Proof.
  intros pre d.
  assert (U : initial_usage (map normalize_keys pre) = Ok [("C1", 0%float)]) by evaluate.
  split; [exact U|].
  apply (courier_needs_identifier [] pre [] d [("C1", 0%float)] U).
  intros kv [<-|[<-|[]]]; discriminate.
Defined.

(** An order with a city and no identifier; then a scan of "A". *)
Lemma scan_needs_identified_orders_witness :
  let d := [("city", VStr "Giza")] in
  let row := scan "A" "C1" "" in
  (exists rep, reconcile strptime_strict [] (VDict d :: []) [] [] = Ok rep) /\
  reconcile strptime_strict [] (VDict d :: []) (row :: []) [] = Raise KeyError.
Proof.
  intros d row.
  apply (scan_needs_identified_orders strptime_strict [] [] [] [] d row "A" "C1" ""
           ∅ []).
  - intros kv [<-|[]]. discriminate.
  - reflexivity.
  - reflexivity.
  - evaluate.
  - discriminate.
  - evaluate.
  - evaluate.
Defined.

(** Two orders of weight 2 and 3 for the only courier. *)
Lemma usage_accounts_for_assignments_witness :
  let couriers := [courier "C1" ["Giza"] true 10 1 []] in
  let orders := [clean_order "A" "Giza" "COD" "standard" (VInt 2) "" "";
                 clean_order "B" "Giza" "COD" "standard" (VInt 3) "" ""] in
  let st := {| assignments := [planned "A" "C1"; planned "B" "C1"];
               unassigned := [];
               capacity_usage := [("C1", 5%float)];
               unassigned_reasons := [] |} in
  plan_assignments orders couriers = Ok st /\
  exists decided : list (value * string * pyfloat),
    assignments st =
      map (fun t => assignment_of (fst (fst t), VStr (snd (fst t)))) decided /\
    (forall t, In t decided ->
       exists o v, In o orders /\ read_order (normalize_keys o) = Ok v /\
                   oid v = fst (fst t) /\ weight v = snd t) /\
    forall k u, alist_get k (capacity_usage st) = Some u ->
                u = fold_left f_add (weights_to k decided) f_zero.
Proof.
  intros couriers orders st.
  assert (P : plan_assignments orders couriers = Ok st) by evaluate.
  split; [exact P|]. exact (usage_accounts_for_assignments orders couriers st P).
Defined.

End MoreWitnesses.
